(** * LLMQ quorum utilities and DKG session handler: a shallow embedding

    Embedded sources:
    - [src/llmq/quorums_utils.cpp]: [CLLMQUtils] (membership cache,
      connection planner, watch connections, probe connections);
    - [llmq/quorums_dkgsessionhandler.h]: [QuorumPhase],
      [CDKGPendingMessages], [CDKGSessionHandler] (declarations).

    Conventions.  A [uint256] is a [Z]; the encoding is the one under which
    the C++ [operator<] on [uint256] is [Z.lt].  [uint8_t], [int], [size_t]
    and [int64_t] values are [Z] as well, with the wrap-around of [int],
    [size_t] and [int64_t] written out where the code computes on it.  A [std::set] is a [gset], a
    [std::map] a [gmap], a [std::vector] a [list]. *)

From Stdlib Require Import ZArith Lia Strings.Byte.
From stdpp Require Import base option list gmap strings.

Local Open Scope Z_scope.

(** ** Machine integers *)

Definition INT_MAX : Z := 2147483647.

(** [(int)x]: reduction into the two's complement range of a 32-bit [int]. *)
Definition to_int (x : Z) : Z := (x + 2 ^ 31) mod 2 ^ 32 - 2 ^ 31.

(** [(size_t)x]: reduction modulo [2^64]. *)
Definition to_size_t (x : Z) : Z := x mod 2 ^ 64.

(** [(int64_t)x]: reduction into the two's complement range of a 64-bit
    integer, for the result of an [int64_t] operation. *)
Definition to_int64 (x : Z) : Z := (x + 2 ^ 63) mod 2 ^ 64 - 2 ^ 63.

(** ** Data model *)

Abbreviation uint256 := Z (only parsing).

(** [CDeterministicMN]: only the registration hash is read by the code
    embedded here; [internalId] stands for the rest of the entry. *)
Record CDeterministicMN := {
  proTxHash : uint256;
  internalId : Z;
}.

#[global] Instance CDeterministicMN_eq_dec : EqDecision CDeterministicMN.
Proof. solve_decision. Defined.

(** [CBlockIndex]: a handle to a block. *)
Record CBlockIndex := {
  GetBlockHash : uint256;
  nHeight : Z;
}.

(** [Consensus::LLMQParams], with the fields of the initialiser in
    [GetLLMQParams]. *)
Module Consensus.

Record LLMQParams := {
  type : Z;
  name : string;
  size : Z;
  minSize : Z;
  threshold : Z;
  dkgInterval : Z;
  dkgPhaseBlocks : Z;
  dkgMiningWindowStart : Z;
  dkgMiningWindowEnd : Z;
  dkgBadVotesThreshold : Z;
  signingActiveQuorumCount : Z;
  keepOldConnections : Z;
  recoveryMembers : Z;
}.

End Consensus.

(** ** The membership cache *)

Module lru.

(** Modelled from the spec: [unordered_lru_cache], whose header is not
    among the sources.  "Cache the result under (type_id, base_block_hash);
    evict oldest when cache exceeds a fixed bound per type"; "bounded LRU".
    The entries are kept most recently used first. *)
Record t (V : Type) := Build {
  cacheMap : list (uint256 * V);
  maxSize : nat;
}.
Arguments Build {V}.
Arguments cacheMap {V}.
Arguments maxSize {V}.

Definition empty {V} (bound : nat) : t V := Build [] bound.

Fixpoint find {V} (k : uint256) (l : list (uint256 * V)) : option V :=
  match l with
  | [] => None
  | (k', v) :: l' => if decide (k' = k) then Some v else find k l'
  end.

Definition remove {V} (k : uint256) (l : list (uint256 * V)) : list (uint256 * V) :=
  filter (λ e, e.1 ≠ k) l.

(** Modelled from the spec: [unordered_lru_cache::get].  On a hit the value
    is returned and the entry becomes the most recently used one. *)
Definition get {V} (k : uint256) (c : t V) : option V * t V :=
  match find k (cacheMap c) with
  | Some v => (Some v, Build ((k, v) :: remove k (cacheMap c)) (maxSize c))
  | None => (None, c)
  end.

(** Modelled from the spec: [unordered_lru_cache::insert].  The entry
    becomes the most recently used one; the oldest entries beyond the bound
    are evicted. *)
Definition insert {V} (k : uint256) (v : V) (c : t V) : t V :=
  Build (take (maxSize c) ((k, v) :: remove k (cacheMap c))) (maxSize c).

End lru.

(** [CMasternodeMetaInfo] *)
Record CMasternodeMetaInfo := {
  lastOutboundAttempt : Z;
  lastOutboundSuccess : Z;
}.

(** ** Collaborators

    What the embedded code calls and the sources only declare: the hash of
    a serialised tuple, the registry snapshot, the quorum selection, the
    process random source and the constants of [Consensus::LLMQType]. *)
Class Externals := {
  (** [deterministicMNManager->GetListForBlock]: the registry snapshot at a
      block, a function of the block (named by its hash). *)
  CDeterministicMNList : Type;
  GetListForBlock : uint256 → CDeterministicMNList;
  (** [CDeterministicMNList::CalculateQuorum(maxSize, modifier)], a [const]
      member declared in [evo/deterministicmns.h]. *)
  CalculateQuorum : CDeterministicMNList → Z → uint256 → list CDeterministicMN;
  (** [::SerializeHash(std::make_pair(llmqType, blockHash))] *)
  SerializeHash_pair : Z → uint256 → uint256;
  (** [::SerializeHash(std::make_tuple(a, b, c))] *)
  SerializeHash_tuple : uint256 → uint256 → uint256 → uint256;
  (** [::SerializeHash(std::make_pair(rnd, std::make_pair(llmqType, blockHash)))] *)
  SerializeHash_nested : uint256 → Z → uint256 → uint256;
  (** [uint256::GetUint64(0)], a [uint64_t] *)
  GetUint64 : uint256 → N;
  (** [GetRandHash()]: the n-th draw of the process random source. *)
  GetRandHash : nat → uint256;
  LLMQ_400_60 : Z;
  LLMQ_400_85 : Z;
  LLMQ_TEST : Z;
  (** [Params().GetConsensus().llmqs]: the parameters of each quorum type *)
  consensus_llmqs : gmap Z Consensus.LLMQParams;
  (** the bound of the member cache of a quorum type *)
  quorums_cache_bound : Z → nat;
  (** the constructor [CMasternodeMetaInfo(proTxHash)] *)
  CMasternodeMetaInfo_new : uint256 → CMasternodeMetaInfo;
}.

(** ** Process state *)

(** [CConnman]: what the planner declares to the connection manager. *)
Record CConnman := {
  masternodeQuorumNodes : gmap (Z * uint256) (gset uint256);
  masternodeQuorumRelayMembers : gmap (Z * uint256) (gset uint256);
  masternodePendingProbes : gset uint256;
}.

(** Modelled from the spec: [CConnman::SetMasternodeQuorumNodes], of the
    absent [net.cpp].  "Outputs are handed to the external connection
    manager as declarative sets keyed by (quorum_type, base_block_hash)":
    [declare_quorum_nodes(type, base_block_hash, set<member_id>)]. *)
Definition SetMasternodeQuorumNodes (llmqType : Z) (quorumHash : uint256)
    (proTxHashes : gset uint256) (c : CConnman) : CConnman :=
  {| masternodeQuorumNodes := <[(llmqType, quorumHash) := proTxHashes]> (masternodeQuorumNodes c);
     masternodeQuorumRelayMembers := masternodeQuorumRelayMembers c;
     masternodePendingProbes := masternodePendingProbes c |}.

(** Modelled from the spec: [CConnman::SetMasternodeQuorumRelayMembers], of
    the absent [net.cpp]: [declare_relay_members(type, base_block_hash,
    set<member_id>)]. *)
Definition SetMasternodeQuorumRelayMembers (llmqType : Z) (quorumHash : uint256)
    (proTxHashes : gset uint256) (c : CConnman) : CConnman :=
  {| masternodeQuorumNodes := masternodeQuorumNodes c;
     masternodeQuorumRelayMembers :=
       <[(llmqType, quorumHash) := proTxHashes]> (masternodeQuorumRelayMembers c);
     masternodePendingProbes := masternodePendingProbes c |}.

(** Modelled from the spec: [CConnman::AddPendingProbeConnections], of the
    absent [net.cpp]: [add_pending_probes(set<member_id>)]. *)
Definition AddPendingProbeConnections (proTxHashes : gset uint256) (c : CConnman) : CConnman :=
  {| masternodeQuorumNodes := masternodeQuorumNodes c;
     masternodeQuorumRelayMembers := masternodeQuorumRelayMembers c;
     masternodePendingProbes := proTxHashes ∪ masternodePendingProbes c |}.

(** The statics of [quorums_utils.cpp], the globals it reads and the
    collaborators it writes to. *)
Record World := {
  (** [static ... mapQuorumMembers] of [GetAllQuorumMembers] *)
  mapQuorumMembers : gmap Z (lru.t (list CDeterministicMN));
  (** statics of [CalcDeterministicWatchConnections] *)
  qwatchConnectionSeed : uint256;
  qwatchConnectionSeedGenerated : bool;
  (** number of draws made from the random source *)
  randDraws : nat;
  (** [sporkManager.GetSporkValue] of the two sporks *)
  SPORK_21_QUORUM_ALL_CONNECTED : Z;
  SPORK_23_QUORUM_POSE : Z;
  (** [GetAdjustedTime()], in seconds *)
  adjustedTime : Z;
  (** [static bool fIsWatchQuroumsEnabled] *)
  fIsWatchQuroumsEnabled : bool;
  connman : CConnman;
  (** [mmetaman.metaInfos] *)
  metaInfos : gmap uint256 CMasternodeMetaInfo;
}.

Definition with_mapQuorumMembers (m : gmap Z (lru.t (list CDeterministicMN))) (w : World) : World :=
  {| mapQuorumMembers := m;
     qwatchConnectionSeed := qwatchConnectionSeed w;
     qwatchConnectionSeedGenerated := qwatchConnectionSeedGenerated w;
     randDraws := randDraws w;
     SPORK_21_QUORUM_ALL_CONNECTED := SPORK_21_QUORUM_ALL_CONNECTED w;
     SPORK_23_QUORUM_POSE := SPORK_23_QUORUM_POSE w;
     adjustedTime := adjustedTime w;
     fIsWatchQuroumsEnabled := fIsWatchQuroumsEnabled w;
     connman := connman w;
     metaInfos := metaInfos w |}.

Definition with_seed (seed : uint256) (w : World) : World :=
  {| mapQuorumMembers := mapQuorumMembers w;
     qwatchConnectionSeed := seed;
     qwatchConnectionSeedGenerated := true;
     randDraws := S (randDraws w);
     SPORK_21_QUORUM_ALL_CONNECTED := SPORK_21_QUORUM_ALL_CONNECTED w;
     SPORK_23_QUORUM_POSE := SPORK_23_QUORUM_POSE w;
     adjustedTime := adjustedTime w;
     fIsWatchQuroumsEnabled := fIsWatchQuroumsEnabled w;
     connman := connman w;
     metaInfos := metaInfos w |}.

Definition with_connman (c : CConnman) (w : World) : World :=
  {| mapQuorumMembers := mapQuorumMembers w;
     qwatchConnectionSeed := qwatchConnectionSeed w;
     qwatchConnectionSeedGenerated := qwatchConnectionSeedGenerated w;
     randDraws := randDraws w;
     SPORK_21_QUORUM_ALL_CONNECTED := SPORK_21_QUORUM_ALL_CONNECTED w;
     SPORK_23_QUORUM_POSE := SPORK_23_QUORUM_POSE w;
     adjustedTime := adjustedTime w;
     fIsWatchQuroumsEnabled := fIsWatchQuroumsEnabled w;
     connman := c;
     metaInfos := metaInfos w |}.

Definition with_metaInfos (m : gmap uint256 CMasternodeMetaInfo) (w : World) : World :=
  {| mapQuorumMembers := mapQuorumMembers w;
     qwatchConnectionSeed := qwatchConnectionSeed w;
     qwatchConnectionSeedGenerated := qwatchConnectionSeedGenerated w;
     randDraws := randDraws w;
     SPORK_21_QUORUM_ALL_CONNECTED := SPORK_21_QUORUM_ALL_CONNECTED w;
     SPORK_23_QUORUM_POSE := SPORK_23_QUORUM_POSE w;
     adjustedTime := adjustedTime w;
     fIsWatchQuroumsEnabled := fIsWatchQuroumsEnabled w;
     connman := connman w;
     metaInfos := m |}.

(** ** A state monad with failure

    [None] is a run that does not return: undefined behaviour (a division
    by zero, an index out of range) or a loop that exhausts its fuel. *)
Definition M (A : Type) : Type := World → option (A * World).

Definition ret {A} (a : A) : M A := λ w, Some (a, w).
Definition bind {A B} (m : M A) (f : A → M B) : M B :=
  λ w, match m w with Some (a, w') => f a w' | None => None end.
Definition fail {A} : M A := λ _, None.
Definition gets {A} (f : World → A) : M A := λ w, Some (f w, w).
Definition modify (f : World → World) : M unit := λ w, Some (tt, f w).
Definition lift {A} (o : option A) : M A :=
  λ w, match o with Some a => Some (a, w) | None => None end.

Declare Scope cpp_scope.
Delimit Scope cpp_scope with cpp.
Notation "'let*' x ':=' m 'in' k" := (bind m (λ x, k))
  (at level 10, x name, m at level 100, k at level 200) : cpp_scope.
Notation "m ';;' k" := (bind m (λ _, k))
  (at level 100, k at level 200, right associativity) : cpp_scope.

Section CLLMQUtils.

Context `{Externals}.

Local Open Scope cpp_scope.

(** ** [GetLLMQParams] *)

Definition llmq_test : Consensus.LLMQParams :=
  {| Consensus.type := LLMQ_TEST;
     Consensus.name := "llmq_test";
     Consensus.size := 3;
     Consensus.minSize := 2;
     Consensus.threshold := 2;
     Consensus.dkgInterval := 24;
     Consensus.dkgPhaseBlocks := 2;
     Consensus.dkgMiningWindowStart := 10;
     Consensus.dkgMiningWindowEnd := 18;
     Consensus.dkgBadVotesThreshold := 2;
     Consensus.signingActiveQuorumCount := 4;
     Consensus.keepOldConnections := 5;
     Consensus.recoveryMembers := 3 |}.

Definition GetLLMQParams (llmqType : Z) : Consensus.LLMQParams :=
  match consensus_llmqs !! llmqType with
  | None => llmq_test
  | Some params => params
  end.

(** ** [GetAllQuorumMembers] *)

(** Modelled from the spec: [InitQuorumsCache] (a template of the absent
    [quorums_utils.h]): one empty cache per quorum type, each with its
    fixed bound. *)
Definition InitQuorumsCache : gmap Z (lru.t (list CDeterministicMN)) :=
  map_imap (λ t _, Some (lru.empty (quorums_cache_bound t))) consensus_llmqs.

(** [cache[type]]: [std::map::operator[]] default-constructs a missing
    entry. *)
Definition cache_at (llmqType : Z) (m : gmap Z (lru.t (list CDeterministicMN)))
    : lru.t (list CDeterministicMN) :=
  default (lru.empty (quorums_cache_bound llmqType)) (m !! llmqType).

Definition GetAllQuorumMembers (llmqParams : Consensus.LLMQParams)
    (pQuorumBaseBlockIndex : CBlockIndex) : M (list CDeterministicMN) :=
  let* m0 := gets mapQuorumMembers in
  let m1 := if decide (map_size m0 = 0%nat) then InitQuorumsCache else m0 in
  let c := cache_at (Consensus.type llmqParams) m1 in
  match lru.get (GetBlockHash pQuorumBaseBlockIndex) c with
  | (Some quorumMembers, c') =>
      modify (with_mapQuorumMembers (<[Consensus.type llmqParams := c']> m1));;
      ret quorumMembers
  | (None, _) =>
      let allMns := GetListForBlock (GetBlockHash pQuorumBaseBlockIndex) in
      let modifier :=
        SerializeHash_pair (Consensus.type llmqParams) (GetBlockHash pQuorumBaseBlockIndex) in
      let quorumMembers := CalculateQuorum allMns (Consensus.size llmqParams) modifier in
      modify (with_mapQuorumMembers
        (<[Consensus.type llmqParams :=
             lru.insert (GetBlockHash pQuorumBaseBlockIndex) quorumMembers c]> m1));;
      ret quorumMembers
  end.

(** ** Sporks *)

Definition EvalSpork (llmqType : Z) (spork_value : Z) : bool :=
  if decide (spork_value = 0) then true
  else if decide (spork_value = 1 ∧ llmqType ≠ LLMQ_400_60 ∧ llmqType ≠ LLMQ_400_85) then true
  else false.

Definition IsAllMembersConnectedEnabled (llmqType : Z) : M bool :=
  let* v := gets SPORK_21_QUORUM_ALL_CONNECTED in ret (EvalSpork llmqType v).

Definition IsQuorumPoseEnabled (llmqType : Z) : M bool :=
  let* v := gets SPORK_23_QUORUM_POSE in ret (EvalSpork llmqType v).

Definition IsWatchQuorumsEnabled : M bool := gets fIsWatchQuroumsEnabled.

(** ** The connection planner *)

Definition DeterministicOutboundConnection (proTxHash1 proTxHash2 : uint256) : uint256 :=
  let '(h1, h2) :=
    if decide (proTxHash1 < proTxHash2)
    then (SerializeHash_tuple proTxHash1 proTxHash2 proTxHash1,
          SerializeHash_tuple proTxHash1 proTxHash2 proTxHash2)
    else (SerializeHash_tuple proTxHash2 proTxHash1 proTxHash1,
          SerializeHash_tuple proTxHash2 proTxHash1 proTxHash2) in
  if decide (h1 < h2) then proTxHash1 else proTxHash2.

(** The [while] loop of the lambda [calcOutbound]; [gap], [gap_max] and [k]
    are [int]s.  The condition shifts [gap_max] before it tests it, in every
    round. *)
Fixpoint calcOutbound_loop (fuel : nat) (mns : list CDeterministicMN) (i : Z)
    (forHash : uint256) (gap gap_max k : Z) (r : gset uint256) : option (gset uint256) :=
  match fuel with
  | O => None
  | S fuel' =>
      let gap_max := Z.shiftr gap_max 1 in
      if bool_decide (gap_max ≠ 0) || bool_decide (k ≤ 1) then
        if decide (length mns = 0%nat) then None else
        let idx := to_size_t (i + gap) mod Z.of_nat (length mns) in
        match mns !! Z.to_nat idx with
        | None => None
        | Some otherDmn =>
            if decide (proTxHash otherDmn = forHash) then
              calcOutbound_loop fuel' mns i forHash
                (to_int (Z.shiftl gap 1)) gap_max (to_int (k + 1)) r
            else
              calcOutbound_loop fuel' mns i forHash
                (to_int (Z.shiftl gap 1)) gap_max (to_int (k + 1))
                ({[proTxHash otherDmn]} ∪ r)
        end
      else Some r
  end.

Definition calcOutbound (fuel : nat) (mns : list CDeterministicMN) (i : Z)
    (forHash : uint256) : option (gset uint256) :=
  calcOutbound_loop fuel mns i forHash 1 (to_int (to_int (Z.of_nat (length mns)) - 1)) 0 ∅.

(** The [for] loop of [GetQuorumRelayMembers] from index [i] on, over the
    remaining members [rest]. *)
Fixpoint GetQuorumRelayMembers_for (fuel : nat) (mns : list CDeterministicMN)
    (forMember : uint256) (onlyOutbound : bool) (rest : list CDeterministicMN) (i : Z)
    (result : gset uint256) : option (gset uint256) :=
  match rest with
  | [] => Some result
  | dmn :: rest' =>
      if decide (proTxHash dmn = forMember) then
        match calcOutbound fuel mns i (proTxHash dmn) with
        | None => None
        | Some r =>
            GetQuorumRelayMembers_for fuel mns forMember onlyOutbound rest' (i + 1) (r ∪ result)
        end
      else if negb onlyOutbound then
        match calcOutbound fuel mns i (proTxHash dmn) with
        | None => None
        | Some r =>
            GetQuorumRelayMembers_for fuel mns forMember onlyOutbound rest' (i + 1)
              (if decide (forMember ∈ r) then {[proTxHash dmn]} ∪ result else result)
        end
      else GetQuorumRelayMembers_for fuel mns forMember onlyOutbound rest' (i + 1) result
  end.

Definition GetQuorumRelayMembers (fuel : nat) (llmqParams : Consensus.LLMQParams)
    (pQuorumBaseBlockIndex : CBlockIndex) (forMember : uint256) (onlyOutbound : bool)
    : M (gset uint256) :=
  let* mns := GetAllQuorumMembers llmqParams pQuorumBaseBlockIndex in
  lift (GetQuorumRelayMembers_for fuel mns forMember onlyOutbound mns 0 ∅).

(** The [for] loop of the all-connected branch of [GetQuorumConnections]:
    one round, and the loop. *)
Definition GetQuorumConnections_body (forMember : uint256) (onlyOutbound : bool)
    (result : gset uint256) (dmn : CDeterministicMN) : gset uint256 :=
  if decide (proTxHash dmn = forMember) then result
  else
    let deterministicOutbound := DeterministicOutboundConnection forMember (proTxHash dmn) in
    if negb onlyOutbound || bool_decide (deterministicOutbound = proTxHash dmn)
    then {[proTxHash dmn]} ∪ result else result.

Definition GetQuorumConnections_for (forMember : uint256) (onlyOutbound : bool)
    (mns : list CDeterministicMN) : gset uint256 :=
  foldl (GetQuorumConnections_body forMember onlyOutbound) ∅ mns.

Definition GetQuorumConnections (fuel : nat) (llmqParams : Consensus.LLMQParams)
    (pQuorumBaseBlockIndex : CBlockIndex) (forMember : uint256) (onlyOutbound : bool)
    : M (gset uint256) :=
  let* allConnected := IsAllMembersConnectedEnabled (Consensus.type llmqParams) in
  if allConnected : bool then
    let* mns := GetAllQuorumMembers llmqParams pQuorumBaseBlockIndex in
    ret (GetQuorumConnections_for forMember onlyOutbound mns)
  else GetQuorumRelayMembers fuel llmqParams pQuorumBaseBlockIndex forMember onlyOutbound.

(** [CalcDeterministicWatchConnections]: the [for] loop; [rnd % 0] is
    undefined. *)
Fixpoint CalcDeterministicWatchConnections_for (connectionCount : nat) (llmqType : Z)
    (blockHash : uint256) (memberCount : Z) (rnd : uint256) (result : gset Z)
    : option (gset Z) :=
  match connectionCount with
  | O => Some result
  | S n =>
      let rnd := SerializeHash_nested rnd llmqType blockHash in
      if decide (memberCount = 0) then None
      else CalcDeterministicWatchConnections_for n llmqType blockHash memberCount rnd
             ({[Z.of_N (GetUint64 rnd) mod memberCount]} ∪ result)
  end.

Definition CalcDeterministicWatchConnections (llmqType : Z)
    (pQuorumBaseBlockIndex : CBlockIndex) (memberCount connectionCount : Z) : M (gset Z) :=
  let* generated := gets qwatchConnectionSeedGenerated in
  (if generated : bool then ret tt
   else let* n := gets randDraws in modify (with_seed (GetRandHash n)));;
  let* rnd := gets qwatchConnectionSeed in
  lift (CalcDeterministicWatchConnections_for (Z.to_nat connectionCount) llmqType
          (GetBlockHash pQuorumBaseBlockIndex) memberCount rnd ∅).

(** [for (auto idx : cindexes) connections.emplace(members[idx]->proTxHash)];
    an index past the end of [members] is undefined. *)
Fixpoint members_at (members : list CDeterministicMN) (cindexes : list Z)
    (connections : gset uint256) : option (gset uint256) :=
  match cindexes with
  | [] => Some connections
  | idx :: rest =>
      match members !! Z.to_nat idx with
      | None => None
      | Some dmn => members_at members rest ({[proTxHash dmn]} ∪ connections)
      end
  end.

Definition EnsureQuorumConnections (fuel : nat) (llmqParams : Consensus.LLMQParams)
    (pQuorumBaseBlockIndex : CBlockIndex) (myProTxHash : uint256) : M bool :=
  let* members := GetAllQuorumMembers llmqParams pQuorumBaseBlockIndex in
  let isMember := existsb (λ dmn, bool_decide (proTxHash dmn = myProTxHash)) members in
  let* watch := IsWatchQuorumsEnabled in
  if negb isMember && negb watch then ret false
  else
    let* cr :=
      (if isMember then
         let* connections :=
           GetQuorumConnections fuel llmqParams pQuorumBaseBlockIndex myProTxHash true in
         let* relayMembers :=
           GetQuorumRelayMembers fuel llmqParams pQuorumBaseBlockIndex myProTxHash true in
         ret (connections, relayMembers)
       else
         let* cindexes :=
           CalcDeterministicWatchConnections (Consensus.type llmqParams) pQuorumBaseBlockIndex
             (Z.of_nat (length members)) 1 in
         let* connections := lift (members_at members (elements cindexes) ∅) in
         ret (connections, connections)) in
    let connections := cr.1 in
    let relayMembers := cr.2 in
    (if decide (connections = ∅) then ret tt
     else
       let* c := gets connman in
       modify (with_connman (SetMasternodeQuorumNodes (Consensus.type llmqParams)
                 (GetBlockHash pQuorumBaseBlockIndex) connections c)));;
    (if decide (relayMembers = ∅) then ret tt
     else
       let* c := gets connman in
       modify (with_connman (SetMasternodeQuorumRelayMembers (Consensus.type llmqParams)
                 (GetBlockHash pQuorumBaseBlockIndex) relayMembers c)));;
    ret true.

(** ** Probe connections *)

(** [CMasternodeMetaMan::GetMetaInfo]; the result is a pointer, [None]
    being [nullptr]. *)
Definition GetMetaInfo (hash : uint256) (fCreate : bool) : M (option CMasternodeMetaInfo) :=
  let* infos := gets metaInfos in
  match infos !! hash with
  | Some info => ret (Some info)
  | None =>
      if fCreate then
        modify (with_metaInfos (<[hash := CMasternodeMetaInfo_new hash]> infos));;
        ret (Some (CMasternodeMetaInfo_new hash))
      else ret None
  end.

Definition GetLastOutboundSuccess (info : CMasternodeMetaInfo) : Z := lastOutboundSuccess info.

(** The [for] loop of [AddQuorumProbeConnections].  [GetMetaInfo] is called
    with its default [fCreate = true]; a null result would be dereferenced.
    The times are [int64_t] seconds, and so is their difference. *)
Fixpoint AddQuorumProbeConnections_for (members : list CDeterministicMN)
    (myProTxHash : uint256) (curTime : Z) (probeConnections : gset uint256)
    : M (gset uint256) :=
  match members with
  | [] => ret probeConnections
  | dmn :: rest =>
      if decide (proTxHash dmn = myProTxHash) then
        AddQuorumProbeConnections_for rest myProTxHash curTime probeConnections
      else
        let* info := GetMetaInfo (proTxHash dmn) true in
        match info with
        | None => fail
        | Some info =>
            let lastOutbound := GetLastOutboundSuccess info in
            if decide (to_int64 (curTime - lastOutbound) > 10 * 60) then
              AddQuorumProbeConnections_for rest myProTxHash curTime
                ({[proTxHash dmn]} ∪ probeConnections)
            else AddQuorumProbeConnections_for rest myProTxHash curTime probeConnections
        end
  end.

Definition AddQuorumProbeConnections (llmqParams : Consensus.LLMQParams)
    (pQuorumBaseBlockIndex : CBlockIndex) (myProTxHash : uint256) : M unit :=
  let* pose := IsQuorumPoseEnabled (Consensus.type llmqParams) in
  if negb pose then ret tt
  else
    let* members := GetAllQuorumMembers llmqParams pQuorumBaseBlockIndex in
    let* curTime := gets adjustedTime in
    let* probeConnections := AddQuorumProbeConnections_for members myProTxHash curTime ∅ in
    if decide (probeConnections = ∅) then ret tt
    else
      let* c := gets connman in
      modify (with_connman (AddPendingProbeConnections probeConnections c)).

End CLLMQUtils.

(** ** [CDKGPendingMessages]

    The class is declared in [quorums_dkgsessionhandler.h]: the four fields
    below and the signatures of the methods.  The bodies of the methods are
    defined in a file that is not among the sources. *)

Definition NodeId := Z.

Definition BinaryMessage : Type := NodeId * list Byte.byte.

Record CDKGPendingMessages := {
  maxMessagesPerNode : nat;
  pendingMessages : list BinaryMessage;
  messagesPerNode : gmap NodeId nat;
  seenMessages : gset uint256;
}.

Section PendingMessages.

(** The digest of the raw bytes of a message. *)
Variable Hash : list Byte.byte → uint256.

(** The constructor: an empty buffer with the given cap. *)
Definition CDKGPendingMessages_new (_maxMessagesPerNode : nat) : CDKGPendingMessages :=
  {| maxMessagesPerNode := _maxMessagesPerNode;
     pendingMessages := [];
     messagesPerNode := ∅;
     seenMessages := ∅ |}.

Definition per_peer_count (b : CDKGPendingMessages) (peer : NodeId) : nat :=
  default 0%nat (messagesPerNode b !! peer).

(** Modelled from the spec: the body of [PushPendingMessage].  "Reject
    (silently discard) if per_peer_count[peer_id] ≥ max_per_peer.  Compute
    h = H(bytes); reject if h ∈ seen_hashes.  Append (peer_id, bytes);
    increment counter; insert h." *)
Definition PushPendingMessage (from : NodeId) (vRecv : list Byte.byte)
    (b : CDKGPendingMessages) : CDKGPendingMessages :=
  if decide (maxMessagesPerNode b ≤ per_peer_count b from)%nat then b
  else
    let h := Hash vRecv in
    if decide (h ∈ seenMessages b) then b
    else
      {| maxMessagesPerNode := maxMessagesPerNode b;
         pendingMessages := pendingMessages b ++ [(from, vRecv)];
         messagesPerNode := <[from := S (per_peer_count b from)]> (messagesPerNode b);
         seenMessages := {[h]} ∪ seenMessages b |}.

(** A push is admitted when it passes both tests. *)
Definition push_accepted (from : NodeId) (vRecv : list Byte.byte) (b : CDKGPendingMessages) : Prop :=
  (per_peer_count b from < maxMessagesPerNode b)%nat ∧ Hash vRecv ∉ seenMessages b.

Definition decrement (counts : gmap NodeId nat) (m : BinaryMessage) : gmap NodeId nat :=
  alter Nat.pred m.1 counts.

(** Modelled from the spec: the body of [PopPendingMessages].  "pop(n) → up
    to n items in FIFO order; decrements counters accordingly but does not
    remove entries from seen_hashes." *)
Definition PopPendingMessages (maxCount : nat) (b : CDKGPendingMessages)
    : list BinaryMessage * CDKGPendingMessages :=
  let ret := take maxCount (pendingMessages b) in
  (ret,
   {| maxMessagesPerNode := maxMessagesPerNode b;
      pendingMessages := drop maxCount (pendingMessages b);
      messagesPerNode := foldl decrement (messagesPerNode b) ret;
      seenMessages := seenMessages b |}).

(** Modelled from the spec: the body of [HasSeen]. *)
Definition HasSeen (hash : uint256) (b : CDKGPendingMessages) : bool :=
  bool_decide (hash ∈ seenMessages b).

(** Modelled from the spec: the body of [Clear].  "clear(): empties queue,
    counters, and seen set." *)
Definition Clear (b : CDKGPendingMessages) : CDKGPendingMessages :=
  {| maxMessagesPerNode := maxMessagesPerNode b;
     pendingMessages := [];
     messagesPerNode := ∅;
     seenMessages := ∅ |}.

(** The calls a buffer receives. *)
Inductive call :=
  | CallPush (from : NodeId) (vRecv : list Byte.byte)
  | CallPop (maxCount : nat)
  | CallClear.

Definition run_call (b : CDKGPendingMessages) (c : call) : CDKGPendingMessages :=
  match c with
  | CallPush from vRecv => PushPendingMessage from vRecv b
  | CallPop maxCount => (PopPendingMessages maxCount b).2
  | CallClear => Clear b
  end.

Definition run_calls (b : CDKGPendingMessages) (cs : list call) : CDKGPendingMessages :=
  foldl run_call b cs.

Definition is_clear (c : call) : bool :=
  match c with CallClear => true | _ => false end.

End PendingMessages.

(** ** [CDKGSessionHandler]: the phase scheduler *)

(** [enum QuorumPhase], with the values the enumerators have. *)
Inductive QuorumPhase :=
  | QuorumPhase_None
  | QuorumPhase_Initialized
  | QuorumPhase_Contribute
  | QuorumPhase_Complain
  | QuorumPhase_Justify
  | QuorumPhase_Commit
  | QuorumPhase_Finalize
  | QuorumPhase_Idle.

#[global] Instance QuorumPhase_eq_dec : EqDecision QuorumPhase.
Proof. solve_decision. Defined.

Definition QuorumPhase_value (p : QuorumPhase) : Z :=
  match p with
  | QuorumPhase_None => -1
  | QuorumPhase_Initialized => 1
  | QuorumPhase_Contribute => 2
  | QuorumPhase_Complain => 3
  | QuorumPhase_Justify => 4
  | QuorumPhase_Commit => 5
  | QuorumPhase_Finalize => 6
  | QuorumPhase_Idle => 7
  end.

(** Modelled from the spec: [CDKGSession], of which the scheduler only
    creates and destroys instances ("my_member_index (or absent if this
    node is not a member)", "finalized: boolean"). *)
Record CDKGSession := {
  my_member_index : option Z;
  finalized : bool;
}.

(** The fields of [CDKGSessionHandler] that the scheduler steps on. *)
Record CDKGSessionHandler := {
  phase : QuorumPhase;
  currentHeight : Z;
  quorumHash : uint256;
  curSession : option CDKGSession;
  pendingContributions : CDKGPendingMessages;
  pendingComplaints : CDKGPendingMessages;
  pendingJustifications : CDKGPendingMessages;
  pendingPrematureCommitments : CDKGPendingMessages;
}.

(** The member initialisers of the class: [phase {QuorumPhase_Idle}],
    [currentHeight {-1}], a null [quorumHash]; the cap of the buffers is a
    constructor argument. *)
Definition CDKGSessionHandler_new (maxMessagesPerNode : nat) : CDKGSessionHandler :=
  {| phase := QuorumPhase_Idle;
     currentHeight := -1;
     quorumHash := 0;
     curSession := None;
     pendingContributions := CDKGPendingMessages_new maxMessagesPerNode;
     pendingComplaints := CDKGPendingMessages_new maxMessagesPerNode;
     pendingJustifications := CDKGPendingMessages_new maxMessagesPerNode;
     pendingPrematureCommitments := CDKGPendingMessages_new maxMessagesPerNode |}.

(** The phase that follows a phase in the order of the scheduler loop. *)
Definition QuorumPhase_next (p : QuorumPhase) : QuorumPhase :=
  match p with
  | QuorumPhase_None => QuorumPhase_None
  | QuorumPhase_Idle => QuorumPhase_Initialized
  | QuorumPhase_Initialized => QuorumPhase_Contribute
  | QuorumPhase_Contribute => QuorumPhase_Complain
  | QuorumPhase_Complain => QuorumPhase_Justify
  | QuorumPhase_Justify => QuorumPhase_Commit
  | QuorumPhase_Commit => QuorumPhase_Finalize
  | QuorumPhase_Finalize => QuorumPhase_Idle
  end.

(** The number [k] of a phase in "phase k is scheduled to run between block
    heights H_base + (k-1)·dkg_phase_blocks and H_base + k·dkg_phase_blocks";
    the phase is left when the tip reaches the upper end. *)
Definition phase_number (p : QuorumPhase) : option Z :=
  match p with
  | QuorumPhase_Initialized => Some 0
  | QuorumPhase_Contribute => Some 1
  | QuorumPhase_Complain => Some 2
  | QuorumPhase_Justify => Some 3
  | QuorumPhase_Commit => Some 4
  | _ => None
  end.

Definition set_round (p : QuorumPhase) (height : Z) (hash : uint256)
    (session : option CDKGSession) (h : CDKGSessionHandler) : CDKGSessionHandler :=
  {| phase := p;
     currentHeight := height;
     quorumHash := hash;
     curSession := session;
     pendingContributions := Clear (pendingContributions h);
     pendingComplaints := Clear (pendingComplaints h);
     pendingJustifications := Clear (pendingJustifications h);
     pendingPrematureCommitments := Clear (pendingPrematureCommitments h) |}.

Definition set_phase (p : QuorumPhase) (height : Z) (h : CDKGSessionHandler)
    : CDKGSessionHandler :=
  {| phase := p;
     currentHeight := height;
     quorumHash := quorumHash h;
     curSession := curSession h;
     pendingContributions := pendingContributions h;
     pendingComplaints := pendingComplaints h;
     pendingJustifications := pendingJustifications h;
     pendingPrematureCommitments := pendingPrematureCommitments h |}.

(** What the scheduler observes of the chain at a wake-up: the height of the
    tip and the hash of the base block of the tip, the ancestor at
    [H_tip − (H_tip mod dkg_interval)]. *)
Record tip := {
  H_tip : Z;
  base_block_hash : uint256;
}.

Definition H_base (params : Consensus.LLMQParams) (t : tip) : Z :=
  H_tip t - H_tip t mod Consensus.dkgInterval params.

(** Modelled from the spec: the scheduler loop of the handler
    ([UpdatedBlockTip], [HandleDKGRound], [WaitForNextPhase],
    [WaitForNewQuorum], whose bodies are not among the sources), one
    constructor per transition of section 4.5:
    - wait-for-new-quorum and [InitNewQuorum]: "block until H_tip mod
      dkg_interval == 0 and the base-block hash changed since the last
      round"; "if too few members or the local node is not interested,
      return to idle; otherwise construct the session";
    - wait-for-next-phase: "block until H_tip ≥ H_base + k·dkg_phase_blocks";
    - finalize: "clear buffers, destroy session, return to idle";
    - Invariant C: on a base block with a different hash "the scheduler
      aborts the session, clears buffers, and re-enters
      wait-for-new-quorum";
    - a new tip that triggers none of these only updates the height. *)
Inductive scheduler_step (params : Consensus.LLMQParams)
    : CDKGSessionHandler → CDKGSessionHandler → Prop :=
  | step_InitNewQuorum h t session :
      phase h = QuorumPhase_Idle →
      H_tip t mod Consensus.dkgInterval params = 0 →
      base_block_hash t ≠ quorumHash h →
      scheduler_step params h
        (set_round QuorumPhase_Initialized (H_tip t) (base_block_hash t) (Some session) h)
  | step_InitNewQuorum_fails h t :
      phase h = QuorumPhase_Idle →
      H_tip t mod Consensus.dkgInterval params = 0 →
      base_block_hash t ≠ quorumHash h →
      scheduler_step params h
        (set_round QuorumPhase_Idle (H_tip t) (base_block_hash t) None h)
  | step_WaitForNextPhase h t k :
      phase_number (phase h) = Some k →
      base_block_hash t = quorumHash h →
      H_base params t + k * Consensus.dkgPhaseBlocks params ≤ H_tip t →
      scheduler_step params h (set_phase (QuorumPhase_next (phase h)) (H_tip t) h)
  | step_Finalize h :
      phase h = QuorumPhase_Finalize →
      scheduler_step params h
        (set_round QuorumPhase_Idle (currentHeight h) (quorumHash h) None h)
  | step_abort h t :
      phase h ≠ QuorumPhase_Idle →
      base_block_hash t ≠ quorumHash h →
      scheduler_step params h
        (set_round QuorumPhase_Idle (H_tip t) (quorumHash h) None h)
  | step_UpdatedBlockTip h t :
      base_block_hash t = quorumHash h →
      scheduler_step params h (set_phase (phase h) (H_tip t) h).

(** [GetPhaseAndQuorumHash]: what an observer reads. *)
Definition GetPhaseAndQuorumHash (h : CDKGSessionHandler) : QuorumPhase * uint256 :=
  (phase h, quorumHash h).

(** A run of the scheduler inside one session: a sequence of steps none of
    which starts in [QuorumPhase_Idle]. *)
Inductive session_run (params : Consensus.LLMQParams)
    : CDKGSessionHandler → CDKGSessionHandler → Prop :=
  | session_run_refl h : session_run params h h
  | session_run_step h1 h2 h3 :
      phase h1 ≠ QuorumPhase_Idle →
      scheduler_step params h1 h2 →
      session_run params h2 h3 →
      session_run params h1 h3.

(** The states the scheduler reaches from a fresh handler. *)
Inductive scheduler_reachable (params : Consensus.LLMQParams) (cap : nat)
    : CDKGSessionHandler → Prop :=
  | reachable_new : scheduler_reachable params cap (CDKGSessionHandler_new cap)
  | reachable_step h h' :
      scheduler_reachable params cap h →
      scheduler_step params h h' →
      scheduler_reachable params cap h'.

(** ** Notions used in the statements *)

Section CLLMQUtils_notions.

Context `{Externals}.

(** The parameters a caller passes are those of their quorum type
    ("QuorumParams: immutable per quorum type"). *)
Definition registered (llmqParams : Consensus.LLMQParams) : Prop :=
  GetLLMQParams (Consensus.type llmqParams) = llmqParams.

(** The member list of a quorum: the selection of [size] members of the
    registry snapshot at the base block under the modifier of the quorum. *)
Definition members_for (llmqParams : Consensus.LLMQParams) (blockHash : uint256)
    : list CDeterministicMN :=
  CalculateQuorum (GetListForBlock blockHash) (Consensus.size llmqParams)
    (SerializeHash_pair (Consensus.type llmqParams) blockHash).

(** Every list the cache holds is the member list of its key. *)
Definition cache_coherent (m : gmap Z (lru.t (list CDeterministicMN))) : Prop :=
  ∀ t c h l,
    m !! t = Some c → lru.find h (lru.cacheMap c) = Some l →
    l = members_for (GetLLMQParams t) h.

(** The hash the spec compares for a pair: "with lo = min(a,b),
    hi = max(a,b), compute h_x = H(lo ‖ hi ‖ x)". *)
Definition pair_hash (a b x : uint256) : uint256 :=
  SerializeHash_tuple (Z.min a b) (Z.max a b) x.

(** [a] is the hash of a member of the list. *)
Definition is_member (a : uint256) (mns : list CDeterministicMN) : Prop :=
  ∃ dmn, dmn ∈ mns ∧ proTxHash dmn = a.

(** The last exponent of the ring: "k = 0, 1, …, max(1, ⌊log₂(n−1)⌋ − 1)". *)
Definition k_max (n : Z) : Z := Z.max 1 (Z.log2 (n - 1) - 1).

(** The ring-relay set in the words of the spec: [x] is the hash of the
    member at an index [(i + 2^k) mod n] with [0 ≤ k ≤ k_max n], the
    indices that map back to [i] skipped. *)
Definition relay_neighbour (mns : list CDeterministicMN) (i : Z) (x : uint256) : Prop :=
  ∃ k dmn,
    0 ≤ k ≤ k_max (Z.of_nat (length mns)) ∧
    (i + 2 ^ k) mod Z.of_nat (length mns) ≠ i ∧
    mns !! Z.to_nat ((i + 2 ^ k) mod Z.of_nat (length mns)) = Some dmn ∧
    proTxHash dmn = x.

(** The seed of the watch connections as the process holds it once it is
    generated: the stored one, or else the next draw of the random source. *)
Definition process_seed (w : World) : uint256 :=
  if qwatchConnectionSeedGenerated w then qwatchConnectionSeed w
  else GetRandHash (randDraws w).

(** The world once the seed is generated. *)
Definition seeded (w : World) : World :=
  if qwatchConnectionSeedGenerated w then w else with_seed (GetRandHash (randDraws w)) w.

(** The first index of the seeded walk in the words of the spec:
    "r_{k+1} = H(r_k ‖ (type_id ‖ base_block_hash)) starting from a
    process-wide random seed, and pick members at r_k mod n". *)
Definition watch_index (seed : uint256) (llmqType : Z) (blockHash : uint256) (n : Z) : Z :=
  Z.of_N (GetUint64 (SerializeHash_nested seed llmqType blockHash)) mod n.

(** The meta information [GetMetaInfo] hands out for a masternode: the
    stored entry, or else a freshly constructed one. *)
Definition meta_info (w : World) (hash : uint256) : CMasternodeMetaInfo :=
  default (CMasternodeMetaInfo_new hash) (metaInfos w !! hash).

(** A member other than the local node whose last successful outbound
    connection is more than 600 seconds old. *)
Definition stale_member (w : World) (mns : list CDeterministicMN) (myProTxHash x : uint256)
    : Prop :=
  is_member x mns ∧ x ≠ myProTxHash ∧
  adjustedTime w - GetLastOutboundSuccess (meta_info w x) > 600.

(** The state of a process that has not called into the planner yet. *)
Definition World_new (spork21 spork23 time : Z) (watch : bool) : World :=
  {| mapQuorumMembers := ∅;
     qwatchConnectionSeed := 0;
     qwatchConnectionSeedGenerated := false;
     randDraws := 0;
     SPORK_21_QUORUM_ALL_CONNECTED := spork21;
     SPORK_23_QUORUM_POSE := spork23;
     adjustedTime := time;
     fIsWatchQuroumsEnabled := watch;
     connman := {| masternodeQuorumNodes := ∅;
                   masternodeQuorumRelayMembers := ∅;
                   masternodePendingProbes := ∅ |};
     metaInfos := ∅ |}.

(** Successive calls of [GetAllQuorumMembers]; the result is the world
    after the last call. *)
Fixpoint run_GetAllQuorumMembers (calls : list (Consensus.LLMQParams * CBlockIndex))
    (w : World) : option World :=
  match calls with
  | [] => Some w
  | (llmqParams, pindex) :: rest =>
      match GetAllQuorumMembers llmqParams pindex w with
      | None => None
      | Some (_, w') => run_GetAllQuorumMembers rest w'
      end
  end.

End CLLMQUtils_notions.

(** ** A small instance of the collaborators

    Used to run the definitions on concrete inputs: a registry of five
    masternodes whatever the block, a selection that keeps the first
    [maxSize] entries, and arithmetic stand-ins for the hashes. *)
Definition test_mn (h : uint256) : CDeterministicMN :=
  {| proTxHash := h; internalId := h |}.

Definition test_externals : Externals :=
  {| CDeterministicMNList := list CDeterministicMN;
     GetListForBlock := λ _, test_mn <$> [11; 22; 33; 44; 55];
     CalculateQuorum := λ l maxSize _, take (Z.to_nat maxSize) l;
     SerializeHash_pair := λ t h, (t * 31 + h * 17 + 5) mod 2 ^ 256;
     SerializeHash_tuple := λ a b c, (a * 31 + b * 17 + c * 7919) mod 2 ^ 256;
     SerializeHash_nested := λ r t h, (r * 31 + t * 17 + h * 13 + 1) mod 2 ^ 256;
     GetUint64 := λ x, Z.to_N (x mod 2 ^ 64);
     GetRandHash := λ n, 1000 + Z.of_nat n;
     LLMQ_400_60 := 2;
     LLMQ_400_85 := 3;
     LLMQ_TEST := 100;
     consensus_llmqs := ∅;
     quorums_cache_bound := λ _, 2%nat;
     CMasternodeMetaInfo_new := λ _, {| lastOutboundAttempt := 0; lastOutboundSuccess := 0 |} |}.

Definition test_block (h : uint256) : CBlockIndex := {| GetBlockHash := h; nHeight := 24 |}.

(** A world of the test instance at time 1000 in which the node has reached
    member 22 at time 900 and knows nothing of the others. *)
Definition test_world (spork21 spork23 : Z) (watch : bool) : World :=
  with_metaInfos {[22 := {| lastOutboundAttempt := 900; lastOutboundSuccess := 900 |}]}
    (World_new spork21 spork23 1000 watch).

(** A digest for the test instance: the bytes read as a little-endian
    number. *)
Definition test_hash (bytes : list Byte.byte) : uint256 :=
  foldr (λ b acc, Z.of_N (Byte.to_N b) + 256 * acc) 0 bytes.

(** The chain of the test instance: every tip has the base block 7. *)
Definition test_tip (height : Z) : tip := {| H_tip := height; base_block_hash := 7 |}.

Definition test_session : CDKGSession := {| my_member_index := Some 0; finalized := false |}.

(** ** [CMasternodeMetaMan]: governance votes

    The second source of [quorums_utils.cpp], [masternodemeta.cpp]. *)
Module MetaMan.

(** An entry of the manager: the outbound times of [CMasternodeMetaInfo]
    above, together with [mapGovernanceObjectsVotedOn], the member the
    methods below work on. *)
Record Info := {
  outbound : CMasternodeMetaInfo;
  mapGovernanceObjectsVotedOn : gmap uint256 Z;
}.

(** [CMasternodeMetaMan]: the entries are shared pointers, so a change made
    through a pointer handed out by [GetMetaInfo] is a change of the entry
    in the map. *)
Record t := {
  metaInfos : gmap uint256 Info;
  vecDirtyGovernanceObjectHashes : list uint256;
}.

Section methods.

(** The constructor [CMasternodeMetaInfo(proTxHash)], of the absent header. *)
Variable Info_new : uint256 → Info.

(** [CMasternodeMetaInfo::AddGovernanceVote]: "Insert a zero value, or not.
    Then increment the value regardless."  The value is an [int]. *)
Definition Info_AddGovernanceVote (nGovernanceObjectHash : uint256) (info : Info) : Info :=
  let votes := mapGovernanceObjectsVotedOn info in
  let second := default 0 (votes !! nGovernanceObjectHash) in
  {| outbound := outbound info;
     mapGovernanceObjectsVotedOn := <[nGovernanceObjectHash := to_int (second + 1)]> votes |}.

(** [CMasternodeMetaInfo::RemoveGovernanceObject] *)
Definition Info_RemoveGovernanceObject (nGovernanceObjectHash : uint256) (info : Info) : Info :=
  {| outbound := outbound info;
     mapGovernanceObjectsVotedOn := delete nGovernanceObjectHash (mapGovernanceObjectsVotedOn info) |}.

(** [CMasternodeMetaMan::GetMetaInfo]: the entry, [None] being [nullptr],
    and the manager, in which a missing entry has been created if asked. *)
Definition GetMetaInfo (proTxHash : uint256) (fCreate : bool) (mm : t) : option Info * t :=
  match metaInfos mm !! proTxHash with
  | Some info => (Some info, mm)
  | None =>
      if fCreate then
        (Some (Info_new proTxHash),
         {| metaInfos := <[proTxHash := Info_new proTxHash]> (metaInfos mm);
            vecDirtyGovernanceObjectHashes := vecDirtyGovernanceObjectHashes mm |})
      else (None, mm)
  end.

(** [CMasternodeMetaMan::AddGovernanceVote]: [GetMetaInfo] is called with
    its default [fCreate = true] and the result is dereferenced; [None] is
    the dereference of a null pointer. *)
Definition AddGovernanceVote (proTxHash nGovernanceObjectHash : uint256) (mm : t)
    : option (bool * t) :=
  match GetMetaInfo proTxHash true mm with
  | (None, _) => None
  | (Some info, mm') =>
      Some (true,
            {| metaInfos :=
                 <[proTxHash := Info_AddGovernanceVote nGovernanceObjectHash info]> (metaInfos mm');
               vecDirtyGovernanceObjectHashes := vecDirtyGovernanceObjectHashes mm' |})
  end.

(** [CMasternodeMetaMan::RemoveGovernanceObject] *)
Definition RemoveGovernanceObject (nGovernanceObjectHash : uint256) (mm : t) : t :=
  {| metaInfos := Info_RemoveGovernanceObject nGovernanceObjectHash <$> metaInfos mm;
     vecDirtyGovernanceObjectHashes := vecDirtyGovernanceObjectHashes mm |}.

(** [CMasternodeMetaMan::GetAndClearDirtyGovernanceObjectHashes] *)
Definition GetAndClearDirtyGovernanceObjectHashes (mm : t) : list uint256 * t :=
  (vecDirtyGovernanceObjectHashes mm,
   {| metaInfos := metaInfos mm; vecDirtyGovernanceObjectHashes := [] |}).

(** [CMasternodeMetaMan::Clear] *)
Definition Clear (mm : t) : t :=
  {| metaInfos := ∅; vecDirtyGovernanceObjectHashes := [] |}.

(** The number of votes the manager has counted for a masternode on an
    object; a masternode without an entry is counted as a fresh entry. *)
Definition votes (mm : t) (proTxHash nGovernanceObjectHash : uint256) : Z :=
  default 0 (mapGovernanceObjectsVotedOn (default (Info_new proTxHash) (metaInfos mm !! proTxHash))
             !! nGovernanceObjectHash).

(** Successive votes of one masternode on one object. *)
Fixpoint AddGovernanceVotes (n : nat) (proTxHash nGovernanceObjectHash : uint256) (mm : t)
    : option t :=
  match n with
  | O => Some mm
  | S n' =>
      match AddGovernanceVote proTxHash nGovernanceObjectHash mm with
      | None => None
      | Some (_, mm') => AddGovernanceVotes n' proTxHash nGovernanceObjectHash mm'
      end
  end.

End methods.

End MetaMan.

(** A fresh entry of the test instance: no votes. *)
Definition test_Info_new (proTxHash : uint256) : MetaMan.Info :=
  {| MetaMan.outbound := {| lastOutboundAttempt := 0; lastOutboundSuccess := 0 |};
     MetaMan.mapGovernanceObjectsVotedOn := ∅ |}.

Definition test_MetaMan : MetaMan.t :=
  {| MetaMan.metaInfos :=
       {[22 := {| MetaMan.outbound := {| lastOutboundAttempt := 900; lastOutboundSuccess := 900 |};
                  MetaMan.mapGovernanceObjectsVotedOn := {[5 := 2]} |}]};
     MetaMan.vecDirtyGovernanceObjectHashes := [5] |}.

(** ** [CDeterministicMNState] and [CDeterministicMNStateDiff]

    From [evo/deterministicmns.h].  The values of the classes the header
    only uses ([CKeyID], [CBLSLazyPublicKey], [CService], [CScript]) stand
    as their serialised form; the code compares and assigns them. *)
Module evo.

#[global] Instance byte_eq_dec : EqDecision Byte.byte.
Proof.
  intros x y. destruct (Byte.eqb x y) eqn:E.
  - left. by apply Byte.byte_dec_bl.
  - right. intros ->. by rewrite Byte.byte_dec_lb in E.
Defined.

Definition CKeyID := Z.
Definition CBLSLazyPublicKey := list Byte.byte.
Definition CService := list Byte.byte.
Definition CScript := list Byte.byte.

Record CDeterministicMNState := {
  nPoSeBanHeight : Z;
  nRegisteredHeight : Z;
  nCollateralHeight : Z;
  nLastPaidHeight : Z;
  nPoSePenalty : Z;
  nPoSeRevivedHeight : Z;
  nRevocationReason : Z;
  confirmedHash : uint256;
  confirmedHashWithProRegTxHash : uint256;
  keyIDOwner : CKeyID;
  pubKeyOperator : CBLSLazyPublicKey;
  keyIDVoting : CKeyID;
  addr : CService;
  scriptPayout : CScript;
  scriptOperatorPayout : CScript;
}.

#[global] Instance CDeterministicMNState_eq_dec : EqDecision CDeterministicMNState.
Proof. solve_decision. Defined.

(** The assignment [s.f = v] to each member. *)
Definition set_nPoSeBanHeight (v : Z) (s : CDeterministicMNState) : CDeterministicMNState :=
  {| nPoSeBanHeight := v; nRegisteredHeight := nRegisteredHeight s;
     nCollateralHeight := nCollateralHeight s; nLastPaidHeight := nLastPaidHeight s;
     nPoSePenalty := nPoSePenalty s; nPoSeRevivedHeight := nPoSeRevivedHeight s;
     nRevocationReason := nRevocationReason s; confirmedHash := confirmedHash s;
     confirmedHashWithProRegTxHash := confirmedHashWithProRegTxHash s;
     keyIDOwner := keyIDOwner s; pubKeyOperator := pubKeyOperator s;
     keyIDVoting := keyIDVoting s; addr := addr s; scriptPayout := scriptPayout s;
     scriptOperatorPayout := scriptOperatorPayout s |}.

Definition set_nRegisteredHeight (v : Z) (s : CDeterministicMNState) : CDeterministicMNState :=
  {| nPoSeBanHeight := nPoSeBanHeight s; nRegisteredHeight := v;
     nCollateralHeight := nCollateralHeight s; nLastPaidHeight := nLastPaidHeight s;
     nPoSePenalty := nPoSePenalty s; nPoSeRevivedHeight := nPoSeRevivedHeight s;
     nRevocationReason := nRevocationReason s; confirmedHash := confirmedHash s;
     confirmedHashWithProRegTxHash := confirmedHashWithProRegTxHash s;
     keyIDOwner := keyIDOwner s; pubKeyOperator := pubKeyOperator s;
     keyIDVoting := keyIDVoting s; addr := addr s; scriptPayout := scriptPayout s;
     scriptOperatorPayout := scriptOperatorPayout s |}.

Definition set_nCollateralHeight (v : Z) (s : CDeterministicMNState) : CDeterministicMNState :=
  {| nPoSeBanHeight := nPoSeBanHeight s; nRegisteredHeight := nRegisteredHeight s;
     nCollateralHeight := v; nLastPaidHeight := nLastPaidHeight s;
     nPoSePenalty := nPoSePenalty s; nPoSeRevivedHeight := nPoSeRevivedHeight s;
     nRevocationReason := nRevocationReason s; confirmedHash := confirmedHash s;
     confirmedHashWithProRegTxHash := confirmedHashWithProRegTxHash s;
     keyIDOwner := keyIDOwner s; pubKeyOperator := pubKeyOperator s;
     keyIDVoting := keyIDVoting s; addr := addr s; scriptPayout := scriptPayout s;
     scriptOperatorPayout := scriptOperatorPayout s |}.

Definition set_nLastPaidHeight (v : Z) (s : CDeterministicMNState) : CDeterministicMNState :=
  {| nPoSeBanHeight := nPoSeBanHeight s; nRegisteredHeight := nRegisteredHeight s;
     nCollateralHeight := nCollateralHeight s; nLastPaidHeight := v;
     nPoSePenalty := nPoSePenalty s; nPoSeRevivedHeight := nPoSeRevivedHeight s;
     nRevocationReason := nRevocationReason s; confirmedHash := confirmedHash s;
     confirmedHashWithProRegTxHash := confirmedHashWithProRegTxHash s;
     keyIDOwner := keyIDOwner s; pubKeyOperator := pubKeyOperator s;
     keyIDVoting := keyIDVoting s; addr := addr s; scriptPayout := scriptPayout s;
     scriptOperatorPayout := scriptOperatorPayout s |}.

Definition set_nPoSePenalty (v : Z) (s : CDeterministicMNState) : CDeterministicMNState :=
  {| nPoSeBanHeight := nPoSeBanHeight s; nRegisteredHeight := nRegisteredHeight s;
     nCollateralHeight := nCollateralHeight s; nLastPaidHeight := nLastPaidHeight s;
     nPoSePenalty := v; nPoSeRevivedHeight := nPoSeRevivedHeight s;
     nRevocationReason := nRevocationReason s; confirmedHash := confirmedHash s;
     confirmedHashWithProRegTxHash := confirmedHashWithProRegTxHash s;
     keyIDOwner := keyIDOwner s; pubKeyOperator := pubKeyOperator s;
     keyIDVoting := keyIDVoting s; addr := addr s; scriptPayout := scriptPayout s;
     scriptOperatorPayout := scriptOperatorPayout s |}.

Definition set_nPoSeRevivedHeight (v : Z) (s : CDeterministicMNState) : CDeterministicMNState :=
  {| nPoSeBanHeight := nPoSeBanHeight s; nRegisteredHeight := nRegisteredHeight s;
     nCollateralHeight := nCollateralHeight s; nLastPaidHeight := nLastPaidHeight s;
     nPoSePenalty := nPoSePenalty s; nPoSeRevivedHeight := v;
     nRevocationReason := nRevocationReason s; confirmedHash := confirmedHash s;
     confirmedHashWithProRegTxHash := confirmedHashWithProRegTxHash s;
     keyIDOwner := keyIDOwner s; pubKeyOperator := pubKeyOperator s;
     keyIDVoting := keyIDVoting s; addr := addr s; scriptPayout := scriptPayout s;
     scriptOperatorPayout := scriptOperatorPayout s |}.

Definition set_nRevocationReason (v : Z) (s : CDeterministicMNState) : CDeterministicMNState :=
  {| nPoSeBanHeight := nPoSeBanHeight s; nRegisteredHeight := nRegisteredHeight s;
     nCollateralHeight := nCollateralHeight s; nLastPaidHeight := nLastPaidHeight s;
     nPoSePenalty := nPoSePenalty s; nPoSeRevivedHeight := nPoSeRevivedHeight s;
     nRevocationReason := v; confirmedHash := confirmedHash s;
     confirmedHashWithProRegTxHash := confirmedHashWithProRegTxHash s;
     keyIDOwner := keyIDOwner s; pubKeyOperator := pubKeyOperator s;
     keyIDVoting := keyIDVoting s; addr := addr s; scriptPayout := scriptPayout s;
     scriptOperatorPayout := scriptOperatorPayout s |}.

Definition set_confirmedHash (v : uint256) (s : CDeterministicMNState) : CDeterministicMNState :=
  {| nPoSeBanHeight := nPoSeBanHeight s; nRegisteredHeight := nRegisteredHeight s;
     nCollateralHeight := nCollateralHeight s; nLastPaidHeight := nLastPaidHeight s;
     nPoSePenalty := nPoSePenalty s; nPoSeRevivedHeight := nPoSeRevivedHeight s;
     nRevocationReason := nRevocationReason s; confirmedHash := v;
     confirmedHashWithProRegTxHash := confirmedHashWithProRegTxHash s;
     keyIDOwner := keyIDOwner s; pubKeyOperator := pubKeyOperator s;
     keyIDVoting := keyIDVoting s; addr := addr s; scriptPayout := scriptPayout s;
     scriptOperatorPayout := scriptOperatorPayout s |}.

Definition set_confirmedHashWithProRegTxHash (v : uint256) (s : CDeterministicMNState) : CDeterministicMNState :=
  {| nPoSeBanHeight := nPoSeBanHeight s; nRegisteredHeight := nRegisteredHeight s;
     nCollateralHeight := nCollateralHeight s; nLastPaidHeight := nLastPaidHeight s;
     nPoSePenalty := nPoSePenalty s; nPoSeRevivedHeight := nPoSeRevivedHeight s;
     nRevocationReason := nRevocationReason s; confirmedHash := confirmedHash s;
     confirmedHashWithProRegTxHash := v; keyIDOwner := keyIDOwner s;
     pubKeyOperator := pubKeyOperator s; keyIDVoting := keyIDVoting s; addr := addr s;
     scriptPayout := scriptPayout s; scriptOperatorPayout := scriptOperatorPayout s |}.

Definition set_keyIDOwner (v : CKeyID) (s : CDeterministicMNState) : CDeterministicMNState :=
  {| nPoSeBanHeight := nPoSeBanHeight s; nRegisteredHeight := nRegisteredHeight s;
     nCollateralHeight := nCollateralHeight s; nLastPaidHeight := nLastPaidHeight s;
     nPoSePenalty := nPoSePenalty s; nPoSeRevivedHeight := nPoSeRevivedHeight s;
     nRevocationReason := nRevocationReason s; confirmedHash := confirmedHash s;
     confirmedHashWithProRegTxHash := confirmedHashWithProRegTxHash s; keyIDOwner := v;
     pubKeyOperator := pubKeyOperator s; keyIDVoting := keyIDVoting s; addr := addr s;
     scriptPayout := scriptPayout s; scriptOperatorPayout := scriptOperatorPayout s |}.

Definition set_pubKeyOperator (v : CBLSLazyPublicKey) (s : CDeterministicMNState) : CDeterministicMNState :=
  {| nPoSeBanHeight := nPoSeBanHeight s; nRegisteredHeight := nRegisteredHeight s;
     nCollateralHeight := nCollateralHeight s; nLastPaidHeight := nLastPaidHeight s;
     nPoSePenalty := nPoSePenalty s; nPoSeRevivedHeight := nPoSeRevivedHeight s;
     nRevocationReason := nRevocationReason s; confirmedHash := confirmedHash s;
     confirmedHashWithProRegTxHash := confirmedHashWithProRegTxHash s;
     keyIDOwner := keyIDOwner s; pubKeyOperator := v; keyIDVoting := keyIDVoting s;
     addr := addr s; scriptPayout := scriptPayout s;
     scriptOperatorPayout := scriptOperatorPayout s |}.

Definition set_keyIDVoting (v : CKeyID) (s : CDeterministicMNState) : CDeterministicMNState :=
  {| nPoSeBanHeight := nPoSeBanHeight s; nRegisteredHeight := nRegisteredHeight s;
     nCollateralHeight := nCollateralHeight s; nLastPaidHeight := nLastPaidHeight s;
     nPoSePenalty := nPoSePenalty s; nPoSeRevivedHeight := nPoSeRevivedHeight s;
     nRevocationReason := nRevocationReason s; confirmedHash := confirmedHash s;
     confirmedHashWithProRegTxHash := confirmedHashWithProRegTxHash s;
     keyIDOwner := keyIDOwner s; pubKeyOperator := pubKeyOperator s; keyIDVoting := v;
     addr := addr s; scriptPayout := scriptPayout s;
     scriptOperatorPayout := scriptOperatorPayout s |}.

Definition set_addr (v : CService) (s : CDeterministicMNState) : CDeterministicMNState :=
  {| nPoSeBanHeight := nPoSeBanHeight s; nRegisteredHeight := nRegisteredHeight s;
     nCollateralHeight := nCollateralHeight s; nLastPaidHeight := nLastPaidHeight s;
     nPoSePenalty := nPoSePenalty s; nPoSeRevivedHeight := nPoSeRevivedHeight s;
     nRevocationReason := nRevocationReason s; confirmedHash := confirmedHash s;
     confirmedHashWithProRegTxHash := confirmedHashWithProRegTxHash s;
     keyIDOwner := keyIDOwner s; pubKeyOperator := pubKeyOperator s;
     keyIDVoting := keyIDVoting s; addr := v; scriptPayout := scriptPayout s;
     scriptOperatorPayout := scriptOperatorPayout s |}.

Definition set_scriptPayout (v : CScript) (s : CDeterministicMNState) : CDeterministicMNState :=
  {| nPoSeBanHeight := nPoSeBanHeight s; nRegisteredHeight := nRegisteredHeight s;
     nCollateralHeight := nCollateralHeight s; nLastPaidHeight := nLastPaidHeight s;
     nPoSePenalty := nPoSePenalty s; nPoSeRevivedHeight := nPoSeRevivedHeight s;
     nRevocationReason := nRevocationReason s; confirmedHash := confirmedHash s;
     confirmedHashWithProRegTxHash := confirmedHashWithProRegTxHash s;
     keyIDOwner := keyIDOwner s; pubKeyOperator := pubKeyOperator s;
     keyIDVoting := keyIDVoting s; addr := addr s; scriptPayout := v;
     scriptOperatorPayout := scriptOperatorPayout s |}.

Definition set_scriptOperatorPayout (v : CScript) (s : CDeterministicMNState) : CDeterministicMNState :=
  {| nPoSeBanHeight := nPoSeBanHeight s; nRegisteredHeight := nRegisteredHeight s;
     nCollateralHeight := nCollateralHeight s; nLastPaidHeight := nLastPaidHeight s;
     nPoSePenalty := nPoSePenalty s; nPoSeRevivedHeight := nPoSeRevivedHeight s;
     nRevocationReason := nRevocationReason s; confirmedHash := confirmedHash s;
     confirmedHashWithProRegTxHash := confirmedHashWithProRegTxHash s;
     keyIDOwner := keyIDOwner s; pubKeyOperator := pubKeyOperator s;
     keyIDVoting := keyIDVoting s; addr := addr s; scriptPayout := scriptPayout s;
     scriptOperatorPayout := v |}.

Definition IsBanned (s : CDeterministicMNState) : bool := bool_decide (nPoSeBanHeight s ≠ -1).

Definition GetBannedHeight (s : CDeterministicMNState) : Z := nPoSeBanHeight s.

Definition BanIfNotBanned (height : Z) (s : CDeterministicMNState) : CDeterministicMNState :=
  if negb (IsBanned s) then set_nPoSeBanHeight height s else s.

Definition Revive (nRevivedHeight : Z) (s : CDeterministicMNState) : CDeterministicMNState :=
  set_nPoSeRevivedHeight nRevivedHeight (set_nPoSeBanHeight (-1) (set_nPoSePenalty 0 s)).

Section state.

(** What the header takes from elsewhere: the constant
    [CProUpRevTx::REASON_NOT_SPECIFIED], the default-constructed key and
    address, and [CSHA256] over two hashes. *)
Variables (REASON_NOT_SPECIFIED : Z) (CBLSPublicKey_null : CBLSLazyPublicKey)
  (CService_null : CService) (CSHA256 : uint256 → uint256 → uint256).

(** The default member initialisers of the class. *)
Definition CDeterministicMNState_new : CDeterministicMNState :=
  {| nPoSeBanHeight := -1; nRegisteredHeight := -1; nCollateralHeight := -1;
     nLastPaidHeight := 0; nPoSePenalty := 0; nPoSeRevivedHeight := -1;
     nRevocationReason := REASON_NOT_SPECIFIED;
     confirmedHash := 0; confirmedHashWithProRegTxHash := 0;
     keyIDOwner := 0; pubKeyOperator := CBLSPublicKey_null; keyIDVoting := 0;
     addr := CService_null; scriptPayout := []; scriptOperatorPayout := [] |}.

Definition ResetOperatorFields (s : CDeterministicMNState) : CDeterministicMNState :=
  set_nRevocationReason REASON_NOT_SPECIFIED
    (set_scriptOperatorPayout []
       (set_addr CService_null (set_pubKeyOperator CBLSPublicKey_null s))).

Definition UpdateConfirmedHash (_proTxHash _confirmedHash : uint256) (s : CDeterministicMNState)
    : CDeterministicMNState :=
  set_confirmedHashWithProRegTxHash (CSHA256 _proTxHash _confirmedHash)
    (set_confirmedHash _confirmedHash s).

(** [enum Field] *)
Definition Field_nRegisteredHeight : Z := 0x0001.
Definition Field_nLastPaidHeight : Z := 0x0002.
Definition Field_nPoSePenalty : Z := 0x0004.
Definition Field_nPoSeRevivedHeight : Z := 0x0008.
Definition Field_nPoSeBanHeight : Z := 0x0010.
Definition Field_nRevocationReason : Z := 0x0020.
Definition Field_confirmedHash : Z := 0x0040.
Definition Field_confirmedHashWithProRegTxHash : Z := 0x0080.
Definition Field_keyIDOwner : Z := 0x0100.
Definition Field_pubKeyOperator : Z := 0x0200.
Definition Field_keyIDVoting : Z := 0x0400.
Definition Field_addr : Z := 0x0800.
Definition Field_scriptPayout : Z := 0x1000.
Definition Field_scriptOperatorPayout : Z := 0x2000.
Definition Field_nCollateralHeight : Z := 0x4000.

Record CDeterministicMNStateDiff := {
  fields : Z;
  state : CDeterministicMNState;
}.

(** [DMN_STATE_DIFF_LINE(f)] of the constructor:
    [if (a.f != b.f) { state.f = b.f; fields |= Field_f; }] *)
Definition DMN_STATE_DIFF_LINE {T} `{EqDecision T} (f : CDeterministicMNState → T)
    (set_f : T → CDeterministicMNState → CDeterministicMNState) (Field_f : Z)
    (a b : CDeterministicMNState) (d : CDeterministicMNStateDiff) : CDeterministicMNStateDiff :=
  if decide (f a ≠ f b)
  then {| fields := Z.lor (fields d) Field_f; state := set_f (f b) (state d) |}
  else d.

(** [DMN_STATE_DIFF_LINE(f)] of [ApplyToState]:
    [if (fields & Field_f) target.f = state.f;] *)
Definition DMN_STATE_APPLY_LINE {T} (f : CDeterministicMNState → T)
    (set_f : T → CDeterministicMNState → CDeterministicMNState) (Field_f : Z)
    (d : CDeterministicMNStateDiff) (target : CDeterministicMNState) : CDeterministicMNState :=
  if decide (Z.land (fields d) Field_f ≠ 0) then set_f (f (state d)) target else target.

(** The constructor [CDeterministicMNStateDiff(a, b)]: the lines of
    [DMN_STATE_DIFF_ALL_FIELDS] in their order, from [fields{0}] and a
    default state. *)
Definition CDeterministicMNStateDiff_new (a b : CDeterministicMNState)
    : CDeterministicMNStateDiff :=
  let d := DMN_STATE_DIFF_LINE nRegisteredHeight set_nRegisteredHeight Field_nRegisteredHeight a b
             {| fields := 0; state := CDeterministicMNState_new |} in
  let d := DMN_STATE_DIFF_LINE nLastPaidHeight set_nLastPaidHeight Field_nLastPaidHeight a b
             d in
  let d := DMN_STATE_DIFF_LINE nPoSePenalty set_nPoSePenalty Field_nPoSePenalty a b
             d in
  let d := DMN_STATE_DIFF_LINE nPoSeRevivedHeight set_nPoSeRevivedHeight Field_nPoSeRevivedHeight a b
             d in
  let d := DMN_STATE_DIFF_LINE nPoSeBanHeight set_nPoSeBanHeight Field_nPoSeBanHeight a b
             d in
  let d := DMN_STATE_DIFF_LINE nRevocationReason set_nRevocationReason Field_nRevocationReason a b
             d in
  let d := DMN_STATE_DIFF_LINE confirmedHash set_confirmedHash Field_confirmedHash a b
             d in
  let d := DMN_STATE_DIFF_LINE confirmedHashWithProRegTxHash set_confirmedHashWithProRegTxHash Field_confirmedHashWithProRegTxHash a b
             d in
  let d := DMN_STATE_DIFF_LINE keyIDOwner set_keyIDOwner Field_keyIDOwner a b
             d in
  let d := DMN_STATE_DIFF_LINE pubKeyOperator set_pubKeyOperator Field_pubKeyOperator a b
             d in
  let d := DMN_STATE_DIFF_LINE keyIDVoting set_keyIDVoting Field_keyIDVoting a b
             d in
  let d := DMN_STATE_DIFF_LINE addr set_addr Field_addr a b
             d in
  let d := DMN_STATE_DIFF_LINE scriptPayout set_scriptPayout Field_scriptPayout a b
             d in
  let d := DMN_STATE_DIFF_LINE scriptOperatorPayout set_scriptOperatorPayout Field_scriptOperatorPayout a b
             d in
  let d := DMN_STATE_DIFF_LINE nCollateralHeight set_nCollateralHeight Field_nCollateralHeight a b
             d in
  d.

Definition ApplyToState (d : CDeterministicMNStateDiff) (target : CDeterministicMNState)
    : CDeterministicMNState :=
  let target := DMN_STATE_APPLY_LINE nRegisteredHeight set_nRegisteredHeight Field_nRegisteredHeight d target in
  let target := DMN_STATE_APPLY_LINE nLastPaidHeight set_nLastPaidHeight Field_nLastPaidHeight d target in
  let target := DMN_STATE_APPLY_LINE nPoSePenalty set_nPoSePenalty Field_nPoSePenalty d target in
  let target := DMN_STATE_APPLY_LINE nPoSeRevivedHeight set_nPoSeRevivedHeight Field_nPoSeRevivedHeight d target in
  let target := DMN_STATE_APPLY_LINE nPoSeBanHeight set_nPoSeBanHeight Field_nPoSeBanHeight d target in
  let target := DMN_STATE_APPLY_LINE nRevocationReason set_nRevocationReason Field_nRevocationReason d target in
  let target := DMN_STATE_APPLY_LINE confirmedHash set_confirmedHash Field_confirmedHash d target in
  let target := DMN_STATE_APPLY_LINE confirmedHashWithProRegTxHash set_confirmedHashWithProRegTxHash Field_confirmedHashWithProRegTxHash d target in
  let target := DMN_STATE_APPLY_LINE keyIDOwner set_keyIDOwner Field_keyIDOwner d target in
  let target := DMN_STATE_APPLY_LINE pubKeyOperator set_pubKeyOperator Field_pubKeyOperator d target in
  let target := DMN_STATE_APPLY_LINE keyIDVoting set_keyIDVoting Field_keyIDVoting d target in
  let target := DMN_STATE_APPLY_LINE addr set_addr Field_addr d target in
  let target := DMN_STATE_APPLY_LINE scriptPayout set_scriptPayout Field_scriptPayout d target in
  let target := DMN_STATE_APPLY_LINE scriptOperatorPayout set_scriptOperatorPayout Field_scriptOperatorPayout d target in
  let target := DMN_STATE_APPLY_LINE nCollateralHeight set_nCollateralHeight Field_nCollateralHeight d target in
  target.

End state.

End evo.

(** ** [CDeterministicMNList]: the map of unique properties

    From [evo/deterministicmns.h]: [mnUniquePropertyMap] maps the hash of a
    property (an address, a key) to the masternode that has it and a
    [uint32_t] count of the uses. *)
Module MNList.

(** [(uint32_t)x] *)
Definition to_uint32 (x : Z) : Z := x mod 2 ^ 32.

Section unique_properties.

Context {T : Type} `{EqDecision T}.

(** [static const T nullValue], a default-constructed [T], and
    [::SerializeHash] on [T]. *)
Variables (nullValue : T) (SerializeHash : T → uint256).

Definition HasUniqueProperty (v : T) (mnUniquePropertyMap : gmap uint256 (uint256 * Z)) : bool :=
  bool_decide (is_Some (mnUniquePropertyMap !! SerializeHash v)).

(** The result and the map the call leaves. *)
Definition AddUniqueProperty (dmn : CDeterministicMN) (v : T)
    (mnUniquePropertyMap : gmap uint256 (uint256 * Z)) : bool * gmap uint256 (uint256 * Z) :=
  if decide (v = nullValue) then (false, mnUniquePropertyMap)
  else
    let hash := SerializeHash v in
    match mnUniquePropertyMap !! hash with
    | Some oldEntry =>
        if decide (oldEntry.1 ≠ proTxHash dmn) then (false, mnUniquePropertyMap)
        else (true, <[hash := (proTxHash dmn, to_uint32 (oldEntry.2 + 1))]> mnUniquePropertyMap)
    | None => (true, <[hash := (proTxHash dmn, 1)]> mnUniquePropertyMap)
    end.

Definition DeleteUniqueProperty (dmn : CDeterministicMN) (oldValue : T)
    (mnUniquePropertyMap : gmap uint256 (uint256 * Z)) : bool * gmap uint256 (uint256 * Z) :=
  if decide (oldValue = nullValue) then (false, mnUniquePropertyMap)
  else
    let oldHash := SerializeHash oldValue in
    match mnUniquePropertyMap !! oldHash with
    | Some p =>
        if decide (p.1 ≠ proTxHash dmn) then (false, mnUniquePropertyMap)
        else if decide (p.2 = 1) then (true, delete oldHash mnUniquePropertyMap)
        else (true, <[oldHash := (proTxHash dmn, to_uint32 (p.2 - 1))]> mnUniquePropertyMap)
    | None => (true, delete oldHash mnUniquePropertyMap)
    end.

Definition UpdateUniqueProperty (dmn : CDeterministicMN) (oldValue newValue : T)
    (mnUniquePropertyMap : gmap uint256 (uint256 * Z)) : bool * gmap uint256 (uint256 * Z) :=
  if decide (oldValue = newValue) then (true, mnUniquePropertyMap)
  else
    let deleted :=
      if decide (oldValue ≠ nullValue)
      then DeleteUniqueProperty dmn oldValue mnUniquePropertyMap
      else (true, mnUniquePropertyMap) in
    if negb deleted.1 then (false, deleted.2)
    else
      let added :=
        if decide (newValue ≠ nullValue)
        then AddUniqueProperty dmn newValue deleted.2
        else (true, deleted.2) in
      if negb added.1 then (false, added.2) else (true, added.2).

End unique_properties.

End MNList.

(** A map of unique properties for the test instance: service ports keyed
    by [port + 1000] with the null value 0; masternode 1 holds port 80 three
    times and port 22 once, and port 443 belongs to masternode 2. *)
Definition test_uniques : gmap uint256 (uint256 * Z) :=
  {[1080 := (1, 3); 1443 := (2, 1); 1022 := (1, 1)]}.

(** ** [CMasternodeUtils]

    From [masternode/masternodeutils.cpp]. *)
Module MasternodeUtils.

(** [CompareScoreMN::operator()]: the scores are [arith_uint256]; the
    collateral outpoints are compared with the [operator<] of [COutPoint],
    which is taken as a parameter. *)
Definition CompareScoreMN {COutPoint : Type} (COutPoint_lt : COutPoint → COutPoint → bool)
    (t1 t2 : Z * COutPoint) : bool :=
  if negb (t1.1 =? t2.1) then t1.1 <? t2.1 else COutPoint_lt t1.2 t2.2.

(** [CNode]: the fields and flags that [ProcessMasternodeConnections]
    reads and writes.  [verifiedProRegTxHash] is null when it is 0. *)
Record CNode := {
  id : Z;
  IsInboundConn : bool;
  IsFeelerConn : bool;
  IsManualConn : bool;
  IsMasternodeConnection : bool;
  m_masternode_probe_connection : bool;
  GetVerifiedProRegTxHash : uint256;
  m_connected : Z;
  qwatch : bool;
  fDisconnect : bool;
}.

#[global] Instance CNode_eq_dec : EqDecision CNode.
Proof. solve_decision. Defined.

Definition IsNull (hash : uint256) : bool := hash =? 0.

(** [pnode->fDisconnect = true] *)
Definition set_fDisconnect (pnode : CNode) : CNode :=
  {| id := id pnode;
     IsInboundConn := IsInboundConn pnode;
     IsFeelerConn := IsFeelerConn pnode;
     IsManualConn := IsManualConn pnode;
     IsMasternodeConnection := IsMasternodeConnection pnode;
     m_masternode_probe_connection := m_masternode_probe_connection pnode;
     GetVerifiedProRegTxHash := GetVerifiedProRegTxHash pnode;
     m_connected := m_connected pnode;
     qwatch := qwatch pnode;
     fDisconnect := true |}.

Section ProcessMasternodeConnections.

(** [connman.GetMaxOutboundNodeCount()], [connman.IsMasternodeQuorumNode]
    and [GetTime<std::chrono::seconds>()], of files that are not part of the
    sources. *)
Variables (GetMaxOutboundNodeCount : Z) (IsMasternodeQuorumNode : CNode → bool) (GetTime : Z).

(** The first callback: the node is counted. *)
Definition counted (pnode : CNode) : bool :=
  (negb (IsInboundConn pnode) &&
   negb (IsFeelerConn pnode) &&
   negb (IsManualConn pnode) &&
   negb (IsMasternodeConnection pnode) &&
   negb (m_masternode_probe_connection pnode)) ||
  IsNull (GetVerifiedProRegTxHash pnode).

(** [nonMasternodeCount] after the first [ForEachNode], a [size_t]. *)
Definition nonMasternodeCount (vNodes : list CNode) : Z :=
  fold_left (λ count pnode, if counted pnode then to_size_t (count + 1) else count) vNodes 0.

(** The second callback, with its early returns.  The times are
    [std::chrono::seconds], counts of seconds in a signed 64-bit integer,
    and so is their difference. *)
Definition disconnect (pnode : CNode) : CNode :=
  if negb (IsMasternodeConnection pnode) then pnode
  else
    let returned :=
      if negb (IsNull (GetVerifiedProRegTxHash pnode)) then
        if IsMasternodeQuorumNode pnode then true
        else if IsInboundConn pnode then true
        else false
      else if bool_decide (to_int64 (GetTime - m_connected pnode) < 5) then true
      else if qwatch pnode then true
      else false in
    if returned then pnode
    else if m_masternode_probe_connection pnode &&
            bool_decide (to_int64 (GetTime - m_connected pnode) < 5)
    then pnode
    else set_fDisconnect pnode.

(** [connman.ForEachNode(AllNodes, ...)] visits every node of the list. *)
Definition ProcessMasternodeConnections (vNodes : list CNode) : list CNode :=
  if bool_decide (nonMasternodeCount vNodes < GetMaxOutboundNodeCount) then vNodes
  else map disconnect vNodes.

End ProcessMasternodeConnections.

End MasternodeUtils.

(** Nodes for the test instance: an outbound full node, a verified quorum
    masternode, a verified masternode of no quorum, and an unverified
    masternode connection made two seconds before the time 1000. *)
Definition test_node (id : Z) (masternode : bool) (verified : uint256) (connected : Z)
    : MasternodeUtils.CNode :=
  {| MasternodeUtils.id := id;
     MasternodeUtils.IsInboundConn := false;
     MasternodeUtils.IsFeelerConn := false;
     MasternodeUtils.IsManualConn := false;
     MasternodeUtils.IsMasternodeConnection := masternode;
     MasternodeUtils.m_masternode_probe_connection := false;
     MasternodeUtils.GetVerifiedProRegTxHash := verified;
     MasternodeUtils.m_connected := connected;
     MasternodeUtils.qwatch := false;
     MasternodeUtils.fDisconnect := false |}.

Definition test_nodes : list MasternodeUtils.CNode :=
  [test_node 1 false 0 0; test_node 2 true 22 0; test_node 3 true 33 0; test_node 4 true 0 998].

Definition test_IsMasternodeQuorumNode (pnode : MasternodeUtils.CNode) : bool :=
  MasternodeUtils.GetVerifiedProRegTxHash pnode =? 22.

(** * Verification *)

(** ** The cache returns only what was stored *)

Module lru_facts.

Lemma find_cons {V} (k k' : uint256) (v : V) l :
  lru.find k ((k', v) :: l) = if decide (k' = k) then Some v else lru.find k l.
Proof. reflexivity. Qed.

Lemma find_remove_eq {V} (k : uint256) (l : list (uint256 * V)) :
  lru.find k (lru.remove k l) = None.
Proof.
  unfold lru.remove. induction l as [|[k0 v0] l IH]; [done|].
  rewrite filter_cons. simpl. destruct (decide (k0 ≠ k)) as [Hne|Heq]; [|done].
  simpl. by destruct (decide (k0 = k)).
Qed.

Lemma find_remove_ne {V} (k k' : uint256) (l : list (uint256 * V)) :
  k ≠ k' → lru.find k (lru.remove k' l) = lru.find k l.
Proof.
  intros Hk. unfold lru.remove. induction l as [|[k0 v0] l IH]; [done|].
  rewrite filter_cons. simpl. destruct (decide (k0 ≠ k')) as [Hne|Heq].
  - simpl. by destruct (decide (k0 = k)).
  - destruct (decide (k0 = k)) as [->|]; [|done].
    elim Heq. done.
Qed.

Lemma find_take {V} (k : uint256) (n : nat) (l : list (uint256 * V)) v :
  lru.find k (take n l) = Some v → lru.find k l = Some v.
Proof.
  revert n. induction l as [|[k0 v0] l IH]; intros [|n]; simpl; try done.
  destruct (decide (k0 = k)); [done|]. apply IH.
Qed.

(** A hit returns the stored value. *)
Lemma get_hit {V} (k : uint256) (c : lru.t V) :
  (lru.get k c).1 = lru.find k (lru.cacheMap c).
Proof. unfold lru.get. by destruct (lru.find k (lru.cacheMap c)). Qed.

(** A lookup moves entries and changes none. *)
Lemma find_get {V} (k k' : uint256) (c : lru.t V) :
  lru.find k' (lru.cacheMap (lru.get k c).2) = lru.find k' (lru.cacheMap c).
Proof.
  unfold lru.get. destruct (lru.find k (lru.cacheMap c)) as [v|] eqn:Hf; [|done].
  simpl. destruct (decide (k = k')) as [->|Hne]; [done|].
  by apply find_remove_ne.
Qed.

(** After an insertion a key holds the inserted value or the value it held. *)
Lemma find_insert {V} (k k' : uint256) (v v' : V) (c : lru.t V) :
  lru.find k' (lru.cacheMap (lru.insert k v c)) = Some v' →
  (k' = k ∧ v' = v) ∨ (k' ≠ k ∧ lru.find k' (lru.cacheMap c) = Some v').
Proof.
  unfold lru.insert. simpl. intros Hf. apply find_take in Hf.
  simpl in Hf. destruct (decide (k = k')) as [->|Hne].
  - left. split; congruence.
  - right. split; [done|]. by rewrite find_remove_ne in Hf.
Qed.

End lru_facts.

(** ** [GetAllQuorumMembers] *)

Section GetAllQuorumMembers_facts.

Context `{Externals}.

Lemma InitQuorumsCache_coherent : cache_coherent InitQuorumsCache.
Proof.
  intros t c h l Hc Hf. unfold InitQuorumsCache in Hc.
  rewrite map_lookup_imap in Hc.
  destruct (consensus_llmqs !! t); simplify_eq/=.
Qed.

Lemma cache_at_coherent t m h l :
  cache_coherent m → lru.find h (lru.cacheMap (cache_at t m)) = Some l →
  l = members_for (GetLLMQParams t) h.
Proof.
  intros Hm. unfold cache_at. destruct (m !! t) as [c|] eqn:Hc; simpl; [|done].
  by apply Hm.
Qed.

Lemma cache_coherent_insert t c m :
  cache_coherent m →
  (∀ h l, lru.find h (lru.cacheMap c) = Some l → l = members_for (GetLLMQParams t) h) →
  cache_coherent (<[t := c]> m).
Proof.
  intros Hm Hc t' c' h l Hl Hf. destruct (decide (t = t')) as [->|Hne].
  - rewrite lookup_insert_eq in Hl. simplify_eq. by apply Hc.
  - rewrite lookup_insert_ne in Hl; [|done]. by eapply Hm.
Qed.

(** A call returns the member list of the quorum, whatever the cache holds,
    and leaves the cache coherent and the rest of the world as it was. *)
Lemma GetAllQuorumMembers_run llmqParams pindex w :
  cache_coherent (mapQuorumMembers w) → registered llmqParams →
  ∃ m, GetAllQuorumMembers llmqParams pindex w =
         Some (members_for llmqParams (GetBlockHash pindex), with_mapQuorumMembers m w)
       ∧ cache_coherent m.
Proof.
  intros Hw Hreg. unfold GetAllQuorumMembers, bind, gets. simpl.
  set (m1 := if decide (map_size (mapQuorumMembers w) = 0%nat)
             then InitQuorumsCache else mapQuorumMembers w).
  assert (Hm1 : cache_coherent m1).
  { unfold m1. case_decide; [apply InitQuorumsCache_coherent | done]. }
  set (c := cache_at (Consensus.type llmqParams) m1).
  pose proof (lru_facts.get_hit (GetBlockHash pindex) c) as Hhit.
  pose proof (λ k, lru_facts.find_get (GetBlockHash pindex) k c) as Hget.
  destruct (lru.get (GetBlockHash pindex) c) as [[l|] c'] eqn:Hg; simpl in *.
  - eexists. split.
    + unfold modify, ret. simpl. f_equal. f_equal.
      symmetry in Hhit. apply cache_at_coherent in Hhit; [|done].
      by rewrite Hreg in Hhit.
    + apply cache_coherent_insert; [done|]. intros h l' Hf.
      rewrite Hget in Hf. by eapply cache_at_coherent.
  - eexists. split; [reflexivity|].
    apply cache_coherent_insert; [done|]. intros h l' Hf.
    apply lru_facts.find_insert in Hf as [[-> ->]|[_ Hf]].
    + by rewrite Hreg.
    + by eapply cache_at_coherent.
Qed.

Lemma run_GetAllQuorumMembers_coherent calls w :
  cache_coherent (mapQuorumMembers w) → Forall (λ c, registered c.1) calls →
  ∃ w', run_GetAllQuorumMembers calls w = Some w' ∧ cache_coherent (mapQuorumMembers w').
Proof.
  revert w. induction calls as [|[p b] calls IH]; intros w Hw Hcalls.
  - by exists w.
  - apply Forall_cons in Hcalls as [Hp Hcalls]. simpl in *.
    destruct (GetAllQuorumMembers_run p b w Hw Hp) as (m & -> & Hm).
    by apply IH.
Qed.

(** C4. Two-run determinism of the membership: in any two processes,
    whatever calls of [GetAllQuorumMembers] each has served before, a call
    for the same quorum type and base block returns the same ordered list,
    namely the selection made from the registry snapshot of the block with
    the size of the type and the modifier [SerializeHash(type, blockHash)];
    the cache never changes the answer. *)
Theorem GetAllQuorumMembers_deterministic
    (calls1 calls2 : list (Consensus.LLMQParams * CBlockIndex))
    (spork21 spork23 time spork21' spork23' time' : Z) (watch watch' : bool)
    (llmqParams : Consensus.LLMQParams) (pindex pindex' : CBlockIndex) :
  Forall (λ c, registered c.1) calls1 →
  Forall (λ c, registered c.1) calls2 →
  registered llmqParams →
  GetBlockHash pindex = GetBlockHash pindex' →
  ∃ w1 w1' w2 w2',
    run_GetAllQuorumMembers calls1 (World_new spork21 spork23 time watch) = Some w1 ∧
    run_GetAllQuorumMembers calls2 (World_new spork21' spork23' time' watch') = Some w2 ∧
    GetAllQuorumMembers llmqParams pindex w1 =
      Some (members_for llmqParams (GetBlockHash pindex), w1') ∧
    GetAllQuorumMembers llmqParams pindex' w2 =
      Some (members_for llmqParams (GetBlockHash pindex), w2').
Proof.
  intros Hc1 Hc2 Hp Hhash.
  assert (Hnew : ∀ a b c d, cache_coherent (mapQuorumMembers (World_new a b c d))).
  { intros a b c d t c' h l Hl. simpl in Hl. by rewrite lookup_empty in Hl. }
  destruct (run_GetAllQuorumMembers_coherent calls1 _ (Hnew spork21 spork23 time watch) Hc1)
    as (w1 & Hr1 & Hw1).
  destruct (run_GetAllQuorumMembers_coherent calls2 _ (Hnew spork21' spork23' time' watch') Hc2)
    as (w2 & Hr2 & Hw2).
  destruct (GetAllQuorumMembers_run llmqParams pindex w1 Hw1 Hp) as (m1 & Hg1 & _).
  destruct (GetAllQuorumMembers_run llmqParams pindex' w2 Hw2 Hp) as (m2 & Hg2 & _).
  rewrite <- Hhash in Hg2. eauto 10.
Qed.

End GetAllQuorumMembers_facts.

Lemma GetAllQuorumMembers_deterministic_witness :
  let H := test_externals in
  let calls1 := [(llmq_test, test_block 7)] in
  let calls2 := [(llmq_test, test_block 8); (llmq_test, test_block 7);
                 (llmq_test, test_block 9); (llmq_test, test_block 10)] in
  Forall (λ c, registered c.1) calls1 ∧
  Forall (λ c, registered c.1) calls2 ∧
  registered llmq_test ∧
  GetBlockHash (test_block 7) = GetBlockHash (test_block 7) ∧
  ∃ w1 w1' w2 w2',
    run_GetAllQuorumMembers calls1 (World_new 0 0 1000 false) = Some w1 ∧
    run_GetAllQuorumMembers calls2 (World_new 1 1 2000 true) = Some w2 ∧
    GetAllQuorumMembers llmq_test (test_block 7) w1 =
      Some (members_for llmq_test (GetBlockHash (test_block 7)), w1') ∧
    GetAllQuorumMembers llmq_test (test_block 7) w2 =
      Some (members_for llmq_test (GetBlockHash (test_block 7)), w2').
Proof.
  intros H calls1 calls2.
  assert (Hreg : registered llmq_test) by reflexivity.
  assert (H1 : Forall (λ c, registered c.1) calls1) by (repeat constructor).
  assert (H2 : Forall (λ c, registered c.1) calls2) by (repeat constructor).
  repeat split; try assumption.
  exact (GetAllQuorumMembers_deterministic calls1 calls2 0 0 1000 1 1 2000 false true
           llmq_test (test_block 7) (test_block 7) H1 H2 Hreg eq_refl).
Defined.

(** ** The all-connected planner *)

Section GetQuorumConnections_facts.

Context `{Externals}.

Lemma pair_hash_comm a b x : pair_hash a b x = pair_hash b a x.
Proof. unfold pair_hash. by rewrite Z.min_comm, Z.max_comm. Qed.

(** The function returns the first hash when its pair hash is strictly the
    smaller one, and the second hash otherwise, a tie included. *)
Lemma DeterministicOutboundConnection_spec a b :
  DeterministicOutboundConnection a b =
    if decide (pair_hash a b a < pair_hash a b b) then a else b.
Proof.
  unfold DeterministicOutboundConnection, pair_hash.
  destruct (decide (a < b)) as [Hlt|Hge].
  - by rewrite Z.min_l, Z.max_r by lia.
  - by rewrite Z.min_r, Z.max_l by lia.
Qed.

Lemma GetQuorumConnections_foldl forMember onlyOutbound mns (acc : gset uint256) x :
  x ∈ foldl (GetQuorumConnections_body forMember onlyOutbound) acc mns
  ↔ x ∈ acc ∨
    (is_member x mns ∧ x ≠ forMember ∧
     (onlyOutbound = false ∨ DeterministicOutboundConnection forMember x = x)).
Proof.
  revert acc. induction mns as [|dmn mns IH]; intros acc; simpl.
  - split; [by left|]. intros [?|[(d & Hd & _) _]]; [done|]. by apply elem_of_nil in Hd.
  - rewrite IH. clear IH. unfold is_member, GetQuorumConnections_body. split.
    + intros [Hacc|((d & Hd & Hx) & Hne & Hout)].
      * destruct (decide (proTxHash dmn = forMember)); [by left|].
        destruct (negb onlyOutbound || bool_decide
          (DeterministicOutboundConnection forMember (proTxHash dmn) = proTxHash dmn)) eqn:Hc;
          [|by left].
        apply elem_of_union in Hacc as [Hx|?]; [|by left].
        apply elem_of_singleton in Hx. subst x. right.
        split; [exists dmn; split; [left|done]|]. split; [done|].
        apply orb_true_iff in Hc as [Hc|Hc].
        -- left. by destruct onlyOutbound.
        -- right. by apply bool_decide_eq_true in Hc.
      * right. split; [exists d; split; [by right|done]|done].
    + intros [Hacc|((d & Hd & Hx) & Hne & Hout)].
      * left. destruct (decide (proTxHash dmn = forMember)); [done|].
        destruct (negb onlyOutbound || _); [|done]. set_solver.
      * apply elem_of_cons in Hd as [->|Hd].
        -- left. subst x. rewrite decide_False by done.
           assert (negb onlyOutbound || bool_decide
             (DeterministicOutboundConnection forMember (proTxHash dmn) = proTxHash dmn)
             = true) as ->; [|set_solver].
           destruct Hout as [->|Hout]; [done|].
           apply orb_true_iff. right. by apply bool_decide_eq_true.
        -- right. split; [by exists d|done].
Qed.

(** The set computed for [forMember]: the other members, and with
    [onlyOutbound] only those that [DeterministicOutboundConnection]
    returns. *)
Lemma GetQuorumConnections_for_elem forMember onlyOutbound mns x :
  x ∈ GetQuorumConnections_for forMember onlyOutbound mns ↔
  is_member x mns ∧ x ≠ forMember ∧
  (onlyOutbound = false ∨ DeterministicOutboundConnection forMember x = x).
Proof.
  unfold GetQuorumConnections_for. rewrite GetQuorumConnections_foldl. set_solver.
Qed.

(** With [onlyOutbound], [a] lists another member [b] exactly when the pair
    hash of [a] is not below the pair hash of [b]. *)
Lemma GetQuorumConnections_for_outbound a b mns :
  is_member b mns → a ≠ b →
  b ∈ GetQuorumConnections_for a true mns ↔ ¬ pair_hash a b a < pair_hash a b b.
Proof.
  intros Hb Hab. rewrite GetQuorumConnections_for_elem.
  rewrite DeterministicOutboundConnection_spec.
  split.
  - intros (_ & _ & [?|Hd]); [done|]. by case_decide.
  - intros Hnlt. split; [done|]. split; [done|]. right. by rewrite decide_False.
Qed.

(** In all-connected mode the call returns the set of the loop over the
    member list of the quorum. *)
Lemma GetQuorumConnections_run_all fuel llmqParams pindex forMember onlyOutbound w :
  cache_coherent (mapQuorumMembers w) → registered llmqParams →
  EvalSpork (Consensus.type llmqParams) (SPORK_21_QUORUM_ALL_CONNECTED w) = true →
  ∃ m, GetQuorumConnections fuel llmqParams pindex forMember onlyOutbound w =
         Some (GetQuorumConnections_for forMember onlyOutbound
                 (members_for llmqParams (GetBlockHash pindex)),
               with_mapQuorumMembers m w)
       ∧ cache_coherent m.
Proof.
  intros Hw Hreg Hspork.
  destruct (GetAllQuorumMembers_run llmqParams pindex w Hw Hreg) as (m & Hg & Hm).
  exists m. split; [|done].
  unfold GetQuorumConnections, IsAllMembersConnectedEnabled, bind, gets, ret.
  rewrite Hspork. by rewrite Hg.
Qed.

(** On a tie of the two pair hashes each of the two members lists the
    other. *)
Lemma GetQuorumConnections_for_tie a b mns :
  is_member a mns → is_member b mns → a ≠ b →
  pair_hash a b a = pair_hash a b b →
  b ∈ GetQuorumConnections_for a true mns ∧ a ∈ GetQuorumConnections_for b true mns.
Proof.
  intros Ha Hb Hab Htie. split.
  - apply GetQuorumConnections_for_outbound; [done..|]. lia.
  - apply GetQuorumConnections_for_outbound; [done..|].
    rewrite !(pair_hash_comm b a). lia.
Qed.

(** C1. Symmetric connectivity in all-connected mode: for two distinct
    members [a] and [b] of a quorum whose pair hashes differ, the outbound
    set that [GetQuorumConnections] computes for [a] (on the node of [a])
    contains [b] if and only if the outbound set it computes for [b] (on
    the node of [b]) does not contain [a]. *)
Theorem GetQuorumConnections_symmetric (fuel fuel' : nat)
    (llmqParams : Consensus.LLMQParams) (pindex : CBlockIndex) (a b : uint256)
    (wa wb : World) :
  cache_coherent (mapQuorumMembers wa) →
  cache_coherent (mapQuorumMembers wb) →
  registered llmqParams →
  EvalSpork (Consensus.type llmqParams) (SPORK_21_QUORUM_ALL_CONNECTED wa) = true →
  EvalSpork (Consensus.type llmqParams) (SPORK_21_QUORUM_ALL_CONNECTED wb) = true →
  is_member a (members_for llmqParams (GetBlockHash pindex)) →
  is_member b (members_for llmqParams (GetBlockHash pindex)) →
  a ≠ b →
  pair_hash a b a ≠ pair_hash a b b →
  ∃ Sa Sb wa' wb',
    GetQuorumConnections fuel llmqParams pindex a true wa = Some (Sa, wa') ∧
    GetQuorumConnections fuel' llmqParams pindex b true wb = Some (Sb, wb') ∧
    (b ∈ Sa ↔ a ∉ Sb).
Proof.
  intros Hwa Hwb Hreg Hsa Hsb Ha Hb Hab Hne.
  destruct (GetQuorumConnections_run_all fuel llmqParams pindex a true wa Hwa Hreg Hsa)
    as (ma & Hga & _).
  destruct (GetQuorumConnections_run_all fuel' llmqParams pindex b true wb Hwb Hreg Hsb)
    as (mb & Hgb & _).
  eexists _, _, _, _. split; [exact Hga|]. split; [exact Hgb|].
  rewrite (GetQuorumConnections_for_outbound a b) by done.
  rewrite (GetQuorumConnections_for_outbound b a) by done.
  rewrite !(pair_hash_comm b a). lia.
Qed.

End GetQuorumConnections_facts.

Lemma World_new_coherent `{Externals} spork21 spork23 time watch :
  cache_coherent (mapQuorumMembers (World_new spork21 spork23 time watch)).
Proof. intros t c h l Hl. simpl in Hl. by rewrite lookup_empty in Hl. Qed.

Lemma GetQuorumConnections_symmetric_witness :
  let H := test_externals in
  let wa := World_new 0 0 1000 false in
  let wb := World_new 1 0 1001 false in
  cache_coherent (mapQuorumMembers wa) ∧
  cache_coherent (mapQuorumMembers wb) ∧
  registered llmq_test ∧
  EvalSpork (Consensus.type llmq_test) (SPORK_21_QUORUM_ALL_CONNECTED wa) = true ∧
  EvalSpork (Consensus.type llmq_test) (SPORK_21_QUORUM_ALL_CONNECTED wb) = true ∧
  is_member 11 (members_for llmq_test (GetBlockHash (test_block 7))) ∧
  is_member 22 (members_for llmq_test (GetBlockHash (test_block 7))) ∧
  11 ≠ 22 ∧
  pair_hash 11 22 11 ≠ pair_hash 11 22 22 ∧
  ∃ Sa Sb wa' wb',
    GetQuorumConnections 0 llmq_test (test_block 7) 11 true wa = Some (Sa, wa') ∧
    GetQuorumConnections 0 llmq_test (test_block 7) 22 true wb = Some (Sb, wb') ∧
    (22 ∈ Sa ↔ 11 ∉ Sb).
Proof.
  intros H wa wb.
  assert (Hwa : cache_coherent (mapQuorumMembers wa)) by apply World_new_coherent.
  assert (Hwb : cache_coherent (mapQuorumMembers wb)) by apply World_new_coherent.
  assert (Hreg : registered llmq_test) by reflexivity.
  assert (Hsa : EvalSpork (Consensus.type llmq_test) (SPORK_21_QUORUM_ALL_CONNECTED wa) = true)
    by reflexivity.
  assert (Hsb : EvalSpork (Consensus.type llmq_test) (SPORK_21_QUORUM_ALL_CONNECTED wb) = true)
    by reflexivity.
  assert (Ha : is_member 11 (members_for llmq_test (GetBlockHash (test_block 7)))).
  { exists (test_mn 11). split; [|reflexivity]. vm_compute. left. }
  assert (Hb : is_member 22 (members_for llmq_test (GetBlockHash (test_block 7)))).
  { exists (test_mn 22). split; [|reflexivity]. vm_compute. right. left. }
  assert (Hab : 11 ≠ 22) by lia.
  assert (Hne : pair_hash 11 22 11 ≠ pair_hash 11 22 22) by (vm_compute; discriminate).
  repeat (split; [assumption|]).
  exact (GetQuorumConnections_symmetric 0 0 llmq_test (test_block 7) 11 22 wa wb
           Hwa Hwb Hreg Hsa Hsb Ha Hb Hab Hne).
Defined.

(** C2, evaluated.  Members 11, 22 and 33; the pair hash of 11 is below the
    pair hash of 22, and it is 22 that lists 11 in its outbound set, while
    the outbound set of 11 is empty. *)
Example GetQuorumConnections_smaller_hash_waits :
  let H := test_externals in
  let w := World_new 0 0 1000 false in
  members_for llmq_test (GetBlockHash (test_block 7)) = test_mn <$> [11; 22; 33] ∧
  pair_hash 11 22 11 < pair_hash 11 22 22 ∧
  fst <$> GetQuorumConnections 0 llmq_test (test_block 7) 11 true w = Some ∅ ∧
  fst <$> GetQuorumConnections 0 llmq_test (test_block 7) 22 true w = Some {[11]}.
Proof.
  intros H w. split; [reflexivity|]. split; [reflexivity|].
  split; vm_compute; reflexivity.
Qed.

(** ** The ring-relay planner *)

Lemma to_int_small x : - 2 ^ 31 ≤ x < 2 ^ 31 → to_int x = x.
Proof. intros Hx. unfold to_int. rewrite Z.mod_small; lia. Qed.

Lemma to_size_t_small x : 0 ≤ x < 2 ^ 64 → to_size_t x = x.
Proof. intros Hx. unfold to_size_t. by rewrite Z.mod_small. Qed.

Lemma to_int64_small x : - 2 ^ 63 ≤ x < 2 ^ 63 → to_int64 x = x.
Proof. intros Hx. unfold to_int64. rewrite Z.mod_small; lia. Qed.

Lemma k_max_bound n : 2 ≤ n ≤ INT_MAX → 1 ≤ k_max n ≤ 29.
Proof.
  intros Hn. unfold k_max, INT_MAX in *.
  assert (Z.log2 (n - 1) ≤ Z.log2 2147483646) by (apply Z.log2_le_mono; lia).
  assert (Z.log2 2147483646 = 30) by reflexivity. lia.
Qed.

(** The loop condition in round [k]: the shifted [gap_max] is not zero, or
    [k ≤ 1]. *)
Lemma calcOutbound_condition n k :
  2 ≤ n → 0 ≤ k →
  bool_decide (Z.shiftr (Z.shiftr (n - 1) k) 1 ≠ 0) || bool_decide (k ≤ 1) = true
  ↔ k ≤ k_max n.
Proof.
  intros Hn Hk. rewrite Z.shiftr_shiftr by lia. rewrite Z.shiftr_div_pow2 by lia.
  rewrite orb_true_iff, !bool_decide_eq_true. unfold k_max.
  assert (Hpow : 0 < 2 ^ (k + 1)) by (apply Z.pow_pos_nonneg; lia).
  assert (Hdiv : (n - 1) / 2 ^ (k + 1) ≠ 0 ↔ k + 1 ≤ Z.log2 (n - 1)).
  { rewrite <- Z.log2_le_pow2 by lia. split.
    - intros Hnz. destruct (decide (2 ^ (k + 1) ≤ n - 1)); [done|].
      elim Hnz. apply Z.div_small. lia.
    - intros Hle Hz. apply Z.div_small_iff in Hz; lia. }
  rewrite Hdiv. lia.
Qed.

Section calcOutbound_facts.

Context `{Externals}.
Variables (mns : list CDeterministicMN) (i : Z) (forHash : uint256).
Hypothesis Hn : 2 ≤ Z.of_nat (length mns) ≤ INT_MAX.
Hypothesis Hi : 0 ≤ i < Z.of_nat (length mns).

Local Abbreviation n := (Z.of_nat (length mns)).

Lemma ring_index_lookup k :
  ∃ dmn, mns !! Z.to_nat ((i + 2 ^ k) mod n) = Some dmn.
Proof.
  apply lookup_lt_is_Some_2.
  pose proof (Z.mod_pos_bound (i + 2 ^ k) n ltac:(lia)). lia.
Qed.

(** From round [k] on, with [gap = 2^k] and [gap_max = (n-1) >> k], the loop
    runs the rounds [k .. k_max n] and adds the hashes found at their
    indices, [forHash] excepted. *)
Lemma calcOutbound_loop_spec (steps : nat) :
  ∀ k (r : gset uint256) fuel,
    0 ≤ k → Z.of_nat steps = k_max n + 1 - k → (steps < fuel)%nat →
    ∃ r', calcOutbound_loop fuel mns i forHash (2 ^ k) (Z.shiftr (n - 1) k) k r = Some r' ∧
          ∀ x, x ∈ r' ↔
               x ∈ r ∨ ∃ k' dmn, k ≤ k' ≤ k_max n ∧
                         mns !! Z.to_nat ((i + 2 ^ k') mod n) = Some dmn ∧
                         proTxHash dmn = x ∧ x ≠ forHash.
Proof.
  pose proof (k_max_bound n Hn) as HK.
  induction steps as [|steps IH]; intros k r fuel Hk Hsteps Hfuel.
  - destruct fuel as [|fuel]; [lia|]. simpl.
    destruct (bool_decide _ || bool_decide _) eqn:Hc.
    + apply calcOutbound_condition in Hc; lia.
    + exists r. split; [done|]. intros x. split; [by left|].
      intros [?|(k' & ? & ? & _)]; [done|lia].
  - destruct fuel as [|fuel]; [lia|]. simpl.
    assert (Hc : bool_decide (Z.shiftr (Z.shiftr (n - 1) k) 1 ≠ 0) || bool_decide (k ≤ 1) = true)
      by (apply calcOutbound_condition; lia).
    rewrite Hc. rewrite decide_False by lia.
    assert (Hpow : 0 < 2 ^ k ≤ 2 ^ 29) by
      (split; [apply Z.pow_pos_nonneg; lia | apply Z.pow_le_mono_r; lia]).
    unfold INT_MAX in Hn.
    rewrite to_size_t_small by lia.
    destruct (ring_index_lookup k) as [dmn Hdmn]. rewrite Hdmn.
    rewrite Z.shiftr_shiftr by lia.
    rewrite Z.shiftl_mul_pow2 by lia.
    replace (2 ^ k * 2 ^ 1) with (2 ^ (k + 1)) by (rewrite Z.pow_add_r; lia).
    assert (2 ^ (k + 1) = 2 * 2 ^ k) by (rewrite Z.pow_add_r; lia).
    rewrite (to_int_small (2 ^ (k + 1))) by lia.
    rewrite (to_int_small (k + 1)) by lia.
    destruct (decide (proTxHash dmn = forHash)) as [Heq|Hne].
    + destruct (IH (k + 1) r fuel) as (r' & Hr' & Hin); [lia..|].
      exists r'. split; [done|]. intros x. rewrite Hin. split.
      * intros [?|(k' & d & ? & ? & ? & ?)]; [by left|]. right. exists k', d. split; [lia|done].
      * intros [?|(k' & d & Hk' & Hd & Hx & Hxn)]; [by left|]. right.
        exists k', d. split; [|done].
        destruct (decide (k' = k)) as [->|]; [|lia]. congruence.
    + destruct (IH (k + 1) ({[proTxHash dmn]} ∪ r) fuel) as (r' & Hr' & Hin); [lia..|].
      exists r'. split; [done|]. intros x. rewrite Hin. rewrite elem_of_union, elem_of_singleton.
      split.
      * intros [[->|?]|(k' & d & ? & ? & ? & ?)].
        -- right. exists k, dmn. split; [lia|done].
        -- by left.
        -- right. exists k', d. split; [lia|done].
      * intros [?|(k' & d & Hk' & Hd & Hx & Hxn)]; [left; by right|].
        destruct (decide (k' = k)) as [->|].
        -- left. left. congruence.
        -- right. exists k', d. split; [lia|done].
Qed.

(** [calcOutbound] returns, with enough fuel, the hashes at the indices
    [(i + 2^k) mod n] for [0 ≤ k ≤ k_max n] other than [forHash]. *)
Lemma calcOutbound_spec fuel :
  (32 ≤ fuel)%nat →
  ∃ r, calcOutbound fuel mns i forHash = Some r ∧
       ∀ x, x ∈ r ↔
            ∃ k dmn, 0 ≤ k ≤ k_max n ∧
                     mns !! Z.to_nat ((i + 2 ^ k) mod n) = Some dmn ∧
                     proTxHash dmn = x ∧ x ≠ forHash.
Proof.
  intros Hfuel. pose proof (k_max_bound n Hn) as HK. unfold calcOutbound.
  unfold INT_MAX in Hn.
  rewrite (to_int_small n) by lia. rewrite to_int_small by lia.
  destruct (calcOutbound_loop_spec (Z.to_nat (k_max n + 1)) 0 ∅ fuel) as (r & Hr & Hin);
    [lia..|].
  rewrite Z.shiftr_0_r in Hr. exists r. split; [exact Hr|].
  intros x. rewrite Hin. split; [|by right]. intros [?|?]; [set_solver|done].
Qed.

End calcOutbound_facts.

(** The ring of nine members 10, 20, …, 90 (so [k_max 9 = 2]), computed:
    the member at index 7 relays to the indices 8, 0 and 2; in a ring of two
    the only neighbour is the other member; in a ring of one there is none. *)
Example calcOutbound_run :
  let mns := test_mn <$> [10; 20; 30; 40; 50; 60; 70; 80; 90] in
  k_max 9 = 2 ∧
  calcOutbound 32 mns 7 80 = Some {[90; 10; 30]} ∧
  calcOutbound 32 mns 0 10 = Some {[20; 30; 50]} ∧
  calcOutbound 32 (test_mn <$> [10; 20]) 1 20 = Some {[10]} ∧
  calcOutbound 32 (test_mn <$> [10]) 0 10 = Some ∅ ∧
  calcOutbound 2 mns 0 10 = None.
Proof. repeat split; vm_compute; reflexivity. Qed.

Section GetQuorumRelayMembers_facts.

Context `{Externals}.

(** With [onlyOutbound] the loop over the members calls [calcOutbound] at
    the one index that holds [forMember], if it is among those that remain. *)
Lemma GetQuorumRelayMembers_for_outbound fuel mns forMember i r :
  calcOutbound fuel mns i forMember = Some r →
  ∀ rest j (result : gset uint256),
    (∀ p d, rest !! p = Some d → proTxHash d = forMember ↔ j + Z.of_nat p = i) →
    GetQuorumRelayMembers_for fuel mns forMember true rest j result =
      Some (if decide (j ≤ i < j + Z.of_nat (length rest)) then r ∪ result else result).
Proof.
  intros Hr. induction rest as [|dmn rest IH]; intros j result Hrest; simpl.
  - by rewrite decide_False by lia.
  - destruct (decide (proTxHash dmn = forMember)) as [Heq|Hne].
    + assert (j = i) as -> by (apply (Hrest 0%nat dmn) in Heq; [lia|done]).
      rewrite Heq, Hr. rewrite IH.
      * rewrite decide_False by lia. by rewrite decide_True by lia.
      * intros p d Hd. rewrite (Hrest (S p) d Hd). lia.
    + rewrite IH.
      * assert (j ≠ i) by (intros ->; apply Hne, (Hrest 0%nat dmn); [done|lia]).
        destruct (decide (j + 1 ≤ i < j + 1 + Z.of_nat (length rest))).
        -- by rewrite decide_True by lia.
        -- by rewrite decide_False by lia.
      * intros p d Hd. rewrite (Hrest (S p) d Hd). lia.
Qed.

(** In a list without repeated hashes a hash names one index. *)
Lemma proTxHash_index (mns : list CDeterministicMN) (i p : nat) dmn d :
  NoDup (proTxHash <$> mns) →
  mns !! i = Some dmn → mns !! p = Some d →
  proTxHash d = proTxHash dmn ↔ p = i.
Proof.
  intros Hnd Hi Hp. split.
  - intros Heq. eapply NoDup_lookup; [exact Hnd| |].
    + rewrite list_lookup_fmap, Hp. reflexivity.
    + rewrite list_lookup_fmap, Hi. simpl. by rewrite Heq.
  - intros ->. congruence.
Qed.

(** C3. The ring-relay set of the member at index [i] of a list of
    [n ≥ 2] members (an [int] for their number, hashes not repeated): with
    enough fuel [GetQuorumRelayMembers] returns, with [onlyOutbound], exactly
    the hashes of the members at the indices [(i + 2^k) mod n],
    [0 ≤ k ≤ max(1, ⌊log₂(n−1)⌋ − 1)], that differ from [i]; the member
    itself is not in the set. *)
Theorem GetQuorumRelayMembers_ring (fuel : nat) (llmqParams : Consensus.LLMQParams)
    (pindex : CBlockIndex) (w : World) (i : Z) (dmn : CDeterministicMN) :
  cache_coherent (mapQuorumMembers w) →
  registered llmqParams →
  NoDup (proTxHash <$> members_for llmqParams (GetBlockHash pindex)) →
  2 ≤ Z.of_nat (length (members_for llmqParams (GetBlockHash pindex))) ≤ INT_MAX →
  0 ≤ i →
  members_for llmqParams (GetBlockHash pindex) !! Z.to_nat i = Some dmn →
  (32 ≤ fuel)%nat →
  ∃ S w',
    GetQuorumRelayMembers fuel llmqParams pindex (proTxHash dmn) true w = Some (S, w') ∧
    (∀ x, x ∈ S ↔ relay_neighbour (members_for llmqParams (GetBlockHash pindex)) i x) ∧
    proTxHash dmn ∉ S.
Proof.
  intros Hw Hreg Hnd Hn Hi0 Hi Hfuel.
  set (mns := members_for llmqParams (GetBlockHash pindex)) in *.
  assert (Hin : 0 ≤ i < Z.of_nat (length mns)).
  { apply lookup_lt_Some in Hi. lia. }
  destruct (calcOutbound_spec mns i (proTxHash dmn) Hn Hin fuel Hfuel) as (r & Hr & Hspec).
  destruct (GetAllQuorumMembers_run llmqParams pindex w Hw Hreg) as (m & Hg & _).
  exists r. eexists. split; [|split].
  - unfold GetQuorumRelayMembers, bind, lift. rewrite Hg. fold mns.
    rewrite (GetQuorumRelayMembers_for_outbound fuel mns (proTxHash dmn) i r Hr).
    + rewrite decide_True by lia. by rewrite (right_id_L ∅ (∪)).
    + intros p d Hp. rewrite (proTxHash_index mns (Z.to_nat i) p dmn d Hnd Hi Hp). lia.
  - intros x. rewrite Hspec. unfold relay_neighbour. split.
    + intros (k & d & Hk & Hd & Hx & Hne). exists k, d. repeat split; try done; try lia.
      intros Hidx. rewrite Hidx in Hd. apply Hne. congruence.
    + intros (k & d & Hk & Hidx & Hd & Hx). exists k, d. repeat split; try done; try lia.
      intros Heq. apply Hidx. subst x.
      pose proof (Z.mod_pos_bound (i + 2 ^ k) (Z.of_nat (length mns)) ltac:(lia)).
      apply (proTxHash_index mns (Z.to_nat i) _ dmn d Hnd Hi Hd) in Heq. lia.
  - rewrite Hspec. intros (k & d & _ & _ & _ & Hne). done.
Qed.

End GetQuorumRelayMembers_facts.

Lemma GetQuorumRelayMembers_ring_witness :
  let H := test_externals in
  let w := World_new 1 0 1000 false in
  let mns := members_for llmq_test (GetBlockHash (test_block 7)) in
  cache_coherent (mapQuorumMembers w) ∧
  registered llmq_test ∧
  NoDup (proTxHash <$> mns) ∧
  2 ≤ Z.of_nat (length mns) ≤ INT_MAX ∧
  0 ≤ 2 ∧
  mns !! Z.to_nat 2 = Some (test_mn 33) ∧
  (32 ≤ 32)%nat ∧
  ∃ S w',
    GetQuorumRelayMembers 32 llmq_test (test_block 7) (proTxHash (test_mn 33)) true w
      = Some (S, w') ∧
    (∀ x, x ∈ S ↔ relay_neighbour mns 2 x) ∧
    proTxHash (test_mn 33) ∉ S.
Proof.
  intros H w mns.
  assert (Hw : cache_coherent (mapQuorumMembers w)) by apply World_new_coherent.
  assert (Hreg : registered llmq_test) by reflexivity.
  assert (Hnd : NoDup (proTxHash <$> mns)) by (vm_compute; repeat constructor; set_solver).
  assert (Hn : 2 ≤ Z.of_nat (length mns) ≤ INT_MAX) by (vm_compute; split; discriminate).
  assert (Hi0 : 0 ≤ 2) by lia.
  assert (Hi : mns !! Z.to_nat 2 = Some (test_mn 33)) by reflexivity.
  assert (Hfuel : (32 ≤ 32)%nat) by lia.
  repeat (split; [assumption|]).
  exact (GetQuorumRelayMembers_ring 32 llmq_test (test_block 7) w 2 (test_mn 33)
           Hw Hreg Hnd Hn Hi0 Hi Hfuel).
Defined.

(** ** Watch connections *)

Section CalcDeterministicWatchConnections_facts.

Context `{Externals}.

Lemma CalcDeterministicWatchConnections_for_bound (connectionCount : nat) llmqType blockHash
    memberCount :
  1 ≤ memberCount →
  ∀ rnd (result : gset Z),
    ∃ S, CalcDeterministicWatchConnections_for connectionCount llmqType blockHash
           memberCount rnd result = Some S ∧
         ∀ idx, idx ∈ S →
                idx ∈ result ∨
                (∃ r, idx = Z.of_N (GetUint64 r) mod memberCount) ∧ 0 ≤ idx < memberCount.
Proof.
  intros Hm. induction connectionCount as [|c IH]; intros rnd result; simpl.
  - exists result. split; [done|]. by left.
  - rewrite decide_False by lia.
    destruct (IH (SerializeHash_nested rnd llmqType blockHash)
                ({[Z.of_N (GetUint64 (SerializeHash_nested rnd llmqType blockHash))
                   mod memberCount]} ∪ result)) as (S & HS & Hin).
    exists S. split; [done|]. intros idx Hidx.
    destruct (Hin idx Hidx) as [Hu|?]; [|by right].
    apply elem_of_union in Hu as [Hs|?]; [|by left].
    apply elem_of_singleton in Hs. subst idx. right.
    split; [by eexists|]. apply Z.mod_pos_bound. lia.
Qed.

Lemma CalcDeterministicWatchConnections_for_zero (connectionCount : nat) llmqType blockHash
    rnd (result : gset Z) :
  (0 < connectionCount)%nat →
  CalcDeterministicWatchConnections_for connectionCount llmqType blockHash 0 rnd result = None.
Proof. destruct connectionCount; [lia|]. done. Qed.

Lemma CalcDeterministicWatchConnections_run llmqType pindex memberCount connectionCount w :
  CalcDeterministicWatchConnections llmqType pindex memberCount connectionCount w =
    match CalcDeterministicWatchConnections_for (Z.to_nat connectionCount) llmqType
            (GetBlockHash pindex) memberCount (process_seed w) ∅ with
    | Some result => Some (result, seeded w)
    | None => None
    end.
Proof.
  unfold CalcDeterministicWatchConnections, process_seed, seeded, bind, gets, lift, ret, modify.
  by destruct (qwatchConnectionSeedGenerated w).
Qed.

(** With one connection the set is the first index of the walk. *)
Lemma CalcDeterministicWatchConnections_one llmqType pindex memberCount w :
  memberCount ≠ 0 →
  CalcDeterministicWatchConnections llmqType pindex memberCount 1 w =
    Some ({[watch_index (process_seed w) llmqType (GetBlockHash pindex) memberCount]},
          seeded w).
Proof.
  intros Hm. rewrite CalcDeterministicWatchConnections_run. simpl.
  rewrite decide_False by done. by rewrite (right_id_L ∅ (∪)).
Qed.

(** C10. [CalcDeterministicWatchConnections] has no guard on
    [memberCount]: with [memberCount ≥ 1] the call returns, and every index
    of the set is a [uint64_t] taken from a hash and reduced modulo
    [memberCount], hence below [memberCount]; with [memberCount = 0] and at
    least one connection asked for, the run divides by zero. *)
Theorem CalcDeterministicWatchConnections_in_range (llmqType : Z) (pindex : CBlockIndex)
    (memberCount connectionCount : Z) (w : World) :
  1 ≤ memberCount →
  (∃ S w', CalcDeterministicWatchConnections llmqType pindex memberCount connectionCount w
             = Some (S, w') ∧
           ∀ idx, idx ∈ S →
                  (∃ r, idx = Z.of_N (GetUint64 r) mod memberCount) ∧ 0 ≤ idx < memberCount) ∧
  (1 ≤ connectionCount →
   CalcDeterministicWatchConnections llmqType pindex 0 connectionCount w = None).
Proof.
  intros Hm. split.
  - rewrite CalcDeterministicWatchConnections_run.
    destruct (CalcDeterministicWatchConnections_for_bound (Z.to_nat connectionCount) llmqType
                (GetBlockHash pindex) memberCount Hm (process_seed w) ∅) as (S & -> & Hin).
    exists S, (seeded w). split; [done|]. intros idx Hidx.
    destruct (Hin idx Hidx) as [?|?]; [set_solver|done].
  - intros Hc. rewrite CalcDeterministicWatchConnections_run.
    rewrite CalcDeterministicWatchConnections_for_zero; [done|lia].
Qed.

End CalcDeterministicWatchConnections_facts.

Lemma CalcDeterministicWatchConnections_in_range_witness :
  let H := test_externals in
  let w := World_new 0 0 1000 true in
  1 ≤ 3 ∧
  (∃ S w', CalcDeterministicWatchConnections 100 (test_block 7) 3 4 w = Some (S, w') ∧
           ∀ idx, idx ∈ S → (∃ r, idx = Z.of_N (GetUint64 r) mod 3) ∧ 0 ≤ idx < 3) ∧
  (1 ≤ 4 → CalcDeterministicWatchConnections 100 (test_block 7) 0 4 w = None).
Proof.
  intros H w. assert (Hm : 1 ≤ 3) by lia.
  split; [assumption|].
  exact (CalcDeterministicWatchConnections_in_range 100 (test_block 7) 3 4 w Hm).
Defined.

Section EnsureQuorumConnections_facts.

Context `{Externals}.

Lemma existsb_is_member myProTxHash mns :
  ¬ is_member myProTxHash mns →
  existsb (λ dmn, bool_decide (proTxHash dmn = myProTxHash)) mns = false.
Proof.
  intros Hnot. apply not_true_is_false. intros Hex.
  apply existsb_exists in Hex as (dmn & Hin & Hd).
  apply bool_decide_eq_true in Hd. apply Hnot. exists dmn.
  split; [by apply list_elem_of_In|done].
Qed.

(** C7. Watch mode: for a node that is not a member of a (non-empty)
    quorum and that watches quorums, the watch computation with one
    connection returns the single index [H(seed ‖ (type ‖ blockHash)) mod n],
    which is below [n], and [EnsureQuorumConnections] declares exactly the
    member at that index to the connection manager, as the quorum nodes and
    as the relay members of the quorum; the seed of the process is fixed
    from then on. *)
Theorem EnsureQuorumConnections_watch (fuel : nat) (llmqParams : Consensus.LLMQParams)
    (pindex : CBlockIndex) (myProTxHash : uint256) (w : World) :
  let mns := members_for llmqParams (GetBlockHash pindex) in
  let n := Z.of_nat (length mns) in
  let idx := watch_index (process_seed w) (Consensus.type llmqParams) (GetBlockHash pindex) n in
  cache_coherent (mapQuorumMembers w) →
  registered llmqParams →
  ¬ is_member myProTxHash mns →
  fIsWatchQuroumsEnabled w = true →
  1 ≤ n →
  ∃ dmn w1 w',
    CalcDeterministicWatchConnections (Consensus.type llmqParams) pindex n 1 w
      = Some ({[idx]}, w1) ∧
    0 ≤ idx < n ∧
    mns !! Z.to_nat idx = Some dmn ∧
    EnsureQuorumConnections fuel llmqParams pindex myProTxHash w = Some (true, w') ∧
    masternodeQuorumNodes (connman w') !! (Consensus.type llmqParams, GetBlockHash pindex)
      = Some {[proTxHash dmn]} ∧
    masternodeQuorumRelayMembers (connman w') !! (Consensus.type llmqParams, GetBlockHash pindex)
      = Some {[proTxHash dmn]} ∧
    qwatchConnectionSeedGenerated w' = true ∧
    qwatchConnectionSeed w' = process_seed w.
Proof.
  intros mns n idx Hw Hreg Hnot Hwatch Hn.
  assert (Hidx : 0 ≤ idx < n) by (apply Z.mod_pos_bound; lia).
  destruct (lookup_lt_is_Some_2 mns (Z.to_nat idx)) as [dmn Hdmn]; [lia|].
  destruct (GetAllQuorumMembers_run llmqParams pindex w Hw Hreg) as (m & Hg & _).
  exists dmn, (seeded w). eexists. split; [|split; [|split; [|split]]].
  - apply CalcDeterministicWatchConnections_one. lia.
  - done.
  - done.
  - unfold EnsureQuorumConnections, bind. rewrite Hg. fold mns.
    rewrite (existsb_is_member _ _ Hnot).
    unfold IsWatchQuorumsEnabled, gets. simpl. rewrite Hwatch. simpl.
    rewrite CalcDeterministicWatchConnections_one by lia.
    fold n. simpl.
    change (process_seed (with_mapQuorumMembers m w)) with (process_seed w). fold idx.
    unfold lift. rewrite elements_singleton. simpl. rewrite Hdmn.
    unfold ret. simpl.
    rewrite (right_id_L ∅ (∪)).
    rewrite decide_False by (apply non_empty_singleton_L).
    unfold modify. simpl. reflexivity.
  - simpl. rewrite !lookup_insert_eq.
    unfold seeded, process_seed. simpl.
    by destruct (qwatchConnectionSeedGenerated w) eqn:Hgen.
Qed.

End EnsureQuorumConnections_facts.

Lemma EnsureQuorumConnections_watch_witness :
  let H := test_externals in
  let w := World_new 0 0 1000 true in
  let mns := members_for llmq_test (GetBlockHash (test_block 7)) in
  let n := Z.of_nat (length mns) in
  let idx := watch_index (process_seed w) (Consensus.type llmq_test)
               (GetBlockHash (test_block 7)) n in
  cache_coherent (mapQuorumMembers w) ∧
  registered llmq_test ∧
  ¬ is_member 99 mns ∧
  fIsWatchQuroumsEnabled w = true ∧
  1 ≤ n ∧
  ∃ dmn w1 w',
    CalcDeterministicWatchConnections (Consensus.type llmq_test) (test_block 7) n 1 w
      = Some ({[idx]}, w1) ∧
    0 ≤ idx < n ∧
    mns !! Z.to_nat idx = Some dmn ∧
    EnsureQuorumConnections 0 llmq_test (test_block 7) 99 w = Some (true, w') ∧
    masternodeQuorumNodes (connman w') !! (Consensus.type llmq_test, GetBlockHash (test_block 7))
      = Some {[proTxHash dmn]} ∧
    masternodeQuorumRelayMembers (connman w')
      !! (Consensus.type llmq_test, GetBlockHash (test_block 7))
      = Some {[proTxHash dmn]} ∧
    qwatchConnectionSeedGenerated w' = true ∧
    qwatchConnectionSeed w' = process_seed w.
Proof.
  intros H w mns n idx.
  assert (Hw : cache_coherent (mapQuorumMembers w)) by apply World_new_coherent.
  assert (Hreg : registered llmq_test) by reflexivity.
  assert (Hnot : ¬ is_member 99 mns).
  { intros (d & Hin & Hd).
    change mns with (test_mn <$> [11; 22; 33]) in Hin. simpl in Hin.
    repeat (apply elem_of_cons in Hin as [->|Hin]; [discriminate|]).
    by apply elem_of_nil in Hin. }
  assert (Hwatch : fIsWatchQuroumsEnabled w = true) by reflexivity.
  assert (Hn : 1 ≤ n) by (vm_compute; discriminate).
  repeat (split; [assumption|]).
  exact (EnsureQuorumConnections_watch 0 llmq_test (test_block 7) 99 w
           Hw Hreg Hnot Hwatch Hn).
Defined.

(** The watch connection of the test instance, computed: the seed is the
    first draw, 1000, its hash with [(100, 7)] is 32792, and the index is
    [32792 mod 3 = 2], the member 33. *)
Example EnsureQuorumConnections_watch_run :
  let H := test_externals in
  let w := World_new 0 0 1000 true in
  (λ r, (r.1, masternodeQuorumNodes (connman r.2), qwatchConnectionSeed r.2))
    <$> EnsureQuorumConnections 0 llmq_test (test_block 7) 99 w
  = Some (true, {[(100, 7) := {[33]}]}, 1000).
Proof. vm_compute. reflexivity. Qed.

(** ** Probe connections *)

Section AddQuorumProbeConnections_facts.

Context `{Externals}.

(** [GetMetaInfo] with [fCreate] returns the meta information of the
    masternode; it may store a fresh entry, which changes the meta
    information of no masternode. *)
Lemma GetMetaInfo_run hash w :
  ∃ infos, GetMetaInfo hash true w = Some (Some (meta_info w hash), with_metaInfos infos w) ∧
           ∀ y, meta_info (with_metaInfos infos w) y = meta_info w y.
Proof.
  unfold GetMetaInfo, bind, gets, meta_info.
  destruct (metaInfos w !! hash) as [info|] eqn:Hinfo; simpl.
  - exists (metaInfos w). split; [by destruct w|done].
  - eexists. split; [reflexivity|]. intros y. simpl.
    destruct (decide (hash = y)) as [->|Hne].
    + by rewrite lookup_insert_eq, Hinfo.
    + by rewrite lookup_insert_ne.
Qed.

Lemma AddQuorumProbeConnections_for_run members myProTxHash curTime :
  ∀ (probeConnections : gset uint256) w,
    ∃ probes infos,
      AddQuorumProbeConnections_for members myProTxHash curTime probeConnections w
        = Some (probes, with_metaInfos infos w) ∧
      (∀ y, meta_info (with_metaInfos infos w) y = meta_info w y) ∧
      ∀ x, x ∈ probes ↔
           x ∈ probeConnections ∨
           (is_member x members ∧ x ≠ myProTxHash ∧
            to_int64 (curTime - GetLastOutboundSuccess (meta_info w x)) > 600).
Proof.
  induction members as [|dmn rest IH]; intros probeConnections w; simpl.
  - exists probeConnections, (metaInfos w). split; [by destruct w|]. split; [done|].
    intros x. split; [by left|]. intros [?|[(d & Hd & _) _]]; [done|].
    by apply elem_of_nil in Hd.
  - assert (Hmem : ∀ x, is_member x (dmn :: rest) ↔ proTxHash dmn = x ∨ is_member x rest).
    { intros x. unfold is_member. split.
      - intros (d & Hd & Hx). apply elem_of_cons in Hd as [->|Hd]; [by left|right; eauto].
      - intros [Hx|(d & Hd & Hx)]; [exists dmn; split; [left|done]|].
        exists d. split; [by right|done]. }
    destruct (decide (proTxHash dmn = myProTxHash)) as [Heq|Hne].
    + destruct (IH probeConnections w) as (probes & infos & Hrun & Hmeta & Hin).
      exists probes, infos. split; [done|]. split; [done|].
      intros x. rewrite Hin, Hmem. split; [naive_solver|].
      intros [?|([Hx|?] & ? & ?)]; [by left|congruence|by right].
    + unfold bind. destruct (GetMetaInfo_run (proTxHash dmn) w) as (infos1 & -> & Hmeta1).
      change (10 * 60) with 600.
      destruct (decide (to_int64 (curTime - GetLastOutboundSuccess
                                             (meta_info w (proTxHash dmn))) > 600))
        as [Hold|Hfresh].
      * destruct (IH ({[proTxHash dmn]} ∪ probeConnections) (with_metaInfos infos1 w))
          as (probes & infos & Hrun & Hmeta & Hin).
        exists probes, infos. split; [exact Hrun|]. split.
        { intros y. rewrite <- Hmeta1. apply Hmeta. }
        intros x. rewrite Hin, Hmem, elem_of_union, elem_of_singleton.
        rewrite Hmeta1. split.
        -- intros [[->|?]|(? & ? & ?)]; [right|by left|right]; naive_solver.
        -- intros [?|([<-|?] & ? & ?)]; [left; by right|left; by left|by right].
      * destruct (IH probeConnections (with_metaInfos infos1 w))
          as (probes & infos & Hrun & Hmeta & Hin).
        exists probes, infos. split; [exact Hrun|]. split.
        { intros y. rewrite <- Hmeta1. apply Hmeta. }
        intros x. rewrite Hin, Hmem. rewrite Hmeta1. split.
        -- intros [?|(? & ? & ?)]; [by left|right]; naive_solver.
        -- intros [?|([<-|?] & ? & ?)]; [by left|done|by right].
Qed.

(** C8. Probe connections: when the [QUORUM_POSE] spork is not active for
    the quorum type nothing changes; when it is active, what the call adds
    to the pending probes of the connection manager is exactly the set of
    the members, other than the local node, whose last successful outbound
    connection is more than 600 seconds before the adjusted time.  The
    times are [int64_t]: the statement is for the members whose time
    difference is an [int64_t] as well, the range in which the subtraction
    of the code does not overflow. *)
Theorem AddQuorumProbeConnections_stale (llmqParams : Consensus.LLMQParams)
    (pindex : CBlockIndex) (myProTxHash : uint256) (w : World) :
  cache_coherent (mapQuorumMembers w) →
  registered llmqParams →
  (∀ dmn, dmn ∈ members_for llmqParams (GetBlockHash pindex) →
          - 2 ^ 63 ≤ adjustedTime w - GetLastOutboundSuccess (meta_info w (proTxHash dmn))
          < 2 ^ 63) →
  ∃ w', AddQuorumProbeConnections llmqParams pindex myProTxHash w = Some (tt, w') ∧
        if EvalSpork (Consensus.type llmqParams) (SPORK_23_QUORUM_POSE w) then
          ∃ probes : gset uint256,
            masternodePendingProbes (connman w')
              = probes ∪ masternodePendingProbes (connman w) ∧
            ∀ x, x ∈ probes ↔
                 stale_member w (members_for llmqParams (GetBlockHash pindex)) myProTxHash x
        else w' = w.
Proof.
  intros Hw Hreg Hrange. unfold AddQuorumProbeConnections, IsQuorumPoseEnabled, bind, gets.
  simpl. destruct (EvalSpork _ _); simpl; [|by exists w].
  destruct (GetAllQuorumMembers_run llmqParams pindex w Hw Hreg) as (m & -> & _).
  simpl.
  destruct (AddQuorumProbeConnections_for_run
              (members_for llmqParams (GetBlockHash pindex)) myProTxHash (adjustedTime w)
              ∅ (with_mapQuorumMembers m w)) as (probes & infos & -> & _ & Hin).
  assert (Hstale : ∀ x, x ∈ probes ↔
            stale_member w (members_for llmqParams (GetBlockHash pindex)) myProTxHash x).
  { intros x. rewrite Hin. unfold stale_member. split.
    - intros [?|(Hx & Hne & Hold)]; [set_solver|]. split; [done|]. split; [done|].
      destruct Hx as (dmn & Hdmn & <-).
      change (to_int64 (adjustedTime w -
                        GetLastOutboundSuccess (meta_info w (proTxHash dmn))) > 600) in Hold.
      by rewrite (to_int64_small _ (Hrange dmn Hdmn)) in Hold.
    - intros (Hx & Hne & Hold). right. split; [done|]. split; [done|].
      destruct Hx as (dmn & Hdmn & <-).
      change (to_int64 (adjustedTime w -
                        GetLastOutboundSuccess (meta_info w (proTxHash dmn))) > 600).
      by rewrite (to_int64_small _ (Hrange dmn Hdmn)). }
  destruct (decide (probes = ∅)) as [Hempty|Hnonempty].
  - eexists. split; [reflexivity|]. exists probes. split; [|done].
    simpl. rewrite Hempty. by rewrite (left_id_L ∅ (∪)).
  - eexists. split; [reflexivity|]. exists probes. by split.
Qed.

End AddQuorumProbeConnections_facts.

Lemma AddQuorumProbeConnections_stale_witness :
  let H := test_externals in
  let w := test_world 0 0 false in
  cache_coherent (mapQuorumMembers w) ∧
  registered llmq_test ∧
  (∀ dmn, dmn ∈ members_for llmq_test (GetBlockHash (test_block 7)) →
          - 2 ^ 63 ≤ adjustedTime w - GetLastOutboundSuccess (meta_info w (proTxHash dmn))
          < 2 ^ 63) ∧
  ∃ w', AddQuorumProbeConnections llmq_test (test_block 7) 11 w = Some (tt, w') ∧
        if EvalSpork (Consensus.type llmq_test) (SPORK_23_QUORUM_POSE w) then
          ∃ probes : gset uint256,
            masternodePendingProbes (connman w')
              = probes ∪ masternodePendingProbes (connman w) ∧
            ∀ x, x ∈ probes ↔
                 stale_member w (members_for llmq_test (GetBlockHash (test_block 7))) 11 x
        else w' = w.
Proof.
  intros H w.
  assert (Hw : cache_coherent (mapQuorumMembers w)) by apply World_new_coherent.
  assert (Hreg : registered llmq_test) by reflexivity.
  assert (Hrange : ∀ dmn, dmn ∈ members_for llmq_test (GetBlockHash (test_block 7)) →
            - 2 ^ 63 ≤ adjustedTime w - GetLastOutboundSuccess (meta_info w (proTxHash dmn))
            < 2 ^ 63).
  { intros dmn Hdmn. unfold members_for in Hdmn. simpl in Hdmn.
    repeat (apply elem_of_cons in Hdmn as [->|Hdmn];
            [vm_compute; split; [discriminate|reflexivity]|]).
    by apply elem_of_nil in Hdmn. }
  repeat (split; [assumption|]).
  exact (AddQuorumProbeConnections_stale llmq_test (test_block 7) 11 w Hw Hreg Hrange).
Defined.

(** The probes of the test instance, computed for the local node 11 among
    the members 11, 22 and 33: member 22 was reached 100 seconds ago, member
    33 never; with the spork active only 33 is probed, with the spork
    inactive nothing is. *)
Example AddQuorumProbeConnections_run :
  let H := test_externals in
  (λ r, masternodePendingProbes (connman r.2))
    <$> AddQuorumProbeConnections llmq_test (test_block 7) 11 (test_world 0 0 false)
    = Some {[33]} ∧
  (λ r, masternodePendingProbes (connman r.2))
    <$> AddQuorumProbeConnections llmq_test (test_block 7) 11 (test_world 0 2 false)
    = Some ∅.
Proof. split; vm_compute; reflexivity. Qed.

(** Outside the range of C8: with the last success of member 22 at the
    least [int64_t], the difference [1000 + 2^63] is no [int64_t]; the
    64-bit subtraction gives a negative number, and 22 is not probed. *)
Example AddQuorumProbeConnections_overflow_run :
  let H := test_externals in
  let w := with_metaInfos
             {[22 := {| lastOutboundAttempt := 0; lastOutboundSuccess := - 2 ^ 63 |}]}
             (test_world 0 0 false) in
  (λ r, masternodePendingProbes (connman r.2))
    <$> AddQuorumProbeConnections llmq_test (test_block 7) 11 w
    = Some {[33]}.
Proof. vm_compute. reflexivity. Qed.

(** ** The pending-message buffer *)

Section PendingMessages_facts.

Variable Hash : list Byte.byte → uint256.

(** The cap of a buffer never changes. *)
Lemma run_call_maxMessagesPerNode b c :
  maxMessagesPerNode (run_call Hash b c) = maxMessagesPerNode b.
Proof.
  destruct c as [from vRecv|maxCount|]; simpl; [|done..].
  unfold PushPendingMessage. by repeat case_decide.
Qed.

Lemma run_calls_cons b c cs :
  run_calls Hash b (c :: cs) = run_calls Hash (run_call Hash b c) cs.
Proof. reflexivity. Qed.

Lemma run_calls_maxMessagesPerNode cs b :
  maxMessagesPerNode (run_calls Hash b cs) = maxMessagesPerNode b.
Proof.
  revert b. induction cs as [|c cs IH]; intros b; [done|].
  by rewrite run_calls_cons, IH, run_call_maxMessagesPerNode.
Qed.

(** Popping decrements the counter of a peer once per message of the peer
    that leaves the queue. *)
Lemma decrement_count (popped : list BinaryMessage) (counts : gmap NodeId nat) (peer : NodeId) :
  default 0%nat (foldl decrement counts popped !! peer) =
  (default 0%nat (counts !! peer) - length (filter (λ m, m.1 = peer) popped))%nat.
Proof.
  revert counts. induction popped as [|[from bytes] popped IH]; intros counts; simpl.
  - lia.
  - rewrite IH. unfold decrement. simpl. rewrite filter_cons. simpl.
    destruct (decide (from = peer)) as [->|Hne].
    + rewrite lookup_alter_eq.
      destruct (counts !! peer) as [[|c]|]; reflexivity.
    + by rewrite lookup_alter_ne.
Qed.

Lemma PushPendingMessage_count from vRecv b peer :
  (per_peer_count b peer ≤ maxMessagesPerNode b)%nat →
  (per_peer_count (PushPendingMessage Hash from vRecv b) peer ≤ maxMessagesPerNode b)%nat.
Proof.
  intros Hb. unfold PushPendingMessage.
  destruct (decide (maxMessagesPerNode b ≤ per_peer_count b from)%nat); [done|].
  destruct (decide (Hash vRecv ∈ seenMessages b)); [done|].
  unfold per_peer_count at 1. simpl.
  destruct (decide (from = peer)) as [->|Hne].
  - rewrite lookup_insert_eq. simpl. lia.
  - by rewrite lookup_insert_ne.
Qed.

Lemma run_call_count b c peer :
  (per_peer_count b peer ≤ maxMessagesPerNode b)%nat →
  (per_peer_count (run_call Hash b c) peer ≤ maxMessagesPerNode b)%nat.
Proof.
  intros Hb. destruct c as [from vRecv|maxCount|]; simpl.
  - by apply PushPendingMessage_count.
  - unfold per_peer_count at 1. simpl. rewrite decrement_count.
    unfold per_peer_count in Hb. lia.
  - unfold per_peer_count at 1. simpl. rewrite lookup_empty. simpl. lia.
Qed.

Lemma run_calls_count cs b :
  (∀ peer, per_peer_count b peer ≤ maxMessagesPerNode b)%nat →
  ∀ peer, (per_peer_count (run_calls Hash b cs) peer ≤ maxMessagesPerNode b)%nat.
Proof.
  revert b. induction cs as [|c cs IH]; intros b Hb peer; [apply Hb|].
  rewrite run_calls_cons, <- (run_call_maxMessagesPerNode b c). apply IH.
  intros peer'. rewrite run_call_maxMessagesPerNode. by apply run_call_count.
Qed.

(** C5. The admission cap: after any sequence of calls on a buffer
    constructed with a cap, sequences of pushes among them, the counter of
    every peer is at most the cap, and a push from a peer whose counter has
    reached the cap leaves the buffer (queue, counters, seen set) as it is. *)
Theorem PushPendingMessage_quota (cap : nat) (cs : list call) (peer : NodeId)
    (vRecv : list Byte.byte) :
  let b := run_calls Hash (CDKGPendingMessages_new cap) cs in
  maxMessagesPerNode b = cap ∧
  (per_peer_count b peer ≤ cap)%nat ∧
  (per_peer_count b peer = cap → PushPendingMessage Hash peer vRecv b = b).
Proof.
  intros b. split; [apply run_calls_maxMessagesPerNode|]. split.
  - apply (run_calls_count cs (CDKGPendingMessages_new cap)).
    intros p. unfold per_peer_count. simpl. rewrite lookup_empty. simpl. lia.
  - intros Hcap. unfold PushPendingMessage.
    rewrite decide_True; [done|].
    unfold b at 1. rewrite run_calls_maxMessagesPerNode. simpl. lia.
Qed.

(** Without a [Clear] the seen set only grows. *)
Lemma run_call_seen b c h :
  is_clear c = false → h ∈ seenMessages b → h ∈ seenMessages (run_call Hash b c).
Proof.
  intros Hc Hh. destruct c as [from vRecv|maxCount|]; simpl; [|done..].
  unfold PushPendingMessage. repeat case_decide; simpl; set_solver.
Qed.

Lemma run_calls_seen cs b h :
  forallb (λ c, negb (is_clear c)) cs = true →
  h ∈ seenMessages b → h ∈ seenMessages (run_calls Hash b cs).
Proof.
  revert b. induction cs as [|c cs IH]; intros b Hcs Hh; [done|].
  rewrite run_calls_cons. simpl in Hcs. apply andb_true_iff in Hcs as [Hc Hcs].
  apply IH; [done|]. apply run_call_seen; [|done]. by destruct (is_clear c).
Qed.

(** C6. An admitted message is seen at once and stays seen, whatever is
    pushed or popped afterwards, until the buffer is cleared: a later push
    of the same bytes, from any peer, is rejected.  An admitted push goes to
    the tail of the queue; a pop returns the head of the queue in order,
    takes it off the queue, decrements the counter of a peer once per
    message of the peer that it returns, and leaves the seen set as it is. *)
Theorem PushPendingMessage_seen_until_clear (from : NodeId) (vRecv : list Byte.byte)
    (b : CDKGPendingMessages) (cs : list call) (maxCount : nat) :
  push_accepted Hash from vRecv b →
  forallb (λ c, negb (is_clear c)) cs = true →
  let b1 := PushPendingMessage Hash from vRecv b in
  let b2 := run_calls Hash b1 cs in
  let popped := PopPendingMessages maxCount b2 in
  pendingMessages b1 = pendingMessages b ++ [(from, vRecv)] ∧
  HasSeen (Hash vRecv) b1 = true ∧
  HasSeen (Hash vRecv) b2 = true ∧
  (∀ from', PushPendingMessage Hash from' vRecv b2 = b2) ∧
  popped.1 = take maxCount (pendingMessages b2) ∧
  pendingMessages popped.2 = drop maxCount (pendingMessages b2) ∧
  (∀ peer, per_peer_count popped.2 peer =
           (per_peer_count b2 peer - length (filter (λ m, m.1 = peer) popped.1))%nat) ∧
  seenMessages popped.2 = seenMessages b2 ∧
  HasSeen (Hash vRecv) popped.2 = true ∧
  HasSeen (Hash vRecv) (Clear b2) = false.
Proof.
  intros [Hcount Hnew] Hcs b1 b2 popped.
  assert (Hb1 : b1 = {| maxMessagesPerNode := maxMessagesPerNode b;
                        pendingMessages := pendingMessages b ++ [(from, vRecv)];
                        messagesPerNode :=
                          <[from := S (per_peer_count b from)]> (messagesPerNode b);
                        seenMessages := {[Hash vRecv]} ∪ seenMessages b |}).
  { unfold b1, PushPendingMessage. rewrite decide_False by lia. by rewrite decide_False. }
  assert (Hs1 : Hash vRecv ∈ seenMessages b1) by (rewrite Hb1; simpl; set_solver).
  assert (Hs2 : Hash vRecv ∈ seenMessages b2) by (by apply run_calls_seen).
  split; [by rewrite Hb1|]. split; [by apply bool_decide_eq_true|].
  split; [by apply bool_decide_eq_true|]. split.
  { intros from'. unfold PushPendingMessage. case_decide; [done|]. by rewrite decide_True. }
  split; [done|]. split; [done|]. split.
  { intros peer. unfold per_peer_count. simpl. apply decrement_count. }
  split; [done|]. split; [by apply bool_decide_eq_true|].
  apply bool_decide_eq_false. simpl. set_solver.
Qed.

End PendingMessages_facts.

Lemma PushPendingMessage_seen_until_clear_witness :
  let b := CDKGPendingMessages_new 2 in
  let m := [Byte.x01; Byte.x02] in
  let cs := [CallPush 1 [Byte.x03]; CallPop 1; CallPush 2 m; CallPush 1 [Byte.x04]] in
  push_accepted test_hash 1 m b ∧
  forallb (λ c, negb (is_clear c)) cs = true ∧
  let b1 := PushPendingMessage test_hash 1 m b in
  let b2 := run_calls test_hash b1 cs in
  let popped := PopPendingMessages 1 b2 in
  pendingMessages b1 = pendingMessages b ++ [(1, m)] ∧
  HasSeen (test_hash m) b1 = true ∧
  HasSeen (test_hash m) b2 = true ∧
  (∀ from', PushPendingMessage test_hash from' m b2 = b2) ∧
  popped.1 = take 1 (pendingMessages b2) ∧
  pendingMessages popped.2 = drop 1 (pendingMessages b2) ∧
  (∀ peer, per_peer_count popped.2 peer =
           (per_peer_count b2 peer - length (filter (λ m, m.1 = peer) popped.1))%nat) ∧
  seenMessages popped.2 = seenMessages b2 ∧
  HasSeen (test_hash m) popped.2 = true ∧
  HasSeen (test_hash m) (Clear b2) = false.
Proof.
  intros b m cs.
  assert (Hadm : push_accepted test_hash 1 m b).
  { split; [vm_compute; lia|]. simpl. set_solver. }
  assert (Hcs : forallb (λ c, negb (is_clear c)) cs = true) by reflexivity.
  split; [assumption|]. split; [assumption|].
  exact (PushPendingMessage_seen_until_clear test_hash 1 m b cs 1 Hadm Hcs).
Defined.

(** The buffer of the test instance, computed.  Flood control: of three
    distinct messages of one peer a buffer with cap 2 admits two.
    Duplicate suppression: the same bytes pushed twice are queued once, also
    after they were popped. *)
Example PushPendingMessage_run :
  let b := CDKGPendingMessages_new 2 in
  pendingMessages (run_calls test_hash b
    [CallPush 1 [Byte.x01]; CallPush 1 [Byte.x02]; CallPush 1 [Byte.x03]])
    = [(1, [Byte.x01]); (1, [Byte.x02])] ∧
  pendingMessages (run_calls test_hash b [CallPush 1 [Byte.x01]; CallPush 2 [Byte.x01]])
    = [(1, [Byte.x01])] ∧
  pendingMessages (run_calls test_hash b
    [CallPush 1 [Byte.x01]; CallPop 1; CallPush 1 [Byte.x01]]) = [] ∧
  HasSeen (test_hash [Byte.x01]) (run_calls test_hash b [CallPush 1 [Byte.x01]; CallPop 1])
    = true.
Proof. repeat split; vm_compute; reflexivity. Qed.

(** ** The phase scheduler *)

Section scheduler_facts.

Variable params : Consensus.LLMQParams.

(** A step keeps the phase, moves it to the phase that follows in the order
    of the loop, or ends the session in [QuorumPhase_Idle]. *)
Lemma scheduler_step_phase h h' :
  scheduler_step params h h' →
  phase h' = phase h ∨ phase h' = QuorumPhase_next (phase h) ∨
  (phase h ≠ QuorumPhase_Idle ∧ phase h' = QuorumPhase_Idle).
Proof.
  intros Hstep. inversion Hstep as
    [h0 t s Hp|h0 t Hp|h0 t k Hk|h0 Hp|h0 t Hp|h0 t]; subst; simpl.
  - right. left. by rewrite Hp.
  - left. by rewrite Hp.
  - right. by left.
  - right. left. by rewrite Hp.
  - right. by right.
  - by left.
Qed.

(** Inside a session a step never lowers the value of the phase. *)
Lemma scheduler_step_value h h' :
  phase h ≠ QuorumPhase_Idle →
  scheduler_step params h h' →
  QuorumPhase_value (phase h) ≤ QuorumPhase_value (phase h').
Proof.
  intros Hidle Hstep. inversion Hstep as
    [h0 t s Hp|h0 t Hp|h0 t k Hk|h0 Hp|h0 t Hp|h0 t]; subst; simpl; try done.
  - destruct (phase h); simpl in *; try discriminate; lia.
  - destruct (phase h); simpl; lia.
  - destruct (phase h); simpl; lia.
Qed.

(** C9. Phase monotonicity: a step of the scheduler keeps the phase, moves
    it to its successor in the order Idle → Initialized → Contribute →
    Complain → Justify → Commit → Finalize → Idle, or ends the session in
    Idle; and along a run inside one session the value of the phase an
    observer reads never decreases. *)
Theorem QuorumPhase_never_goes_backwards (h h' : CDKGSessionHandler) :
  session_run params h h' →
  QuorumPhase_value (GetPhaseAndQuorumHash h).1 ≤ QuorumPhase_value (GetPhaseAndQuorumHash h').1 ∧
  (∀ h'', scheduler_step params h' h'' →
          phase h'' = phase h' ∨ phase h'' = QuorumPhase_next (phase h') ∨
          (phase h' ≠ QuorumPhase_Idle ∧ phase h'' = QuorumPhase_Idle)).
Proof.
  intros Hrun. split; [|intros h''; apply scheduler_step_phase].
  simpl. induction Hrun as [h|h1 h2 h3 Hidle Hstep Hrun IH]; [lia|].
  pose proof (scheduler_step_value h1 h2 Hidle Hstep). lia.
Qed.

(** A session exists whenever the phase is neither Idle nor unset. *)
Lemma scheduler_reachable_session cap h :
  scheduler_reachable params cap h →
  phase h ≠ QuorumPhase_None ∧
  (phase h ≠ QuorumPhase_Idle → is_Some (curSession h)).
Proof.
  induction 1 as [|h h' Hreach [Hnone Hsess] Hstep]; [split; [done|by intros []]|].
  inversion Hstep as [h0 t s Hp|h0 t Hp|h0 t k Hk|h0 Hp|h0 t Hp|h0 t]; subst; simpl;
    try (split; [done|by intros []]); try (split; [done|by eauto]).
  - split; [by destruct (phase h)|]. intros _. apply Hsess. by destruct (phase h).
Qed.

End scheduler_facts.

Lemma QuorumPhase_never_goes_backwards_witness :
  let params := @llmq_test test_externals in
  let h0 := set_round QuorumPhase_Initialized 24 7 (Some test_session)
              (CDKGSessionHandler_new 5) in
  let h1 := set_phase QuorumPhase_Contribute 24 h0 in
  let h2 := set_phase QuorumPhase_Complain 26 h1 in
  session_run params h0 h2 ∧
  QuorumPhase_value (GetPhaseAndQuorumHash h0).1 ≤ QuorumPhase_value (GetPhaseAndQuorumHash h2).1 ∧
  (∀ h'', scheduler_step params h2 h'' →
          phase h'' = phase h2 ∨ phase h'' = QuorumPhase_next (phase h2) ∨
          (phase h2 ≠ QuorumPhase_Idle ∧ phase h'' = QuorumPhase_Idle)).
Proof.
  intros params h0 h1 h2.
  assert (Hrun : session_run params h0 h2).
  { apply (session_run_step params h0 h1 h2); [discriminate| |].
    - apply (step_WaitForNextPhase params h0 (test_tip 24) 0); [reflexivity..|].
      vm_compute. discriminate.
    - apply (session_run_step params h1 h2 h2); [discriminate| |apply session_run_refl].
      apply (step_WaitForNextPhase params h1 (test_tip 26) 1); [reflexivity..|].
      vm_compute. discriminate. }
  split; [exact Hrun|].
  exact (QuorumPhase_never_goes_backwards params h0 h2 Hrun).
Defined.

(** The round of the test quorum ([dkgInterval = 24], [dkgPhaseBlocks = 2],
    base block at height 24): the handler goes from Idle through the six
    phases and back to Idle as the tip moves from 24 to 32. *)
Example scheduler_round :
  let params := @llmq_test test_externals in
  let h0 := CDKGSessionHandler_new 5 in
  let h1 := set_round QuorumPhase_Initialized 24 7 (Some test_session) h0 in
  let h2 := set_phase QuorumPhase_Contribute 24 h1 in
  let h3 := set_phase QuorumPhase_Complain 26 h2 in
  let h4 := set_phase QuorumPhase_Justify 28 h3 in
  let h5 := set_phase QuorumPhase_Commit 30 h4 in
  let h6 := set_phase QuorumPhase_Finalize 32 h5 in
  let h7 := set_round QuorumPhase_Idle 32 7 None h6 in
  scheduler_step params h0 h1 ∧ scheduler_step params h1 h2 ∧
  scheduler_step params h2 h3 ∧ scheduler_step params h3 h4 ∧
  scheduler_step params h4 h5 ∧ scheduler_step params h5 h6 ∧
  scheduler_step params h6 h7 ∧
  QuorumPhase_value <$> (phase <$> [h1; h2; h3; h4; h5; h6; h7]) = [1; 2; 3; 4; 5; 6; 7].
Proof.
  intros params h0 h1 h2 h3 h4 h5 h6 h7. repeat split.
  - by apply (step_InitNewQuorum params h0 (test_tip 24) test_session).
  - apply (step_WaitForNextPhase params h1 (test_tip 24) 0); [reflexivity..|].
    vm_compute. discriminate.
  - apply (step_WaitForNextPhase params h2 (test_tip 26) 1); [reflexivity..|].
    vm_compute. discriminate.
  - apply (step_WaitForNextPhase params h3 (test_tip 28) 2); [reflexivity..|].
    vm_compute. discriminate.
  - apply (step_WaitForNextPhase params h4 (test_tip 30) 3); [reflexivity..|].
    vm_compute. discriminate.
  - apply (step_WaitForNextPhase params h5 (test_tip 32) 4); [reflexivity..|].
    vm_compute. discriminate.
  - by apply (step_Finalize params h6).
Qed.

(** * Further properties of the embedded code *)

(** ** The connection planner, continued *)

Section planner_more.

Context `{Externals}.

(** X1. [DeterministicOutboundConnection] returns one of its two
    arguments, and for two distinct hashes the two orders of the arguments
    give the same answer exactly when the two pair hashes differ: on a tie
    each order returns its second argument. *)
Theorem DeterministicOutboundConnection_agree (a b : uint256) :
  a ≠ b →
  (DeterministicOutboundConnection a b = a ∨ DeterministicOutboundConnection a b = b) ∧
  (DeterministicOutboundConnection a b = DeterministicOutboundConnection b a
   ↔ pair_hash a b a ≠ pair_hash a b b).
Proof.
  intros Hab. rewrite !DeterministicOutboundConnection_spec.
  rewrite !(pair_hash_comm b a). split.
  - case_decide; [by left|by right].
  - repeat case_decide; split; intros; try done; try lia.
Qed.

(** X2. In all-connected mode without [onlyOutbound] the connection set of
    [forMember] is the set of all the other members of the quorum, and the
    outbound set is a part of it. *)
Theorem GetQuorumConnections_all_candidates (fuel : nat) (llmqParams : Consensus.LLMQParams)
    (pindex : CBlockIndex) (forMember : uint256) (w : World) :
  cache_coherent (mapQuorumMembers w) →
  registered llmqParams →
  EvalSpork (Consensus.type llmqParams) (SPORK_21_QUORUM_ALL_CONNECTED w) = true →
  ∃ (S outbound : gset uint256) w1 w2,
    GetQuorumConnections fuel llmqParams pindex forMember false w = Some (S, w1) ∧
    GetQuorumConnections fuel llmqParams pindex forMember true w = Some (outbound, w2) ∧
    (∀ x, x ∈ S ↔ is_member x (members_for llmqParams (GetBlockHash pindex)) ∧ x ≠ forMember) ∧
    outbound ⊆ S.
Proof.
  intros Hw Hreg Hspork.
  destruct (GetQuorumConnections_run_all fuel llmqParams pindex forMember false w Hw Hreg Hspork)
    as (m1 & Hg1 & _).
  destruct (GetQuorumConnections_run_all fuel llmqParams pindex forMember true w Hw Hreg Hspork)
    as (m2 & Hg2 & _).
  eexists _, _, _, _. split; [exact Hg1|]. split; [exact Hg2|]. split.
  - intros x. rewrite GetQuorumConnections_for_elem. naive_solver.
  - intros x. rewrite !GetQuorumConnections_for_elem. naive_solver.
Qed.

(** X3. A node that is neither a member of the quorum nor watching quorums
    is told [false], and nothing is declared to the connection manager: the
    call changes the member cache only. *)
Theorem EnsureQuorumConnections_not_interested (fuel : nat)
    (llmqParams : Consensus.LLMQParams) (pindex : CBlockIndex) (myProTxHash : uint256)
    (w : World) :
  cache_coherent (mapQuorumMembers w) →
  registered llmqParams →
  ¬ is_member myProTxHash (members_for llmqParams (GetBlockHash pindex)) →
  fIsWatchQuroumsEnabled w = false →
  ∃ m, EnsureQuorumConnections fuel llmqParams pindex myProTxHash w
         = Some (false, with_mapQuorumMembers m w).
Proof.
  intros Hw Hreg Hnot Hwatch.
  destruct (GetAllQuorumMembers_run llmqParams pindex w Hw Hreg) as (m & Hg & _).
  exists m. unfold EnsureQuorumConnections, bind. rewrite Hg.
  rewrite (existsb_is_member _ _ Hnot).
  unfold IsWatchQuorumsEnabled, gets. simpl. by rewrite Hwatch.
Qed.

End planner_more.

Lemma DeterministicOutboundConnection_agree_witness :
  let H := test_externals in
  11 ≠ 22 ∧
  (DeterministicOutboundConnection 11 22 = 11 ∨ DeterministicOutboundConnection 11 22 = 22) ∧
  (DeterministicOutboundConnection 11 22 = DeterministicOutboundConnection 22 11
   ↔ pair_hash 11 22 11 ≠ pair_hash 11 22 22).
Proof.
  intros H. assert (Hab : 11 ≠ 22) by lia.
  split; [assumption|]. exact (DeterministicOutboundConnection_agree 11 22 Hab).
Defined.

Lemma GetQuorumConnections_all_candidates_witness :
  let H := test_externals in
  let w := World_new 0 0 1000 false in
  cache_coherent (mapQuorumMembers w) ∧
  registered llmq_test ∧
  EvalSpork (Consensus.type llmq_test) (SPORK_21_QUORUM_ALL_CONNECTED w) = true ∧
  ∃ (S outbound : gset uint256) w1 w2,
    GetQuorumConnections 0 llmq_test (test_block 7) 22 false w = Some (S, w1) ∧
    GetQuorumConnections 0 llmq_test (test_block 7) 22 true w = Some (outbound, w2) ∧
    (∀ x, x ∈ S ↔ is_member x (members_for llmq_test (GetBlockHash (test_block 7))) ∧ x ≠ 22) ∧
    outbound ⊆ S.
Proof.
  intros H w.
  assert (Hw : cache_coherent (mapQuorumMembers w)) by apply World_new_coherent.
  assert (Hreg : registered llmq_test) by reflexivity.
  assert (Hs : EvalSpork (Consensus.type llmq_test) (SPORK_21_QUORUM_ALL_CONNECTED w) = true)
    by reflexivity.
  repeat (split; [assumption|]).
  exact (GetQuorumConnections_all_candidates 0 llmq_test (test_block 7) 22 w Hw Hreg Hs).
Defined.

Lemma test_not_member_99 :
  ¬ is_member 99 (@members_for test_externals (@llmq_test test_externals) 7).
Proof.
  intros (d & Hin & Hd).
  change (@members_for test_externals (@llmq_test test_externals) 7)
    with (test_mn <$> [11; 22; 33]) in Hin. simpl in Hin.
  repeat (apply elem_of_cons in Hin as [->|Hin]; [discriminate|]).
  by apply elem_of_nil in Hin.
Qed.

Lemma EnsureQuorumConnections_not_interested_witness :
  let H := test_externals in
  let w := World_new 0 0 1000 false in
  cache_coherent (mapQuorumMembers w) ∧
  registered llmq_test ∧
  ¬ is_member 99 (members_for llmq_test (GetBlockHash (test_block 7))) ∧
  fIsWatchQuroumsEnabled w = false ∧
  ∃ m, EnsureQuorumConnections 0 llmq_test (test_block 7) 99 w
         = Some (false, with_mapQuorumMembers m w).
Proof.
  intros H w.
  assert (Hw : cache_coherent (mapQuorumMembers w)) by apply World_new_coherent.
  assert (Hreg : registered llmq_test) by reflexivity.
  assert (Hnot : ¬ is_member 99 (members_for llmq_test (GetBlockHash (test_block 7))))
    by apply test_not_member_99.
  assert (Hwatch : fIsWatchQuroumsEnabled w = false) by reflexivity.
  repeat (split; [assumption|]).
  exact (EnsureQuorumConnections_not_interested 0 llmq_test (test_block 7) 99 w
           Hw Hreg Hnot Hwatch).
Defined.

(** ** Watch connections, continued *)

Lemma gset_size_union_le (X Y : gset Z) : (size (X ∪ Y) ≤ size X + size Y)%nat.
Proof.
  rewrite size_union_alt.
  assert (size (Y ∖ X) ≤ size Y)%nat by (apply subseteq_size; set_solver). lia.
Qed.

Section watch_more.

Context `{Externals}.

Lemma CalcDeterministicWatchConnections_for_size (connectionCount : nat) llmqType blockHash
    memberCount :
  ∀ rnd (result idxs : gset Z),
    CalcDeterministicWatchConnections_for connectionCount llmqType blockHash memberCount
      rnd result = Some idxs →
    (size idxs ≤ size result + connectionCount)%nat.
Proof.
  induction connectionCount as [|c IH]; intros rnd result idxs; simpl.
  - intros [= <-]. lia.
  - case_decide; [done|]. intros Hrun. apply IH in Hrun.
    pose proof (gset_size_union_le
      {[Z.of_N (GetUint64 (SerializeHash_nested rnd llmqType blockHash)) mod memberCount]}
      result) as Hle.
    rewrite size_singleton in Hle. lia.
Qed.

(** X4. The process seed of the watch connections is drawn once: a call of
    [CalcDeterministicWatchConnections] that returns leaves the seed
    generated, having drawn from the random source at most once, and from
    then on every call leaves the world as it is; the same call gives the
    same set again. *)
Theorem CalcDeterministicWatchConnections_seed_once (llmqType : Z) (pindex : CBlockIndex)
    (memberCount connectionCount : Z) (w w1 : World) (idxs : gset Z) :
  CalcDeterministicWatchConnections llmqType pindex memberCount connectionCount w
    = Some (idxs, w1) →
  qwatchConnectionSeedGenerated w1 = true ∧
  qwatchConnectionSeed w1 = process_seed w ∧
  (randDraws w1 ≤ randDraws w + 1)%nat ∧
  CalcDeterministicWatchConnections llmqType pindex memberCount connectionCount w1
    = Some (idxs, w1) ∧
  (∀ llmqType' pindex' memberCount' connectionCount' idxs' w2,
     CalcDeterministicWatchConnections llmqType' pindex' memberCount' connectionCount' w1
       = Some (idxs', w2) → w2 = w1).
Proof.
  rewrite CalcDeterministicWatchConnections_run.
  destruct (CalcDeterministicWatchConnections_for _ _ _ _ _ _) as [r|] eqn:Hfor; [|done].
  intros Heq. simplify_eq.
  assert (Hseed : process_seed (seeded w) = process_seed w).
  { unfold seeded, process_seed. by destruct (qwatchConnectionSeedGenerated w) eqn:Hg;
      simpl; rewrite ?Hg. }
  assert (Hgen : qwatchConnectionSeedGenerated (seeded w) = true).
  { unfold seeded. by destruct (qwatchConnectionSeedGenerated w) eqn:Hg. }
  assert (Hfix : seeded (seeded w) = seeded w).
  { unfold seeded at 1. by rewrite Hgen. }
  split; [done|]. split.
  { rewrite <- Hseed. unfold process_seed. by rewrite Hgen. }
  split.
  { unfold seeded. destruct (qwatchConnectionSeedGenerated w); simpl; lia. }
  split.
  - rewrite CalcDeterministicWatchConnections_run, Hseed, Hfor. by rewrite Hfix.
  - intros t' p' m' c' idxs' w2. rewrite CalcDeterministicWatchConnections_run.
    destruct (CalcDeterministicWatchConnections_for (Z.to_nat c') _ _ _ _ _); [|done].
    intros Heq. simplify_eq. exact Hfix.
Qed.

(** X5. The set of watch connections has at most [connectionCount]
    indices (fewer when two rounds pick the same index); when no connection
    is asked for the call returns the empty set, also for an empty quorum. *)
Theorem CalcDeterministicWatchConnections_size (llmqType : Z) (pindex : CBlockIndex)
    (memberCount connectionCount : Z) (w w1 : World) (idxs : gset Z) :
  CalcDeterministicWatchConnections llmqType pindex memberCount connectionCount w
    = Some (idxs, w1) →
  (size idxs ≤ Z.to_nat connectionCount)%nat ∧
  (connectionCount ≤ 0 → idxs = ∅) ∧
  ∃ w0, CalcDeterministicWatchConnections llmqType pindex 0 0 w = Some (∅, w0).
Proof.
  rewrite !CalcDeterministicWatchConnections_run.
  destruct (CalcDeterministicWatchConnections_for _ _ _ _ _ _) as [r|] eqn:Hfor; [|done].
  intros Heq. simplify_eq. split; [|split].
  - apply CalcDeterministicWatchConnections_for_size in Hfor.
    rewrite size_empty in Hfor. lia.
  - intros Hc. replace (Z.to_nat connectionCount) with 0%nat in Hfor by lia.
    simpl in Hfor. congruence.
  - by eexists.
Qed.

End watch_more.

Lemma CalcDeterministicWatchConnections_seed_once_witness :
  let H := test_externals in
  let w := World_new 0 0 1000 true in
  let w1 := with_seed 1000 w in
  CalcDeterministicWatchConnections 100 (test_block 7) 3 2 w = Some ({[2; 0]}, w1) ∧
  qwatchConnectionSeedGenerated w1 = true ∧
  qwatchConnectionSeed w1 = process_seed w ∧
  (randDraws w1 ≤ randDraws w + 1)%nat ∧
  CalcDeterministicWatchConnections 100 (test_block 7) 3 2 w1 = Some ({[2; 0]}, w1) ∧
  (∀ llmqType' pindex' memberCount' connectionCount' idxs' w2,
     CalcDeterministicWatchConnections llmqType' pindex' memberCount' connectionCount' w1
       = Some (idxs', w2) → w2 = w1).
Proof.
  intros H w w1.
  assert (Hrun : CalcDeterministicWatchConnections 100 (test_block 7) 3 2 w
                 = Some ({[2; 0]}, w1)) by (vm_compute; reflexivity).
  split; [assumption|].
  exact (CalcDeterministicWatchConnections_seed_once 100 (test_block 7) 3 2 w w1 _ Hrun).
Defined.

Lemma CalcDeterministicWatchConnections_size_witness :
  let H := test_externals in
  let w := World_new 0 0 1000 true in
  let w1 := with_seed 1000 w in
  let idxs : gset Z := {[2; 0]} in
  CalcDeterministicWatchConnections 100 (test_block 7) 3 2 w = Some (idxs, w1) ∧
  (size idxs ≤ Z.to_nat 2)%nat ∧
  (2 ≤ 0 → idxs = ∅) ∧
  ∃ w0, CalcDeterministicWatchConnections 100 (test_block 7) 0 0 w = Some (∅, w0).
Proof.
  intros H w w1 idxs.
  assert (Hrun : CalcDeterministicWatchConnections 100 (test_block 7) 3 2 w
                 = Some (idxs, w1)) by (vm_compute; reflexivity).
  split; [assumption|].
  exact (CalcDeterministicWatchConnections_size 100 (test_block 7) 3 2 w w1 idxs Hrun).
Defined.

(** ** The ring-relay planner, continued *)

Lemma gset_size_list_to_set_le (l : list Z) : (size (list_to_set l : gset Z) ≤ length l)%nat.
Proof.
  induction l as [|x l IH]; simpl; [done|].
  pose proof (gset_size_union_le {[x]} (list_to_set l)) as Hle.
  rewrite size_singleton in Hle. lia.
Qed.

Section ring_more.

Context `{Externals}.

(** The outbound call for the member at index [i], with the world it
    leaves. *)
Lemma GetQuorumRelayMembers_run_outbound fuel llmqParams pindex w i dmn :
  cache_coherent (mapQuorumMembers w) →
  registered llmqParams →
  NoDup (proTxHash <$> members_for llmqParams (GetBlockHash pindex)) →
  2 ≤ Z.of_nat (length (members_for llmqParams (GetBlockHash pindex))) ≤ INT_MAX →
  0 ≤ i →
  members_for llmqParams (GetBlockHash pindex) !! Z.to_nat i = Some dmn →
  (32 ≤ fuel)%nat →
  ∃ (r : gset uint256) m,
    GetQuorumRelayMembers fuel llmqParams pindex (proTxHash dmn) true w
      = Some (r, with_mapQuorumMembers m w) ∧
    cache_coherent m ∧
    ∀ x, x ∈ r ↔ relay_neighbour (members_for llmqParams (GetBlockHash pindex)) i x.
Proof.
  intros Hw Hreg Hnd Hn Hi0 Hi Hfuel.
  set (mns := members_for llmqParams (GetBlockHash pindex)) in *.
  assert (Hin : 0 ≤ i < Z.of_nat (length mns)).
  { apply lookup_lt_Some in Hi. lia. }
  destruct (calcOutbound_spec mns i (proTxHash dmn) Hn Hin fuel Hfuel) as (r & Hr & Hspec).
  destruct (GetAllQuorumMembers_run llmqParams pindex w Hw Hreg) as (m & Hg & Hm).
  exists r, m. split; [|split; [done|]].
  - unfold GetQuorumRelayMembers, bind, lift. rewrite Hg. fold mns.
    rewrite (GetQuorumRelayMembers_for_outbound fuel mns (proTxHash dmn) i r Hr).
    + rewrite decide_True by lia. by rewrite (right_id_L ∅ (∪)).
    + intros p d Hp. rewrite (proTxHash_index mns (Z.to_nat i) p dmn d Hnd Hi Hp). lia.
  - intros x. rewrite Hspec. unfold relay_neighbour. split.
    + intros (k & d & Hk & Hd & Hx & Hne). exists k, d. repeat split; try done; try lia.
      intros Hidx. rewrite Hidx in Hd. apply Hne. congruence.
    + intros (k & d & Hk & Hidx & Hd & Hx). exists k, d. repeat split; try done; try lia.
      intros Heq. apply Hidx. subst x.
      pose proof (Z.mod_pos_bound (i + 2 ^ k) (Z.of_nat (length mns)) ltac:(lia)).
      apply (proTxHash_index mns (Z.to_nat i) _ dmn d Hnd Hi Hd) in Heq. lia.
Qed.

(** The neighbour at distance one is always there. *)
Lemma relay_neighbour_next (mns : list CDeterministicMN) (i : Z) :
  2 ≤ Z.of_nat (length mns) → 0 ≤ i < Z.of_nat (length mns) →
  ∃ x, relay_neighbour mns i x.
Proof.
  intros Hn Hi. set (n := Z.of_nat (length mns)) in *.
  assert (Hidx : 0 ≤ (i + 2 ^ 0) mod n < n) by (apply Z.mod_pos_bound; lia).
  destruct (lookup_lt_is_Some_2 mns (Z.to_nat ((i + 2 ^ 0) mod n))) as [d Hd]; [lia|].
  exists (proTxHash d), 0, d. split; [unfold k_max; lia|]. split; [|done].
  change (2 ^ 0) with 1.
  destruct (decide (i + 1 < n)).
  - rewrite Z.mod_small; lia.
  - replace (i + 1) with n by lia. rewrite Z.mod_same; lia.
Qed.

(** A set of relay neighbours has at most [k_max n + 1] elements. *)
Lemma relay_neighbour_size (mns : list CDeterministicMN) (i : Z) (r : gset uint256) :
  (∀ x, x ∈ r → relay_neighbour mns i x) →
  Z.of_nat (size r) ≤ k_max (Z.of_nat (length mns)) + 1.
Proof.
  intros Hr. set (n := Z.of_nat (length mns)) in *.
  set (f := λ k : Z, default 0 (proTxHash <$> mns !! Z.to_nat ((i + 2 ^ k) mod n))).
  assert (Hsub : r ⊆ list_to_set (f <$> seqZ 0 (k_max n + 1))).
  { intros x Hx. destruct (Hr x Hx) as (k & d & Hk & _ & Hd & Hxd).
    apply elem_of_list_to_set, list_elem_of_fmap. exists k. split.
    - unfold f. fold n in Hd. by rewrite Hd.
    - apply elem_of_seqZ. unfold n. lia. }
  apply subseteq_size in Hsub.
  pose proof (gset_size_list_to_set_le (f <$> seqZ 0 (k_max n + 1))) as Hle.
  rewrite length_fmap, length_seqZ in Hle.
  assert (0 ≤ k_max n + 1) by (unfold k_max; lia). lia.
Qed.

(** X6. The ring-relay set is small and never empty: for the member at
    index [i] of a quorum of [n ≥ 2] members the outbound set that
    [GetQuorumRelayMembers] returns has at least one and at most
    [max(2, ⌊log₂(n−1)⌋)] elements. *)
Theorem GetQuorumRelayMembers_size (fuel : nat) (llmqParams : Consensus.LLMQParams)
    (pindex : CBlockIndex) (w : World) (i : Z) (dmn : CDeterministicMN) :
  cache_coherent (mapQuorumMembers w) →
  registered llmqParams →
  NoDup (proTxHash <$> members_for llmqParams (GetBlockHash pindex)) →
  2 ≤ Z.of_nat (length (members_for llmqParams (GetBlockHash pindex))) ≤ INT_MAX →
  0 ≤ i →
  members_for llmqParams (GetBlockHash pindex) !! Z.to_nat i = Some dmn →
  (32 ≤ fuel)%nat →
  ∃ (r : gset uint256) w',
    GetQuorumRelayMembers fuel llmqParams pindex (proTxHash dmn) true w = Some (r, w') ∧
    1 ≤ Z.of_nat (size r)
      ≤ Z.max 2 (Z.log2 (Z.of_nat (length (members_for llmqParams (GetBlockHash pindex))) - 1)).
Proof.
  intros Hw Hreg Hnd Hn Hi0 Hi Hfuel.
  destruct (GetQuorumRelayMembers_run_outbound fuel llmqParams pindex w i dmn
              Hw Hreg Hnd Hn Hi0 Hi Hfuel) as (r & m & Hrun & _ & Hspec).
  exists r. eexists. split; [exact Hrun|].
  set (mns := members_for llmqParams (GetBlockHash pindex)) in *.
  assert (Hin : 0 ≤ i < Z.of_nat (length mns)).
  { apply lookup_lt_Some in Hi. lia. }
  split.
  - destruct (relay_neighbour_next mns i) as [x Hx]; [lia|done|].
    apply Hspec in Hx. assert (size r ≠ 0%nat); [|lia].
    apply size_non_empty_iff. intros Hempty. rewrite Hempty in Hx. set_solver.
  - pose proof (relay_neighbour_size mns i r (λ x Hx, proj1 (Hspec x) Hx)) as Hle.
    unfold k_max in Hle. lia.
Qed.

End ring_more.

Lemma GetQuorumRelayMembers_size_witness :
  let H := test_externals in
  let w := World_new 1 0 1000 false in
  let mns := members_for llmq_test (GetBlockHash (test_block 7)) in
  cache_coherent (mapQuorumMembers w) ∧
  registered llmq_test ∧
  NoDup (proTxHash <$> mns) ∧
  2 ≤ Z.of_nat (length mns) ≤ INT_MAX ∧
  0 ≤ 2 ∧
  mns !! Z.to_nat 2 = Some (test_mn 33) ∧
  (32 ≤ 32)%nat ∧
  ∃ (r : gset uint256) w',
    GetQuorumRelayMembers 32 llmq_test (test_block 7) (proTxHash (test_mn 33)) true w
      = Some (r, w') ∧
    1 ≤ Z.of_nat (size r) ≤ Z.max 2 (Z.log2 (Z.of_nat (length mns) - 1)).
Proof.
  intros H w mns.
  assert (Hw : cache_coherent (mapQuorumMembers w)) by apply World_new_coherent.
  assert (Hreg : registered llmq_test) by reflexivity.
  assert (Hnd : NoDup (proTxHash <$> mns)) by (vm_compute; repeat constructor; set_solver).
  assert (Hn : 2 ≤ Z.of_nat (length mns) ≤ INT_MAX) by (vm_compute; split; discriminate).
  assert (Hi0 : 0 ≤ 2) by lia.
  assert (Hi : mns !! Z.to_nat 2 = Some (test_mn 33)) by reflexivity.
  assert (Hfuel : (32 ≤ 32)%nat) by lia.
  repeat (split; [assumption|]).
  exact (GetQuorumRelayMembers_size 32 llmq_test (test_block 7) w 2 (test_mn 33)
           Hw Hreg Hnd Hn Hi0 Hi Hfuel).
Defined.

Section EnsureQuorumConnections_more.

Context `{Externals}.

Lemma existsb_is_member_true myProTxHash (mns : list CDeterministicMN) i dmn :
  mns !! i = Some dmn → proTxHash dmn = myProTxHash →
  existsb (λ d, bool_decide (proTxHash d = myProTxHash)) mns = true.
Proof.
  intros Hi Hd. apply existsb_exists. exists dmn. split.
  - apply list_elem_of_In. by eapply list_elem_of_lookup_2.
  - by apply bool_decide_eq_true.
Qed.

(** X7. For a member of a quorum of [n ≥ 2] members
    [EnsureQuorumConnections] answers [true] and declares the ring-relay set
    of the member as the relay members of the quorum.  As the quorum nodes
    it declares, in ring mode, the same set, and in all-connected mode the
    outbound set of the member, unless that set is empty: then the quorum
    nodes of the connection manager stay as they were. *)
Theorem EnsureQuorumConnections_member (fuel : nat) (llmqParams : Consensus.LLMQParams)
    (pindex : CBlockIndex) (w : World) (i : Z) (dmn : CDeterministicMN) :
  let mns := members_for llmqParams (GetBlockHash pindex) in
  let key := (Consensus.type llmqParams, GetBlockHash pindex) in
  let outbound := GetQuorumConnections_for (proTxHash dmn) true mns in
  cache_coherent (mapQuorumMembers w) →
  registered llmqParams →
  NoDup (proTxHash <$> mns) →
  2 ≤ Z.of_nat (length mns) ≤ INT_MAX →
  0 ≤ i →
  mns !! Z.to_nat i = Some dmn →
  (32 ≤ fuel)%nat →
  ∃ (r : gset uint256) w',
    EnsureQuorumConnections fuel llmqParams pindex (proTxHash dmn) w = Some (true, w') ∧
    (∀ x, x ∈ r ↔ relay_neighbour mns i x) ∧
    masternodeQuorumRelayMembers (connman w') !! key = Some r ∧
    masternodeQuorumNodes (connman w') !! key =
      (if EvalSpork (Consensus.type llmqParams) (SPORK_21_QUORUM_ALL_CONNECTED w)
       then if decide (outbound = ∅) then masternodeQuorumNodes (connman w) !! key
            else Some outbound
       else Some r).
Proof.
  intros mns key outbound Hw Hreg Hnd Hn Hi0 Hi Hfuel.
  destruct (GetAllQuorumMembers_run llmqParams pindex w Hw Hreg) as (m1 & Hg & Hm1).
  set (w1 := with_mapQuorumMembers m1 w) in *.
  (* the set of the relay members, from the second call *)
  assert (Hrelay : ∀ w0, cache_coherent (mapQuorumMembers w0) →
            ∃ (r : gset uint256) m,
              GetQuorumRelayMembers fuel llmqParams pindex (proTxHash dmn) true w0
                = Some (r, with_mapQuorumMembers m w0) ∧
              cache_coherent m ∧ ∀ x, x ∈ r ↔ relay_neighbour mns i x).
  { intros w0 Hw0.
    exact (GetQuorumRelayMembers_run_outbound fuel llmqParams pindex w0 i dmn
             Hw0 Hreg Hnd Hn Hi0 Hi Hfuel). }
  assert (Hnonempty : ∀ r : gset uint256, (∀ x, x ∈ r ↔ relay_neighbour mns i x) → r ≠ ∅).
  { intros r Hr Hempty. destruct (relay_neighbour_next mns i) as [x Hx]; [lia| |].
    - apply lookup_lt_Some in Hi. lia.
    - apply Hr in Hx. rewrite Hempty in Hx. set_solver. }
  unfold EnsureQuorumConnections, bind. rewrite Hg. fold mns. fold w1.
  rewrite (existsb_is_member_true _ mns (Z.to_nat i) dmn Hi eq_refl).
  unfold IsWatchQuorumsEnabled, gets. simpl.
  destruct (EvalSpork (Consensus.type llmqParams) (SPORK_21_QUORUM_ALL_CONNECTED w))
    eqn:Hspork.
  - destruct (GetQuorumConnections_run_all fuel llmqParams pindex (proTxHash dmn) true w1
                Hm1 Hreg Hspork) as (m2 & -> & Hm2).
    fold mns. fold outbound.
    destruct (Hrelay (with_mapQuorumMembers m2 w1) Hm2) as (r & m3 & -> & _ & Hr).
    pose proof (Hnonempty r Hr) as Hne.
    unfold ret, modify. simpl.
    destruct (decide (outbound = ∅)) as [Hout|Hout]; simpl;
      rewrite (decide_False (P := r = ∅)) by done; simpl.
    + exists r. eexists. split; [reflexivity|]. split; [exact Hr|].
      simpl. by rewrite lookup_insert_eq.
    + exists r. eexists. split; [reflexivity|]. split; [exact Hr|].
      simpl. by rewrite !lookup_insert_eq.
  - assert (Hgqc : GetQuorumConnections fuel llmqParams pindex (proTxHash dmn) true w1
                   = GetQuorumRelayMembers fuel llmqParams pindex (proTxHash dmn) true w1).
    { unfold GetQuorumConnections, IsAllMembersConnectedEnabled, bind, gets, ret.
      simpl. by rewrite Hspork. }
    rewrite Hgqc.
    destruct (Hrelay w1 Hm1) as (r & m2 & -> & Hm2 & Hr).
    destruct (Hrelay (with_mapQuorumMembers m2 w1) Hm2) as (r' & m3 & -> & _ & Hr').
    assert (r' = r) as -> by (apply set_eq; intros x; by rewrite Hr, Hr').
    pose proof (Hnonempty r Hr) as Hne.
    unfold ret, modify. simpl.
    rewrite (decide_False (P := r = ∅)) by done. simpl.
    rewrite (decide_False (P := r = ∅)) by done. simpl.
    exists r. eexists. split; [reflexivity|]. split; [exact Hr|].
    simpl. by rewrite !lookup_insert_eq.
Qed.

End EnsureQuorumConnections_more.

Lemma EnsureQuorumConnections_member_witness :
  let H := test_externals in
  let w := World_new 2 0 1000 false in
  let mns := members_for llmq_test (GetBlockHash (test_block 7)) in
  let key := (Consensus.type llmq_test, GetBlockHash (test_block 7)) in
  let outbound := GetQuorumConnections_for (proTxHash (test_mn 33)) true mns in
  cache_coherent (mapQuorumMembers w) ∧
  registered llmq_test ∧
  NoDup (proTxHash <$> mns) ∧
  2 ≤ Z.of_nat (length mns) ≤ INT_MAX ∧
  0 ≤ 2 ∧
  mns !! Z.to_nat 2 = Some (test_mn 33) ∧
  (32 ≤ 32)%nat ∧
  ∃ (r : gset uint256) w',
    EnsureQuorumConnections 32 llmq_test (test_block 7) (proTxHash (test_mn 33)) w
      = Some (true, w') ∧
    (∀ x, x ∈ r ↔ relay_neighbour mns 2 x) ∧
    masternodeQuorumRelayMembers (connman w') !! key = Some r ∧
    masternodeQuorumNodes (connman w') !! key =
      (if EvalSpork (Consensus.type llmq_test) (SPORK_21_QUORUM_ALL_CONNECTED w)
       then if decide (outbound = ∅) then masternodeQuorumNodes (connman w) !! key
            else Some outbound
       else Some r).
Proof.
  intros H w mns key outbound.
  assert (Hw : cache_coherent (mapQuorumMembers w)) by apply World_new_coherent.
  assert (Hreg : registered llmq_test) by reflexivity.
  assert (Hnd : NoDup (proTxHash <$> mns)) by (vm_compute; repeat constructor; set_solver).
  assert (Hn : 2 ≤ Z.of_nat (length mns) ≤ INT_MAX) by (vm_compute; split; discriminate).
  assert (Hi0 : 0 ≤ 2) by lia.
  assert (Hi : mns !! Z.to_nat 2 = Some (test_mn 33)) by reflexivity.
  assert (Hfuel : (32 ≤ 32)%nat) by lia.
  repeat (split; [assumption|]).
  exact (EnsureQuorumConnections_member 32 llmq_test (test_block 7) w 2 (test_mn 33)
           Hw Hreg Hnd Hn Hi0 Hi Hfuel).
Defined.

(** The connections of the test quorum 11, 22, 33, computed.  For member
    33 in ring mode both declarations are the ring-relay set of 33, the two
    other members.  For member 11 in all-connected mode the outbound set is
    empty and no quorum nodes are declared, while the relay members are. *)
Example EnsureQuorumConnections_member_run :
  let H := test_externals in
  (λ r, (r.1, masternodeQuorumNodes (connman r.2),
         masternodeQuorumRelayMembers (connman r.2)))
    <$> EnsureQuorumConnections 32 llmq_test (test_block 7) 33 (World_new 2 0 1000 false)
    = Some (true, {[(100, 7) := {[11; 22]}]}, {[(100, 7) := {[11; 22]}]}) ∧
  (λ r, (r.1, masternodeQuorumNodes (connman r.2),
         masternodeQuorumRelayMembers (connman r.2)))
    <$> EnsureQuorumConnections 32 llmq_test (test_block 7) 11 (World_new 0 0 1000 false)
    = Some (true, ∅, {[(100, 7) := {[22; 33]}]}).
Proof. split; vm_compute; reflexivity. Qed.

Section relay_inbound.

Context `{Externals}.
Variables (mns : list CDeterministicMN) (fuel : nat).
Hypothesis Hn : 2 ≤ Z.of_nat (length mns) ≤ INT_MAX.
Hypothesis Hnd : NoDup (proTxHash <$> mns).
Hypothesis Hfuel : (32 ≤ fuel)%nat.

(** [calcOutbound] at the index of a member returns the relay neighbours of
    the index. *)
Lemma calcOutbound_neighbours (p : nat) (d : CDeterministicMN) :
  mns !! p = Some d →
  ∃ r, calcOutbound fuel mns (Z.of_nat p) (proTxHash d) = Some r ∧
       ∀ x, x ∈ r ↔ relay_neighbour mns (Z.of_nat p) x.
Proof.
  intros Hp.
  assert (Hin : 0 ≤ Z.of_nat p < Z.of_nat (length mns)).
  { apply lookup_lt_Some in Hp. lia. }
  destruct (calcOutbound_spec mns (Z.of_nat p) (proTxHash d) Hn Hin fuel Hfuel)
    as (r & Hr & Hspec).
  exists r. split; [done|]. intros x. rewrite Hspec. unfold relay_neighbour. split.
  - intros (k & d' & Hk & Hd & Hx & Hne). exists k, d'. repeat split; try done; try lia.
    intros Hidx. rewrite Hidx, Nat2Z.id in Hd. apply Hne. congruence.
  - intros (k & d' & Hk & Hidx & Hd & Hx). exists k, d'. repeat split; try done; try lia.
    intros Heq. apply Hidx. subst x.
    pose proof (Z.mod_pos_bound (Z.of_nat p + 2 ^ k) (Z.of_nat (length mns)) ltac:(lia)).
    apply (proTxHash_index mns p _ d d' Hnd Hp Hd) in Heq. lia.
Qed.

(** Without [onlyOutbound] the loop collects, from index [j] on, the relay
    neighbours of [forMember] and the members that have [forMember] among
    their relay neighbours. *)
Lemma GetQuorumRelayMembers_for_inbound (forMember : uint256) :
  ∀ (rest : list CDeterministicMN) (j : nat) (result : gset uint256),
    (∀ p, rest !! p = mns !! (j + p)%nat) →
    ∃ S : gset uint256,
      GetQuorumRelayMembers_for fuel mns forMember false rest (Z.of_nat j) result = Some S ∧
      ∀ x, x ∈ S ↔
           x ∈ result ∨
           ∃ p d, (j ≤ p)%nat ∧ mns !! p = Some d ∧
                  ((proTxHash d = forMember ∧ relay_neighbour mns (Z.of_nat p) x) ∨
                   (proTxHash d ≠ forMember ∧ proTxHash d = x ∧
                    relay_neighbour mns (Z.of_nat p) forMember)).
Proof.
  induction rest as [|dmn rest IH]; intros j result Hrest; simpl.
  - exists result. split; [done|]. intros x. split; [by left|].
    intros [?|(p & d & Hp & Hd & _)]; [done|].
    specialize (Hrest (p - j)%nat). replace (j + (p - j))%nat with p in Hrest by lia.
    rewrite Hd in Hrest. done.
  - assert (Hj : mns !! j = Some dmn).
    { specialize (Hrest 0%nat). rewrite Nat.add_0_r in Hrest. by rewrite <- Hrest. }
    assert (Hrest' : ∀ p, rest !! p = mns !! (S j + p)%nat).
    { intros p. specialize (Hrest (S p)). simpl in Hrest.
      by replace (S j + p)%nat with (j + S p)%nat by lia. }
    destruct (calcOutbound_neighbours j dmn Hj) as (r & Hr & Hnb). rewrite Hr.
    replace (Z.of_nat j + 1) with (Z.of_nat (S j)) by lia.
    destruct (decide (proTxHash dmn = forMember)) as [Heq|Hne].
    + destruct (IH (S j) (r ∪ result) Hrest') as (S' & HS' & Hin).
      exists S'. split; [done|]. intros x. rewrite Hin, elem_of_union, Hnb. split.
      * intros [[Hx|?]|(p & d & Hp & Hd & Hcase)]; [right|by left|right].
        -- exists j, dmn. split; [lia|]. split; [done|]. by left.
        -- exists p, d. split; [lia|done].
      * intros [?|(p & d & Hp & Hd & Hcase)]; [left; by right|].
        destruct (decide (p = j)) as [->|Hpj].
        -- assert (d = dmn) as -> by congruence.
           destruct Hcase as [[_ Hx]|[Hd' _]]; [left; by left|done].
        -- right. exists p, d. split; [lia|done].
    + simpl.
      destruct (IH (S j) (if decide (forMember ∈ r) then {[proTxHash dmn]} ∪ result
                          else result) Hrest') as (S' & HS' & Hin).
      exists S'. split; [done|]. intros x. rewrite Hin. split.
      * intros [Hx|(p & d & Hp & Hd & Hcase)]; [|right; exists p, d; split; [lia|done]].
        destruct (decide (forMember ∈ r)) as [Hfr|Hfr]; [|by left].
        apply elem_of_union in Hx as [Hx|?]; [|by left].
        apply elem_of_singleton in Hx. right. exists j, dmn.
        split; [lia|]. split; [done|]. right. split; [done|]. split; [done|].
        by apply Hnb.
      * intros [?|(p & d & Hp & Hd & Hcase)].
        -- left. destruct (decide (forMember ∈ r)); [set_solver|done].
        -- destruct (decide (p = j)) as [->|Hpj].
           ++ assert (d = dmn) as -> by congruence.
              destruct Hcase as [[Hd' _]|(_ & Hx & Hfor)]; [done|].
              left. rewrite decide_True by (by apply Hnb). set_solver.
           ++ right. exists p, d. split; [lia|done].
Qed.

End relay_inbound.

Section relay_symmetric.

Context `{Externals}.

Lemma relay_neighbour_ne (mns : list CDeterministicMN) (i : nat) a x :
  NoDup (proTxHash <$> mns) → 2 ≤ Z.of_nat (length mns) →
  mns !! i = Some a → relay_neighbour mns (Z.of_nat i) x → x ≠ proTxHash a.
Proof.
  intros Hnd Hn Hi (k & d & Hk & Hidx & Hd & Hx) Heq. apply Hidx. subst x.
  pose proof (Z.mod_pos_bound (Z.of_nat i + 2 ^ k) (Z.of_nat (length mns)) ltac:(lia)).
  apply (proTxHash_index mns i _ a d Hnd Hi Hd) in Heq. lia.
Qed.

(** The set for a member without [onlyOutbound]: its relay neighbours and
    the members of which it is a relay neighbour. *)
Lemma GetQuorumRelayMembers_run_inbound fuel llmqParams pindex w (i : nat) a :
  cache_coherent (mapQuorumMembers w) →
  registered llmqParams →
  NoDup (proTxHash <$> members_for llmqParams (GetBlockHash pindex)) →
  2 ≤ Z.of_nat (length (members_for llmqParams (GetBlockHash pindex))) ≤ INT_MAX →
  members_for llmqParams (GetBlockHash pindex) !! i = Some a →
  (32 ≤ fuel)%nat →
  ∃ (r : gset uint256) w',
    GetQuorumRelayMembers fuel llmqParams pindex (proTxHash a) false w = Some (r, w') ∧
    ∀ x, x ∈ r ↔
         relay_neighbour (members_for llmqParams (GetBlockHash pindex)) (Z.of_nat i) x ∨
         ∃ p d, members_for llmqParams (GetBlockHash pindex) !! p = Some d ∧
                proTxHash d = x ∧
                relay_neighbour (members_for llmqParams (GetBlockHash pindex))
                  (Z.of_nat p) (proTxHash a).
Proof.
  intros Hw Hreg Hnd Hn Hi Hfuel.
  set (mns := members_for llmqParams (GetBlockHash pindex)) in *.
  destruct (GetAllQuorumMembers_run llmqParams pindex w Hw Hreg) as (m & Hg & _).
  destruct (GetQuorumRelayMembers_for_inbound mns fuel Hn Hnd Hfuel (proTxHash a) mns 0 ∅)
    as (r & Hr & Hin); [done|].
  exists r. eexists. split.
  - unfold GetQuorumRelayMembers, bind, lift. rewrite Hg. fold mns.
    change 0 with (Z.of_nat 0). by rewrite Hr.
  - intros x. rewrite Hin. split.
    + intros [?|(p & d & _ & Hd & [[Heq Hnb]|(Hne & Hx & Hnb)])]; [set_solver| |].
      * left. apply (proTxHash_index mns i p a d Hnd Hi Hd) in Heq. by subst p.
      * right. by exists p, d.
    + intros [Hnb|(p & d & Hd & Hx & Hnb)]; right.
      * exists i, a. split; [lia|]. split; [done|]. by left.
      * exists p, d. split; [lia|]. split; [done|]. right. split; [|done].
        subst x. intros Heq. symmetry in Heq. revert Heq.
        by apply (relay_neighbour_ne mns p d (proTxHash a) Hnd ltac:(lia) Hd).
Qed.

(** X8. Without [onlyOutbound] the relay relation is symmetric: in a quorum
    of [n ≥ 2] members, the set [GetQuorumRelayMembers] returns for member
    [a] contains member [b] if and only if the set it returns for [b]
    contains [a].  The set of [a] contains the relay neighbours of [a] and
    never [a] itself. *)
Theorem GetQuorumRelayMembers_symmetric (fuel : nat) (llmqParams : Consensus.LLMQParams)
    (pindex : CBlockIndex) (wa wb : World) (i j : nat) (a b : CDeterministicMN) :
  let mns := members_for llmqParams (GetBlockHash pindex) in
  cache_coherent (mapQuorumMembers wa) →
  cache_coherent (mapQuorumMembers wb) →
  registered llmqParams →
  NoDup (proTxHash <$> mns) →
  2 ≤ Z.of_nat (length mns) ≤ INT_MAX →
  mns !! i = Some a →
  mns !! j = Some b →
  (32 ≤ fuel)%nat →
  ∃ (Sa Sb : gset uint256) wa' wb',
    GetQuorumRelayMembers fuel llmqParams pindex (proTxHash a) false wa = Some (Sa, wa') ∧
    GetQuorumRelayMembers fuel llmqParams pindex (proTxHash b) false wb = Some (Sb, wb') ∧
    (proTxHash b ∈ Sa ↔ proTxHash a ∈ Sb) ∧
    (∀ x, relay_neighbour mns (Z.of_nat i) x → x ∈ Sa) ∧
    proTxHash a ∉ Sa.
Proof.
  intros mns Hwa Hwb Hreg Hnd Hn Hi Hj Hfuel.
  destruct (GetQuorumRelayMembers_run_inbound fuel llmqParams pindex wa i a
              Hwa Hreg Hnd Hn Hi Hfuel) as (Sa & wa' & Hra & Ha).
  destruct (GetQuorumRelayMembers_run_inbound fuel llmqParams pindex wb j b
              Hwb Hreg Hnd Hn Hj Hfuel) as (Sb & wb' & Hrb & Hb).
  fold mns in Ha, Hb.
  exists Sa, Sb, wa', wb'. split; [done|]. split; [done|].
  assert (Hidx : ∀ (p q : nat) (c d : CDeterministicMN),
            mns !! p = Some c → mns !! q = Some d → proTxHash d = proTxHash c → q = p).
  { intros p q c d Hp Hq Heq. by apply (proTxHash_index mns p q c d Hnd Hp Hq). }
  split; [|split].
  - rewrite Ha, Hb. split.
    + intros [Hnb|(p & d & Hd & Hx & Hnb)].
      * right. by exists i, a.
      * left. by rewrite <- (Hidx j p b d Hj Hd Hx).
    + intros [Hnb|(p & d & Hd & Hx & Hnb)].
      * right. by exists j, b.
      * left. by rewrite <- (Hidx i p a d Hi Hd Hx).
  - intros x Hx. apply Ha. by left.
  - rewrite Ha. intros [Hnb|(p & d & Hd & Hx & Hnb)].
    + by apply (relay_neighbour_ne mns i a (proTxHash a) Hnd ltac:(lia) Hi).
    + rewrite (Hidx i p a d Hi Hd Hx) in Hnb.
      by apply (relay_neighbour_ne mns i a (proTxHash a) Hnd ltac:(lia) Hi).
Qed.

End relay_symmetric.

Lemma GetQuorumRelayMembers_symmetric_witness :
  let H := test_externals in
  let wa := World_new 2 0 1000 false in
  let wb := World_new 2 0 1001 false in
  let mns := members_for llmq_test (GetBlockHash (test_block 7)) in
  cache_coherent (mapQuorumMembers wa) ∧
  cache_coherent (mapQuorumMembers wb) ∧
  registered llmq_test ∧
  NoDup (proTxHash <$> mns) ∧
  2 ≤ Z.of_nat (length mns) ≤ INT_MAX ∧
  mns !! 0%nat = Some (test_mn 11) ∧
  mns !! 2%nat = Some (test_mn 33) ∧
  (32 ≤ 32)%nat ∧
  ∃ (Sa Sb : gset uint256) wa' wb',
    GetQuorumRelayMembers 32 llmq_test (test_block 7) (proTxHash (test_mn 11)) false wa
      = Some (Sa, wa') ∧
    GetQuorumRelayMembers 32 llmq_test (test_block 7) (proTxHash (test_mn 33)) false wb
      = Some (Sb, wb') ∧
    (proTxHash (test_mn 33) ∈ Sa ↔ proTxHash (test_mn 11) ∈ Sb) ∧
    (∀ x, relay_neighbour mns (Z.of_nat 0) x → x ∈ Sa) ∧
    proTxHash (test_mn 11) ∉ Sa.
Proof.
  intros H wa wb mns.
  assert (Hwa : cache_coherent (mapQuorumMembers wa)) by apply World_new_coherent.
  assert (Hwb : cache_coherent (mapQuorumMembers wb)) by apply World_new_coherent.
  assert (Hreg : registered llmq_test) by reflexivity.
  assert (Hnd : NoDup (proTxHash <$> mns)) by (vm_compute; repeat constructor; set_solver).
  assert (Hn : 2 ≤ Z.of_nat (length mns) ≤ INT_MAX) by (vm_compute; split; discriminate).
  assert (Hi : mns !! 0%nat = Some (test_mn 11)) by reflexivity.
  assert (Hj : mns !! 2%nat = Some (test_mn 33)) by reflexivity.
  assert (Hfuel : (32 ≤ 32)%nat) by lia.
  repeat (split; [assumption|]).
  exact (GetQuorumRelayMembers_symmetric 32 llmq_test (test_block 7) wa wb 0 2
           (test_mn 11) (test_mn 33) Hwa Hwb Hreg Hnd Hn Hi Hj Hfuel).
Defined.

(** ** Meta information and probes, continued *)

Section meta_more.

Context `{Externals}.

Lemma with_metaInfos_id w : with_metaInfos (metaInfos w) w = w.
Proof. by destruct w. Qed.

Lemma GetMetaInfo_create hash w :
  GetMetaInfo hash true w =
    Some (Some (meta_info w hash),
          with_metaInfos
            (match metaInfos w !! hash with
             | Some _ => metaInfos w
             | None => <[hash := CMasternodeMetaInfo_new hash]> (metaInfos w)
             end) w).
Proof.
  unfold GetMetaInfo, bind, gets, meta_info.
  destruct (metaInfos w !! hash) as [info|] eqn:Hinfo; simpl.
  - by rewrite with_metaInfos_id.
  - reflexivity.
Qed.

(** X9. [GetMetaInfo] with [fCreate] never returns null and stores what it
    returns: a later lookup of the same masternode, with or without
    [fCreate], returns the same information and changes nothing; the entries
    of the other masternodes are untouched.  Without [fCreate] a masternode
    that has no entry yields null and the map is left as it is. *)
Theorem GetMetaInfo_create_lookup (hash : uint256) (w : World) :
  ∃ info w1,
    GetMetaInfo hash true w = Some (Some info, w1) ∧
    metaInfos w1 !! hash = Some info ∧
    GetMetaInfo hash false w1 = Some (Some info, w1) ∧
    GetMetaInfo hash true w1 = Some (Some info, w1) ∧
    (∀ y, y ≠ hash → metaInfos w1 !! y = metaInfos w !! y) ∧
    (metaInfos w !! hash = None → GetMetaInfo hash false w = Some (None, w)).
Proof.
  rewrite GetMetaInfo_create. eexists _, _. split; [reflexivity|].
  unfold GetMetaInfo, bind, gets, ret, meta_info.
  destruct (metaInfos w !! hash) as [info|] eqn:Hinfo; simpl.
  - rewrite Hinfo. simpl. rewrite with_metaInfos_id.
    repeat split; try done. all: by rewrite Hinfo.
  - rewrite !lookup_insert_eq. repeat split; try done.
    intros y Hy. by rewrite lookup_insert_ne.
Qed.

Lemma is_member_cons x dmn (rest : list CDeterministicMN) :
  is_member x (dmn :: rest) ↔ proTxHash dmn = x ∨ is_member x rest.
Proof.
  unfold is_member. split.
  - intros (d & Hd & Hx). apply elem_of_cons in Hd as [->|Hd]; [by left|right; eauto].
  - intros [Hx|(d & Hd & Hx)]; [exists dmn; split; [left|done]|].
    exists d. split; [by right|done].
Qed.

(** The loop over the members stores an entry for every member other than
    the local node and changes no entry. *)
Lemma AddQuorumProbeConnections_for_infos members myProTxHash curTime :
  ∀ (probeConnections : gset uint256) w,
    ∃ probes infos,
      AddQuorumProbeConnections_for members myProTxHash curTime probeConnections w
        = Some (probes, with_metaInfos infos w) ∧
      metaInfos w ⊆ infos ∧
      ∀ y, is_Some (infos !! y) ↔
           is_Some (metaInfos w !! y) ∨ (is_member y members ∧ y ≠ myProTxHash).
Proof.
  induction members as [|dmn rest IH]; intros probeConnections w; simpl.
  - exists probeConnections, (metaInfos w). rewrite with_metaInfos_id.
    split; [done|]. split; [done|]. intros y. split; [by left|].
    intros [?|[(d & Hd & _) _]]; [done|]. by apply elem_of_nil in Hd.
  - destruct (decide (proTxHash dmn = myProTxHash)) as [Heq|Hne].
    + destruct (IH probeConnections w) as (probes & infos & Hrun & Hsub & Hdom).
      exists probes, infos. split; [done|]. split; [done|].
      intros y. rewrite Hdom, is_member_cons. split; [naive_solver|].
      intros [?|([Hy|?] & ?)]; [by left|congruence|by right].
    + unfold bind. rewrite GetMetaInfo_create.
      set (infos1 := match metaInfos w !! proTxHash dmn with
                     | Some _ => metaInfos w
                     | None => <[proTxHash dmn := CMasternodeMetaInfo_new (proTxHash dmn)]>
                                 (metaInfos w)
                     end).
      assert (Hsub1 : metaInfos w ⊆ infos1).
      { unfold infos1. destruct (metaInfos w !! proTxHash dmn) eqn:Hd; [done|].
        by apply insert_subseteq. }
      assert (Hdom1 : ∀ y, is_Some (infos1 !! y) ↔
                           is_Some (metaInfos w !! y) ∨ proTxHash dmn = y).
      { intros y. unfold infos1. destruct (metaInfos w !! proTxHash dmn) eqn:Hd.
        - split; [by left|]. intros [?|<-]; [done|]. by rewrite Hd.
        - destruct (decide (proTxHash dmn = y)) as [<-|Hy].
          + rewrite lookup_insert_eq. split; [by right|by eauto].
          + rewrite lookup_insert_ne by done. split; [by left|]. by intros [?|?]. }
      change (10 * 60) with 600.
      destruct (decide (to_int64 (curTime - GetLastOutboundSuccess
                                             (meta_info w (proTxHash dmn))) > 600)).
      * destruct (IH ({[proTxHash dmn]} ∪ probeConnections) (with_metaInfos infos1 w))
          as (probes & infos & Hrun & Hsub & Hdom).
        exists probes, infos. split; [exact Hrun|]. split; [by etrans|].
        intros y. rewrite Hdom. simpl. rewrite Hdom1, is_member_cons. split.
        -- intros [[?|<-]|(? & ?)]; [by left|right|right]; naive_solver.
        -- intros [?|([?|?] & ?)]; [left; by left|left; by right|by right].
      * destruct (IH probeConnections (with_metaInfos infos1 w))
          as (probes & infos & Hrun & Hsub & Hdom).
        exists probes, infos. split; [exact Hrun|]. split; [by etrans|].
        intros y. rewrite Hdom. simpl. rewrite Hdom1, is_member_cons. split.
        -- intros [[?|<-]|(? & ?)]; [by left|right|right]; naive_solver.
        -- intros [?|([?|?] & ?)]; [left; by left|left; by right|by right].
Qed.

(** X10. What a call of [AddQuorumProbeConnections] leaves behind when the
    spork is active: every member of the quorum other than the local node
    has an entry of meta information afterwards, no entry that existed is
    changed or removed, and no entry is made for anybody else; the pending
    probes only grow, and the local node is never added to them. *)
Theorem AddQuorumProbeConnections_effects (llmqParams : Consensus.LLMQParams)
    (pindex : CBlockIndex) (myProTxHash : uint256) (w : World) :
  cache_coherent (mapQuorumMembers w) →
  registered llmqParams →
  EvalSpork (Consensus.type llmqParams) (SPORK_23_QUORUM_POSE w) = true →
  ∃ w', AddQuorumProbeConnections llmqParams pindex myProTxHash w = Some (tt, w') ∧
        metaInfos w ⊆ metaInfos w' ∧
        (∀ y, is_Some (metaInfos w' !! y) ↔
              is_Some (metaInfos w !! y) ∨
              (is_member y (members_for llmqParams (GetBlockHash pindex)) ∧ y ≠ myProTxHash)) ∧
        masternodePendingProbes (connman w) ⊆ masternodePendingProbes (connman w') ∧
        (myProTxHash ∈ masternodePendingProbes (connman w') →
         myProTxHash ∈ masternodePendingProbes (connman w)).
Proof.
  intros Hw Hreg Hspork. unfold AddQuorumProbeConnections, IsQuorumPoseEnabled, bind, gets.
  simpl. rewrite Hspork. simpl.
  destruct (GetAllQuorumMembers_run llmqParams pindex w Hw Hreg) as (m & -> & _).
  simpl.
  set (mns := members_for llmqParams (GetBlockHash pindex)).
  destruct (AddQuorumProbeConnections_for_infos mns myProTxHash (adjustedTime w)
              ∅ (with_mapQuorumMembers m w)) as (probes & infos & Hrun & Hsub & Hdom).
  destruct (AddQuorumProbeConnections_for_run mns myProTxHash (adjustedTime w)
              ∅ (with_mapQuorumMembers m w)) as (probes' & infos' & Hrun' & _ & Hin).
  rewrite Hrun in Hrun'. simplify_eq. rewrite Hrun. simpl in *.
  assert (Hmy : myProTxHash ∉ probes').
  { rewrite Hin. intros [?|(_ & ? & _)]; [set_solver|done]. }
  destruct (decide (probes' = ∅)).
  - eexists. split; [reflexivity|]. simpl. repeat split; try done; apply Hdom.
  - eexists. split; [reflexivity|]. simpl. split; [done|]. split; [done|].
    split; set_solver.
Qed.

End meta_more.

Lemma AddQuorumProbeConnections_effects_witness :
  let H := test_externals in
  let w := test_world 0 0 false in
  cache_coherent (mapQuorumMembers w) ∧
  registered llmq_test ∧
  EvalSpork (Consensus.type llmq_test) (SPORK_23_QUORUM_POSE w) = true ∧
  ∃ w', AddQuorumProbeConnections llmq_test (test_block 7) 11 w = Some (tt, w') ∧
        metaInfos w ⊆ metaInfos w' ∧
        (∀ y, is_Some (metaInfos w' !! y) ↔
              is_Some (metaInfos w !! y) ∨
              (is_member y (members_for llmq_test (GetBlockHash (test_block 7))) ∧ y ≠ 11)) ∧
        masternodePendingProbes (connman w) ⊆ masternodePendingProbes (connman w') ∧
        (11 ∈ masternodePendingProbes (connman w') →
         11 ∈ masternodePendingProbes (connman w)).
Proof.
  intros H w.
  assert (Hw : cache_coherent (mapQuorumMembers w)) by apply World_new_coherent.
  assert (Hreg : registered llmq_test) by reflexivity.
  assert (Hs : EvalSpork (Consensus.type llmq_test) (SPORK_23_QUORUM_POSE w) = true)
    by reflexivity.
  repeat (split; [assumption|]).
  exact (AddQuorumProbeConnections_effects llmq_test (test_block 7) 11 w Hw Hreg Hs).
Defined.

(** ** Governance votes *)

Section MetaMan_facts.

Variable Info_new : uint256 → MetaMan.Info.

Lemma MetaMan_AddGovernanceVote_run proTxHash obj mm :
  ∃ mm',
    MetaMan.AddGovernanceVote Info_new proTxHash obj mm = Some (true, mm') ∧
    MetaMan.votes Info_new mm' proTxHash obj
      = to_int (MetaMan.votes Info_new mm proTxHash obj + 1) ∧
    (∀ p o, (p, o) ≠ (proTxHash, obj) →
            MetaMan.votes Info_new mm' p o = MetaMan.votes Info_new mm p o) ∧
    is_Some (MetaMan.metaInfos mm' !! proTxHash) ∧
    MetaMan.vecDirtyGovernanceObjectHashes mm' = MetaMan.vecDirtyGovernanceObjectHashes mm.
Proof.
  unfold MetaMan.AddGovernanceVote, MetaMan.GetMetaInfo, MetaMan.votes.
  destruct (MetaMan.metaInfos mm !! proTxHash) as [info|] eqn:Hinfo; simpl.
  - eexists. split; [reflexivity|]. simpl. rewrite lookup_insert_eq. simpl.
    rewrite lookup_insert_eq. simpl. split; [done|]. split; [|split; [by eauto|done]].
    intros p o Hpo. destruct (decide (p = proTxHash)) as [->|Hp].
    + rewrite lookup_insert_eq, Hinfo. simpl. rewrite lookup_insert_ne; [done|congruence].
    + by rewrite lookup_insert_ne.
  - eexists. split; [reflexivity|]. simpl. rewrite lookup_insert_eq. simpl.
    rewrite lookup_insert_eq. simpl. split; [done|]. split; [|split; [by eauto|done]].
    intros p o Hpo. destruct (decide (p = proTxHash)) as [->|Hp].
    + rewrite lookup_insert_eq, Hinfo. simpl. rewrite lookup_insert_ne; [done|congruence].
    + by rewrite !lookup_insert_ne.
Qed.

(** X11. Votes are counted: [n] calls of [AddGovernanceVote] for a
    masternode and an object all return and raise the count of that
    masternode on that object by [n], as long as the count stays an [int];
    the counts of the other masternodes and objects are as before. *)
Theorem MetaMan_AddGovernanceVote_counts (n : nat) (proTxHash obj : uint256)
    (mm : MetaMan.t) :
  0 ≤ MetaMan.votes Info_new mm proTxHash obj →
  MetaMan.votes Info_new mm proTxHash obj + Z.of_nat n ≤ INT_MAX →
  ∃ mm',
    MetaMan.AddGovernanceVotes Info_new n proTxHash obj mm = Some mm' ∧
    MetaMan.votes Info_new mm' proTxHash obj
      = MetaMan.votes Info_new mm proTxHash obj + Z.of_nat n ∧
    (∀ p o, (p, o) ≠ (proTxHash, obj) →
            MetaMan.votes Info_new mm' p o = MetaMan.votes Info_new mm p o).
Proof.
  revert mm. induction n as [|n IH]; intros mm H0 Hmax.
  - exists mm. split; [done|]. split; [lia|done].
  - simpl. destruct (MetaMan_AddGovernanceVote_run proTxHash obj mm)
      as (mm1 & -> & Hv & Hother & _).
    unfold INT_MAX in Hmax. rewrite to_int_small in Hv by lia.
    destruct (IH mm1) as (mm' & Hrun & Hv' & Hother'); [lia|unfold INT_MAX; lia|].
    exists mm'. split; [done|]. split; [lia|].
    intros p o Hpo. rewrite Hother' by done. by apply Hother.
Qed.

(** X12. [RemoveGovernanceObject] forgets the object for every masternode
    and nothing else: afterwards no entry holds the object, also when votes
    on it were just added; the counts of all other objects, the set of the
    masternodes with an entry and the dirty hashes are as before. *)
Theorem MetaMan_RemoveGovernanceObject_forgets (obj : uint256) (mm : MetaMan.t) :
  let mm' := MetaMan.RemoveGovernanceObject obj mm in
  (∀ p info, MetaMan.metaInfos mm' !! p = Some info →
             MetaMan.mapGovernanceObjectsVotedOn info !! obj = None) ∧
  (∀ p o, o ≠ obj →
          (MetaMan.mapGovernanceObjectsVotedOn <$> MetaMan.metaInfos mm' !! p) ≫= (.!! o)
          = (MetaMan.mapGovernanceObjectsVotedOn <$> MetaMan.metaInfos mm !! p) ≫= (.!! o)) ∧
  dom (MetaMan.metaInfos mm') = dom (MetaMan.metaInfos mm) ∧
  MetaMan.vecDirtyGovernanceObjectHashes mm' = MetaMan.vecDirtyGovernanceObjectHashes mm ∧
  (∀ p mm1 info,
     MetaMan.AddGovernanceVote Info_new p obj mm = Some (true, mm1) →
     MetaMan.metaInfos (MetaMan.RemoveGovernanceObject obj mm1) !! p = Some info →
     MetaMan.mapGovernanceObjectsVotedOn info !! obj = None).
Proof.
  intros mm'. assert (Hgone : ∀ m p info,
      MetaMan.metaInfos (MetaMan.RemoveGovernanceObject obj m) !! p = Some info →
      MetaMan.mapGovernanceObjectsVotedOn info !! obj = None).
  { intros m p info. simpl. rewrite lookup_fmap.
    destruct (MetaMan.metaInfos m !! p) as [i|]; simpl; [|done].
    intros [= <-]. simpl. apply lookup_delete_eq. }
  split; [apply Hgone|]. split; [|split; [|split; [done|]]].
  - intros p o Ho. unfold mm'. simpl. rewrite lookup_fmap.
    destruct (MetaMan.metaInfos mm !! p) as [i|]; simpl; [|done].
    by rewrite lookup_delete_ne.
  - unfold mm'. simpl. apply dom_fmap_L.
  - intros p mm1 info _. apply Hgone.
Qed.

End MetaMan_facts.

Lemma MetaMan_AddGovernanceVote_counts_witness :
  0 ≤ MetaMan.votes test_Info_new test_MetaMan 22 5 ∧
  MetaMan.votes test_Info_new test_MetaMan 22 5 + Z.of_nat 3 ≤ INT_MAX ∧
  ∃ mm',
    MetaMan.AddGovernanceVotes test_Info_new 3 22 5 test_MetaMan = Some mm' ∧
    MetaMan.votes test_Info_new mm' 22 5
      = MetaMan.votes test_Info_new test_MetaMan 22 5 + Z.of_nat 3 ∧
    (∀ p o, (p, o) ≠ (22, 5) →
            MetaMan.votes test_Info_new mm' p o = MetaMan.votes test_Info_new test_MetaMan p o).
Proof.
  assert (H0 : 0 ≤ MetaMan.votes test_Info_new test_MetaMan 22 5) by (vm_compute; discriminate).
  assert (Hmax : MetaMan.votes test_Info_new test_MetaMan 22 5 + Z.of_nat 3 ≤ INT_MAX)
    by (vm_compute; discriminate).
  split; [assumption|]. split; [assumption|].
  exact (MetaMan_AddGovernanceVote_counts test_Info_new 3 22 5 test_MetaMan H0 Hmax).
Defined.

(** The votes of the test manager, computed: masternode 22 has two votes on
    object 5; one more vote makes three, a first vote of masternode 33 makes
    one and creates its entry, and removing object 5 leaves none. *)
Example MetaMan_run :
  (MetaMan.votes test_Info_new test_MetaMan 22 5 = 2) ∧
  ((λ r, MetaMan.votes test_Info_new r.2 22 5)
     <$> MetaMan.AddGovernanceVote test_Info_new 22 5 test_MetaMan = Some 3) ∧
  ((λ r, (MetaMan.votes test_Info_new r.2 33 5, dom (MetaMan.metaInfos r.2)))
     <$> MetaMan.AddGovernanceVote test_Info_new 33 5 test_MetaMan = Some (1, {[22; 33]})) ∧
  MetaMan.votes test_Info_new (MetaMan.RemoveGovernanceObject 5 test_MetaMan) 22 5 = 0.
Proof. repeat split; vm_compute; reflexivity. Qed.

(** ** Masternode state and state diffs *)

Section evo_state_facts.

Lemma CDeterministicMNState_ext (s s' : evo.CDeterministicMNState) :
  evo.nPoSeBanHeight s = evo.nPoSeBanHeight s' →
  evo.nRegisteredHeight s = evo.nRegisteredHeight s' →
  evo.nCollateralHeight s = evo.nCollateralHeight s' →
  evo.nLastPaidHeight s = evo.nLastPaidHeight s' →
  evo.nPoSePenalty s = evo.nPoSePenalty s' →
  evo.nPoSeRevivedHeight s = evo.nPoSeRevivedHeight s' →
  evo.nRevocationReason s = evo.nRevocationReason s' →
  evo.confirmedHash s = evo.confirmedHash s' →
  evo.confirmedHashWithProRegTxHash s = evo.confirmedHashWithProRegTxHash s' →
  evo.keyIDOwner s = evo.keyIDOwner s' →
  evo.pubKeyOperator s = evo.pubKeyOperator s' →
  evo.keyIDVoting s = evo.keyIDVoting s' →
  evo.addr s = evo.addr s' →
  evo.scriptPayout s = evo.scriptPayout s' →
  evo.scriptOperatorPayout s = evo.scriptOperatorPayout s' →
  s = s'.
Proof. destruct s, s'. simpl. intros. by subst. Qed.

(** X13. A ban is kept until the masternode is revived: [BanIfNotBanned]
    bans at the given height a masternode that is not banned and leaves a
    banned one as it is, so that the first ban height stands; [Revive]
    lifts the ban and clears the penalty, and a later ban takes effect
    again.  The height [-1] bans nothing. *)
Theorem BanIfNotBanned_first_ban_stands (h1 h2 revived : Z) (s : evo.CDeterministicMNState) :
  evo.IsBanned (evo.BanIfNotBanned h1 s) = evo.IsBanned s || bool_decide (h1 ≠ -1) ∧
  (evo.IsBanned s = true → evo.BanIfNotBanned h1 s = s) ∧
  (h1 ≠ -1 →
   evo.BanIfNotBanned h2 (evo.BanIfNotBanned h1 s) = evo.BanIfNotBanned h1 s) ∧
  evo.IsBanned (evo.Revive revived s) = false ∧
  evo.nPoSePenalty (evo.Revive revived s) = 0 ∧
  evo.GetBannedHeight (evo.BanIfNotBanned h2 (evo.Revive revived s)) = h2.
Proof.
  unfold evo.BanIfNotBanned, evo.IsBanned, evo.GetBannedHeight, evo.Revive.
  repeat split.
  - destruct (bool_decide (evo.nPoSeBanHeight s ≠ -1)) eqn:Hs; simpl; [done|].
    reflexivity.
  - by intros ->.
  - intros Hh. destruct (bool_decide (evo.nPoSeBanHeight s ≠ -1)) eqn:Hs; simpl.
    + by rewrite Hs.
    + by rewrite (bool_decide_eq_true_2 (h1 ≠ -1)) by done.
Qed.

(** One line of [ApplyToState] read through a member. *)
Lemma DMN_STATE_APPLY_LINE_other {Ti Tj} (fi : evo.CDeterministicMNState → Ti)
    (fj : evo.CDeterministicMNState → Tj) set_fj Field_fj d target :
  (∀ v s, fi (set_fj v s) = fi s) →
  fi (evo.DMN_STATE_APPLY_LINE fj set_fj Field_fj d target) = fi target.
Proof. intros Hset. unfold evo.DMN_STATE_APPLY_LINE. case_decide; [apply Hset|done]. Qed.

Lemma DMN_STATE_APPLY_LINE_same {T} (f : evo.CDeterministicMNState → T) set_f Field_f d target :
  (∀ v s, f (set_f v s) = v) →
  f (evo.DMN_STATE_APPLY_LINE f set_f Field_f d target) =
    if decide (Z.land (evo.fields d) Field_f ≠ 0) then f (evo.state d) else f target.
Proof. intros Hset. unfold evo.DMN_STATE_APPLY_LINE. case_decide; [apply Hset|done]. Qed.

(** One line of the constructor read through a member, and its flag. *)
Lemma DMN_STATE_DIFF_LINE_other {Ti Tj} `{EqDecision Tj} (fi : evo.CDeterministicMNState → Ti)
    (fj : evo.CDeterministicMNState → Tj) set_fj Field_fj a b d :
  (∀ v s, fi (set_fj v s) = fi s) →
  fi (evo.state (evo.DMN_STATE_DIFF_LINE fj set_fj Field_fj a b d)) = fi (evo.state d).
Proof. intros Hset. unfold evo.DMN_STATE_DIFF_LINE. case_decide; [apply Hset|done]. Qed.

Lemma DMN_STATE_DIFF_LINE_same {T} `{EqDecision T} (f : evo.CDeterministicMNState → T)
    set_f Field_f a b d :
  (∀ v s, f (set_f v s) = v) →
  f (evo.state (evo.DMN_STATE_DIFF_LINE f set_f Field_f a b d)) =
    if decide (f a ≠ f b) then f b else f (evo.state d).
Proof. intros Hset. unfold evo.DMN_STATE_DIFF_LINE. case_decide; [apply Hset|done]. Qed.

Lemma DMN_STATE_DIFF_LINE_testbit {T} `{EqDecision T} (f : evo.CDeterministicMNState → T)
    set_f Field_f a b d k :
  Z.testbit (evo.fields (evo.DMN_STATE_DIFF_LINE f set_f Field_f a b d)) k =
    Z.testbit (evo.fields d) k || (bool_decide (f a ≠ f b) && Z.testbit Field_f k).
Proof.
  unfold evo.DMN_STATE_DIFF_LINE. destruct (decide (f a ≠ f b)) as [Hne|Heq]; simpl.
  - rewrite Z.lor_spec. by rewrite bool_decide_eq_true_2.
  - rewrite bool_decide_eq_false_2 by exact Heq. by rewrite orb_false_r.
Qed.

Lemma DMN_STATE_DIFF_LINE_same_state {T} `{EqDecision T} (f : evo.CDeterministicMNState → T)
    set_f Field_f a d :
  evo.DMN_STATE_DIFF_LINE f set_f Field_f a a d = d.
Proof. unfold evo.DMN_STATE_DIFF_LINE. by rewrite decide_False by tauto. Qed.

Lemma land_pow2_testbit x k : 0 ≤ k → Z.land x (2 ^ k) ≠ 0 ↔ Z.testbit x k = true.
Proof.
  intros Hk. split.
  - intros Hne. destruct (Z.testbit x k) eqn:Hb; [done|]. elim Hne.
    apply Z.bits_inj'. intros n Hn. rewrite Z.land_spec, Z.bits_0, Z.pow2_bits_eqb by lia.
    destruct (Z.eqb_spec k n) as [->|]; [by rewrite Hb|by rewrite andb_false_r].
  - intros Hb Hz. assert (Z.testbit (Z.land x (2 ^ k)) k = true).
    { rewrite Z.land_spec, Hb, Z.pow2_bits_true; done. }
    rewrite Hz, Z.bits_0 in H. done.
Qed.

Ltac apply_line f :=
  first [ rewrite (DMN_STATE_APPLY_LINE_same f) by (intros; reflexivity)
        | rewrite (DMN_STATE_APPLY_LINE_other f) by (intros; reflexivity) ].

Ltac diff_line f :=
  first [ rewrite (DMN_STATE_DIFF_LINE_same f) by (intros; reflexivity)
        | rewrite (DMN_STATE_DIFF_LINE_other f) by (intros; reflexivity) ].

(** [ApplyToState] member by member: a flagged member is taken from the
    diff, the others from the target. *)
Lemma ApplyToState_spec (d : evo.CDeterministicMNStateDiff) (t : evo.CDeterministicMNState) :
  let pick {T} (Field_f : Z) (f : evo.CDeterministicMNState → T) :=
    if decide (Z.land (evo.fields d) Field_f ≠ 0) then f (evo.state d) else f t in
  evo.ApplyToState d t =
    {| evo.nPoSeBanHeight := pick evo.Field_nPoSeBanHeight evo.nPoSeBanHeight;
       evo.nRegisteredHeight := pick evo.Field_nRegisteredHeight evo.nRegisteredHeight;
       evo.nCollateralHeight := pick evo.Field_nCollateralHeight evo.nCollateralHeight;
       evo.nLastPaidHeight := pick evo.Field_nLastPaidHeight evo.nLastPaidHeight;
       evo.nPoSePenalty := pick evo.Field_nPoSePenalty evo.nPoSePenalty;
       evo.nPoSeRevivedHeight := pick evo.Field_nPoSeRevivedHeight evo.nPoSeRevivedHeight;
       evo.nRevocationReason := pick evo.Field_nRevocationReason evo.nRevocationReason;
       evo.confirmedHash := pick evo.Field_confirmedHash evo.confirmedHash;
       evo.confirmedHashWithProRegTxHash := pick evo.Field_confirmedHashWithProRegTxHash evo.confirmedHashWithProRegTxHash;
       evo.keyIDOwner := pick evo.Field_keyIDOwner evo.keyIDOwner;
       evo.pubKeyOperator := pick evo.Field_pubKeyOperator evo.pubKeyOperator;
       evo.keyIDVoting := pick evo.Field_keyIDVoting evo.keyIDVoting;
       evo.addr := pick evo.Field_addr evo.addr;
       evo.scriptPayout := pick evo.Field_scriptPayout evo.scriptPayout;
       evo.scriptOperatorPayout := pick evo.Field_scriptOperatorPayout evo.scriptOperatorPayout |}.
Proof.
  intros pick. unfold pick. apply CDeterministicMNState_ext; cbn -[Z.land];
    unfold evo.ApplyToState; cbv zeta.
  - repeat apply_line evo.nPoSeBanHeight. reflexivity.
  - repeat apply_line evo.nRegisteredHeight. reflexivity.
  - repeat apply_line evo.nCollateralHeight. reflexivity.
  - repeat apply_line evo.nLastPaidHeight. reflexivity.
  - repeat apply_line evo.nPoSePenalty. reflexivity.
  - repeat apply_line evo.nPoSeRevivedHeight. reflexivity.
  - repeat apply_line evo.nRevocationReason. reflexivity.
  - repeat apply_line evo.confirmedHash. reflexivity.
  - repeat apply_line evo.confirmedHashWithProRegTxHash. reflexivity.
  - repeat apply_line evo.keyIDOwner. reflexivity.
  - repeat apply_line evo.pubKeyOperator. reflexivity.
  - repeat apply_line evo.keyIDVoting. reflexivity.
  - repeat apply_line evo.addr. reflexivity.
  - repeat apply_line evo.scriptPayout. reflexivity.
  - repeat apply_line evo.scriptOperatorPayout. reflexivity.
Qed.

Variables (REASON_NOT_SPECIFIED : Z) (CBLSPublicKey_null : evo.CBLSLazyPublicKey)
  (CService_null : evo.CService).

Local Abbreviation Diff :=
  (evo.CDeterministicMNStateDiff_new REASON_NOT_SPECIFIED CBLSPublicKey_null CService_null).
Local Abbreviation state0 :=
  (evo.CDeterministicMNState_new REASON_NOT_SPECIFIED CBLSPublicKey_null CService_null).

(** The state of a diff member by member: a member in which [b] differs
    from [a] holds the value of [b]. *)
Lemma CDeterministicMNStateDiff_state (a b : evo.CDeterministicMNState) :
  let pick {T} `{EqDecision T} (f : evo.CDeterministicMNState → T) :=
    if decide (f a ≠ f b) then f b else f state0 in
  evo.state (Diff a b) =
    {| evo.nPoSeBanHeight := pick evo.nPoSeBanHeight;
       evo.nRegisteredHeight := pick evo.nRegisteredHeight;
       evo.nCollateralHeight := pick evo.nCollateralHeight;
       evo.nLastPaidHeight := pick evo.nLastPaidHeight;
       evo.nPoSePenalty := pick evo.nPoSePenalty;
       evo.nPoSeRevivedHeight := pick evo.nPoSeRevivedHeight;
       evo.nRevocationReason := pick evo.nRevocationReason;
       evo.confirmedHash := pick evo.confirmedHash;
       evo.confirmedHashWithProRegTxHash := pick evo.confirmedHashWithProRegTxHash;
       evo.keyIDOwner := pick evo.keyIDOwner;
       evo.pubKeyOperator := pick evo.pubKeyOperator;
       evo.keyIDVoting := pick evo.keyIDVoting;
       evo.addr := pick evo.addr;
       evo.scriptPayout := pick evo.scriptPayout;
       evo.scriptOperatorPayout := pick evo.scriptOperatorPayout |}.
Proof.
  intros pick. unfold pick. apply CDeterministicMNState_ext; cbn;
    unfold evo.CDeterministicMNStateDiff_new; cbv zeta.
  - repeat diff_line evo.nPoSeBanHeight. reflexivity.
  - repeat diff_line evo.nRegisteredHeight. reflexivity.
  - repeat diff_line evo.nCollateralHeight. reflexivity.
  - repeat diff_line evo.nLastPaidHeight. reflexivity.
  - repeat diff_line evo.nPoSePenalty. reflexivity.
  - repeat diff_line evo.nPoSeRevivedHeight. reflexivity.
  - repeat diff_line evo.nRevocationReason. reflexivity.
  - repeat diff_line evo.confirmedHash. reflexivity.
  - repeat diff_line evo.confirmedHashWithProRegTxHash. reflexivity.
  - repeat diff_line evo.keyIDOwner. reflexivity.
  - repeat diff_line evo.pubKeyOperator. reflexivity.
  - repeat diff_line evo.keyIDVoting. reflexivity.
  - repeat diff_line evo.addr. reflexivity.
  - repeat diff_line evo.scriptPayout. reflexivity.
  - repeat diff_line evo.scriptOperatorPayout. reflexivity.
Qed.

(** The flags of a diff: the bit of a member is set exactly when [b]
    differs from [a] in it. *)
Lemma CDeterministicMNStateDiff_testbit (a b : evo.CDeterministicMNState) (k : Z) :
  Z.testbit (evo.fields (Diff a b)) k =
    (bool_decide (evo.nRegisteredHeight a ≠ evo.nRegisteredHeight b) && (k =? 0))
    || (bool_decide (evo.nLastPaidHeight a ≠ evo.nLastPaidHeight b) && (k =? 1))
    || (bool_decide (evo.nPoSePenalty a ≠ evo.nPoSePenalty b) && (k =? 2))
    || (bool_decide (evo.nPoSeRevivedHeight a ≠ evo.nPoSeRevivedHeight b) && (k =? 3))
    || (bool_decide (evo.nPoSeBanHeight a ≠ evo.nPoSeBanHeight b) && (k =? 4))
    || (bool_decide (evo.nRevocationReason a ≠ evo.nRevocationReason b) && (k =? 5))
    || (bool_decide (evo.confirmedHash a ≠ evo.confirmedHash b) && (k =? 6))
    || (bool_decide (evo.confirmedHashWithProRegTxHash a ≠ evo.confirmedHashWithProRegTxHash b) && (k =? 7))
    || (bool_decide (evo.keyIDOwner a ≠ evo.keyIDOwner b) && (k =? 8))
    || (bool_decide (evo.pubKeyOperator a ≠ evo.pubKeyOperator b) && (k =? 9))
    || (bool_decide (evo.keyIDVoting a ≠ evo.keyIDVoting b) && (k =? 10))
    || (bool_decide (evo.addr a ≠ evo.addr b) && (k =? 11))
    || (bool_decide (evo.scriptPayout a ≠ evo.scriptPayout b) && (k =? 12))
    || (bool_decide (evo.scriptOperatorPayout a ≠ evo.scriptOperatorPayout b) && (k =? 13))
    || (bool_decide (evo.nCollateralHeight a ≠ evo.nCollateralHeight b) && (k =? 14)).
Proof.
  unfold evo.CDeterministicMNStateDiff_new. cbv zeta.
  rewrite !DMN_STATE_DIFF_LINE_testbit. cbn [evo.fields]. rewrite Z.bits_0, orb_false_l.
  change evo.Field_nRegisteredHeight with (2 ^ 0).
  change evo.Field_nLastPaidHeight with (2 ^ 1).
  change evo.Field_nPoSePenalty with (2 ^ 2).
  change evo.Field_nPoSeRevivedHeight with (2 ^ 3).
  change evo.Field_nPoSeBanHeight with (2 ^ 4).
  change evo.Field_nRevocationReason with (2 ^ 5).
  change evo.Field_confirmedHash with (2 ^ 6).
  change evo.Field_confirmedHashWithProRegTxHash with (2 ^ 7).
  change evo.Field_keyIDOwner with (2 ^ 8).
  change evo.Field_pubKeyOperator with (2 ^ 9).
  change evo.Field_keyIDVoting with (2 ^ 10).
  change evo.Field_addr with (2 ^ 11).
  change evo.Field_scriptPayout with (2 ^ 12).
  change evo.Field_scriptOperatorPayout with (2 ^ 13).
  change evo.Field_nCollateralHeight with (2 ^ 14).
  destruct (decide (0 ≤ k)) as [Hk|Hk].
  - rewrite !Z.pow2_bits_eqb by lia. by rewrite !(Z.eqb_sym _ k).
  - rewrite !Z.testbit_neg_r by lia.
    repeat match goal with |- context [k =? ?n] =>
      rewrite (proj2 (Z.eqb_neq k n)) by lia end.
    by rewrite !andb_false_r.
Qed.

Ltac flag_simpl :=
  cbn [Z.eqb Pos.eqb andb orb];
  rewrite ?andb_false_r, ?orb_false_r, ?andb_true_r, ?orb_false_l.

Ltac flag_fwd Field_f k :=
  let Hflag := fresh "Hflag" in
  intros Hflag; change Field_f with (2 ^ k) in Hflag;
  apply land_pow2_testbit in Hflag; [|lia];
  rewrite CDeterministicMNStateDiff_testbit in Hflag;
  revert Hflag; flag_simpl; intros Hflag;
  by apply bool_decide_eq_true in Hflag.

Ltac flag_bwd Field_f k :=
  let Hne := fresh "Hne" in
  intros Hne; change Field_f with (2 ^ k);
  apply land_pow2_testbit; [lia|];
  rewrite CDeterministicMNStateDiff_testbit; flag_simpl;
  by apply bool_decide_eq_true.

Lemma CDeterministicMNStateDiff_flags (a b : evo.CDeterministicMNState) :
  (Z.land (evo.fields (Diff a b)) evo.Field_nPoSeBanHeight ≠ 0 ↔ evo.nPoSeBanHeight a ≠ evo.nPoSeBanHeight b) ∧
  (Z.land (evo.fields (Diff a b)) evo.Field_nRegisteredHeight ≠ 0 ↔ evo.nRegisteredHeight a ≠ evo.nRegisteredHeight b) ∧
  (Z.land (evo.fields (Diff a b)) evo.Field_nCollateralHeight ≠ 0 ↔ evo.nCollateralHeight a ≠ evo.nCollateralHeight b) ∧
  (Z.land (evo.fields (Diff a b)) evo.Field_nLastPaidHeight ≠ 0 ↔ evo.nLastPaidHeight a ≠ evo.nLastPaidHeight b) ∧
  (Z.land (evo.fields (Diff a b)) evo.Field_nPoSePenalty ≠ 0 ↔ evo.nPoSePenalty a ≠ evo.nPoSePenalty b) ∧
  (Z.land (evo.fields (Diff a b)) evo.Field_nPoSeRevivedHeight ≠ 0 ↔ evo.nPoSeRevivedHeight a ≠ evo.nPoSeRevivedHeight b) ∧
  (Z.land (evo.fields (Diff a b)) evo.Field_nRevocationReason ≠ 0 ↔ evo.nRevocationReason a ≠ evo.nRevocationReason b) ∧
  (Z.land (evo.fields (Diff a b)) evo.Field_confirmedHash ≠ 0 ↔ evo.confirmedHash a ≠ evo.confirmedHash b) ∧
  (Z.land (evo.fields (Diff a b)) evo.Field_confirmedHashWithProRegTxHash ≠ 0 ↔ evo.confirmedHashWithProRegTxHash a ≠ evo.confirmedHashWithProRegTxHash b) ∧
  (Z.land (evo.fields (Diff a b)) evo.Field_keyIDOwner ≠ 0 ↔ evo.keyIDOwner a ≠ evo.keyIDOwner b) ∧
  (Z.land (evo.fields (Diff a b)) evo.Field_pubKeyOperator ≠ 0 ↔ evo.pubKeyOperator a ≠ evo.pubKeyOperator b) ∧
  (Z.land (evo.fields (Diff a b)) evo.Field_keyIDVoting ≠ 0 ↔ evo.keyIDVoting a ≠ evo.keyIDVoting b) ∧
  (Z.land (evo.fields (Diff a b)) evo.Field_addr ≠ 0 ↔ evo.addr a ≠ evo.addr b) ∧
  (Z.land (evo.fields (Diff a b)) evo.Field_scriptPayout ≠ 0 ↔ evo.scriptPayout a ≠ evo.scriptPayout b) ∧
  (Z.land (evo.fields (Diff a b)) evo.Field_scriptOperatorPayout ≠ 0 ↔ evo.scriptOperatorPayout a ≠ evo.scriptOperatorPayout b).
Proof.
  repeat split.
  - flag_fwd evo.Field_nPoSeBanHeight 4.
  - flag_bwd evo.Field_nPoSeBanHeight 4.
  - flag_fwd evo.Field_nRegisteredHeight 0.
  - flag_bwd evo.Field_nRegisteredHeight 0.
  - flag_fwd evo.Field_nCollateralHeight 14.
  - flag_bwd evo.Field_nCollateralHeight 14.
  - flag_fwd evo.Field_nLastPaidHeight 1.
  - flag_bwd evo.Field_nLastPaidHeight 1.
  - flag_fwd evo.Field_nPoSePenalty 2.
  - flag_bwd evo.Field_nPoSePenalty 2.
  - flag_fwd evo.Field_nPoSeRevivedHeight 3.
  - flag_bwd evo.Field_nPoSeRevivedHeight 3.
  - flag_fwd evo.Field_nRevocationReason 5.
  - flag_bwd evo.Field_nRevocationReason 5.
  - flag_fwd evo.Field_confirmedHash 6.
  - flag_bwd evo.Field_confirmedHash 6.
  - flag_fwd evo.Field_confirmedHashWithProRegTxHash 7.
  - flag_bwd evo.Field_confirmedHashWithProRegTxHash 7.
  - flag_fwd evo.Field_keyIDOwner 8.
  - flag_bwd evo.Field_keyIDOwner 8.
  - flag_fwd evo.Field_pubKeyOperator 9.
  - flag_bwd evo.Field_pubKeyOperator 9.
  - flag_fwd evo.Field_keyIDVoting 10.
  - flag_bwd evo.Field_keyIDVoting 10.
  - flag_fwd evo.Field_addr 11.
  - flag_bwd evo.Field_addr 11.
  - flag_fwd evo.Field_scriptPayout 12.
  - flag_bwd evo.Field_scriptPayout 12.
  - flag_fwd evo.Field_scriptOperatorPayout 13.
  - flag_bwd evo.Field_scriptOperatorPayout 13.
Qed.

(** X14. A state diff applied to the state it was taken from gives the
    state it was taken to: [ApplyToState] of the diff of [a] and [b] turns
    [a] into [b].  Applied to any other state [c], it overwrites exactly the
    members in which [b] differs from [a], with the values of [b]. *)
Theorem ApplyToState_diff (a b c : evo.CDeterministicMNState) :
  let pick {T} `{EqDecision T} (f : evo.CDeterministicMNState → T) :=
    if decide (f a ≠ f b) then f b else f c in
  evo.ApplyToState (Diff a b) a = b ∧
  evo.ApplyToState (Diff a b) c =
    {| evo.nPoSeBanHeight := pick evo.nPoSeBanHeight;
       evo.nRegisteredHeight := pick evo.nRegisteredHeight;
       evo.nCollateralHeight := pick evo.nCollateralHeight;
       evo.nLastPaidHeight := pick evo.nLastPaidHeight;
       evo.nPoSePenalty := pick evo.nPoSePenalty;
       evo.nPoSeRevivedHeight := pick evo.nPoSeRevivedHeight;
       evo.nRevocationReason := pick evo.nRevocationReason;
       evo.confirmedHash := pick evo.confirmedHash;
       evo.confirmedHashWithProRegTxHash := pick evo.confirmedHashWithProRegTxHash;
       evo.keyIDOwner := pick evo.keyIDOwner;
       evo.pubKeyOperator := pick evo.pubKeyOperator;
       evo.keyIDVoting := pick evo.keyIDVoting;
       evo.addr := pick evo.addr;
       evo.scriptPayout := pick evo.scriptPayout;
       evo.scriptOperatorPayout := pick evo.scriptOperatorPayout |}.
Proof.
  intros pick. unfold pick.
  pose proof (CDeterministicMNStateDiff_flags a b) as Hflags.
  assert (Hany : ∀ t, evo.ApplyToState (Diff a b) t =
    {| evo.nPoSeBanHeight :=
         if decide (evo.nPoSeBanHeight a ≠ evo.nPoSeBanHeight b) then evo.nPoSeBanHeight b else evo.nPoSeBanHeight t;
       evo.nRegisteredHeight :=
         if decide (evo.nRegisteredHeight a ≠ evo.nRegisteredHeight b) then evo.nRegisteredHeight b else evo.nRegisteredHeight t;
       evo.nCollateralHeight :=
         if decide (evo.nCollateralHeight a ≠ evo.nCollateralHeight b) then evo.nCollateralHeight b else evo.nCollateralHeight t;
       evo.nLastPaidHeight :=
         if decide (evo.nLastPaidHeight a ≠ evo.nLastPaidHeight b) then evo.nLastPaidHeight b else evo.nLastPaidHeight t;
       evo.nPoSePenalty :=
         if decide (evo.nPoSePenalty a ≠ evo.nPoSePenalty b) then evo.nPoSePenalty b else evo.nPoSePenalty t;
       evo.nPoSeRevivedHeight :=
         if decide (evo.nPoSeRevivedHeight a ≠ evo.nPoSeRevivedHeight b) then evo.nPoSeRevivedHeight b else evo.nPoSeRevivedHeight t;
       evo.nRevocationReason :=
         if decide (evo.nRevocationReason a ≠ evo.nRevocationReason b) then evo.nRevocationReason b else evo.nRevocationReason t;
       evo.confirmedHash :=
         if decide (evo.confirmedHash a ≠ evo.confirmedHash b) then evo.confirmedHash b else evo.confirmedHash t;
       evo.confirmedHashWithProRegTxHash :=
         if decide (evo.confirmedHashWithProRegTxHash a ≠ evo.confirmedHashWithProRegTxHash b) then evo.confirmedHashWithProRegTxHash b else evo.confirmedHashWithProRegTxHash t;
       evo.keyIDOwner :=
         if decide (evo.keyIDOwner a ≠ evo.keyIDOwner b) then evo.keyIDOwner b else evo.keyIDOwner t;
       evo.pubKeyOperator :=
         if decide (evo.pubKeyOperator a ≠ evo.pubKeyOperator b) then evo.pubKeyOperator b else evo.pubKeyOperator t;
       evo.keyIDVoting :=
         if decide (evo.keyIDVoting a ≠ evo.keyIDVoting b) then evo.keyIDVoting b else evo.keyIDVoting t;
       evo.addr :=
         if decide (evo.addr a ≠ evo.addr b) then evo.addr b else evo.addr t;
       evo.scriptPayout :=
         if decide (evo.scriptPayout a ≠ evo.scriptPayout b) then evo.scriptPayout b else evo.scriptPayout t;
       evo.scriptOperatorPayout :=
         if decide (evo.scriptOperatorPayout a ≠ evo.scriptOperatorPayout b) then evo.scriptOperatorPayout b else evo.scriptOperatorPayout t |}).
  { intros t. rewrite ApplyToState_spec, CDeterministicMNStateDiff_state.
    apply CDeterministicMNState_ext; cbn -[Z.land evo.CDeterministicMNStateDiff_new];
      repeat case_decide; try done; exfalso; tauto. }
  split; [|apply Hany].
  rewrite Hany. apply CDeterministicMNState_ext; cbn;
    match goal with
    | |- (if decide (?x ≠ ?y) then _ else _) = _ =>
        destruct (decide (x = y)) as [He|Hn];
          [by rewrite decide_False by (by intros ?)|by rewrite decide_True]
    end.
Qed.

(** X15. A diff is empty exactly when the two states are equal, and an
    empty diff changes nothing: [fields] is [0] if and only if [a = b], and
    [ApplyToState] of any diff whose [fields] is [0] returns its target. *)
Theorem CDeterministicMNStateDiff_empty (a b : evo.CDeterministicMNState)
    (d : evo.CDeterministicMNStateDiff) (t : evo.CDeterministicMNState) :
  (evo.fields (Diff a b) = 0 ↔ a = b) ∧
  (evo.fields d = 0 → evo.ApplyToState d t = t).
Proof.
  split; [split|].
  - intros Hz. pose proof (CDeterministicMNStateDiff_flags a b) as Hflags.
    rewrite Hz in Hflags. change (Z.land 0 _) with 0 in Hflags.
    apply CDeterministicMNState_ext.
    + destruct (decide (evo.nPoSeBanHeight a = evo.nPoSeBanHeight b)); [done|exfalso; tauto].
    + destruct (decide (evo.nRegisteredHeight a = evo.nRegisteredHeight b)); [done|exfalso; tauto].
    + destruct (decide (evo.nCollateralHeight a = evo.nCollateralHeight b)); [done|exfalso; tauto].
    + destruct (decide (evo.nLastPaidHeight a = evo.nLastPaidHeight b)); [done|exfalso; tauto].
    + destruct (decide (evo.nPoSePenalty a = evo.nPoSePenalty b)); [done|exfalso; tauto].
    + destruct (decide (evo.nPoSeRevivedHeight a = evo.nPoSeRevivedHeight b)); [done|exfalso; tauto].
    + destruct (decide (evo.nRevocationReason a = evo.nRevocationReason b)); [done|exfalso; tauto].
    + destruct (decide (evo.confirmedHash a = evo.confirmedHash b)); [done|exfalso; tauto].
    + destruct (decide (evo.confirmedHashWithProRegTxHash a = evo.confirmedHashWithProRegTxHash b)); [done|exfalso; tauto].
    + destruct (decide (evo.keyIDOwner a = evo.keyIDOwner b)); [done|exfalso; tauto].
    + destruct (decide (evo.pubKeyOperator a = evo.pubKeyOperator b)); [done|exfalso; tauto].
    + destruct (decide (evo.keyIDVoting a = evo.keyIDVoting b)); [done|exfalso; tauto].
    + destruct (decide (evo.addr a = evo.addr b)); [done|exfalso; tauto].
    + destruct (decide (evo.scriptPayout a = evo.scriptPayout b)); [done|exfalso; tauto].
    + destruct (decide (evo.scriptOperatorPayout a = evo.scriptOperatorPayout b)); [done|exfalso; tauto].
  - intros ->. unfold evo.CDeterministicMNStateDiff_new. cbv zeta.
    by rewrite !DMN_STATE_DIFF_LINE_same_state.
  - intros Hz. rewrite ApplyToState_spec, Hz. change (Z.land 0 _) with 0.
    by apply CDeterministicMNState_ext.
Qed.

End evo_state_facts.

(** A diff of the test instance, computed: a ban at height 100 with a
    penalty of 5 sets the flags [Field_nPoSePenalty] and
    [Field_nPoSeBanHeight], and applying the diff bans the fresh state. *)
Example CDeterministicMNStateDiff_run :
  let a := evo.CDeterministicMNState_new 0 [] [] in
  let b := evo.BanIfNotBanned 100 (evo.set_nPoSePenalty 5 a) in
  evo.fields (evo.CDeterministicMNStateDiff_new 0 [] [] a b) = 0x0014 ∧
  evo.ApplyToState (evo.CDeterministicMNStateDiff_new 0 [] [] a b) a = b ∧
  evo.IsBanned (evo.ApplyToState (evo.CDeterministicMNStateDiff_new 0 [] [] a b) a) = true.
Proof. repeat split; vm_compute; reflexivity. Qed.

(** ** The map of unique properties *)

Section unique_property_facts.

Context {T : Type} `{EqDecision T}.
Variables (nullValue : T) (SerializeHash : T → uint256).

Local Abbreviation Add := (MNList.AddUniqueProperty nullValue SerializeHash).
Local Abbreviation Delete := (MNList.DeleteUniqueProperty nullValue SerializeHash).
Local Abbreviation Update := (MNList.UpdateUniqueProperty nullValue SerializeHash).
Local Abbreviation Has := (MNList.HasUniqueProperty SerializeHash).

(** X16. Adding a property and deleting it again restores the map: for a
    property that is free, or held by the same masternode with a count in
    [1, 2^32), [AddUniqueProperty] succeeds, the property is then present,
    and [DeleteUniqueProperty] by the same masternode succeeds and gives
    back the map as it was, count included. *)
Theorem AddUniqueProperty_delete (dmn : CDeterministicMN) (v : T)
    (m : gmap uint256 (uint256 * Z)) :
  v ≠ nullValue →
  (∀ e, m !! SerializeHash v = Some e → e.1 = proTxHash dmn ∧ 1 ≤ e.2 < 2 ^ 32) →
  ∃ m1, Add dmn v m = (true, m1) ∧ Has v m1 = true ∧ Delete dmn v m1 = (true, m).
Proof.
  intros Hv He. unfold MNList.AddUniqueProperty, MNList.DeleteUniqueProperty,
    MNList.HasUniqueProperty.
  destruct (decide (v = nullValue)) as [|_]; [done|].
  destruct (m !! SerializeHash v) as [[owner count]|] eqn:Hm.
  - destruct (He _ eq_refl) as [Howner Hcount]. simpl in *. subst owner.
    destruct (decide (proTxHash dmn ≠ proTxHash dmn)) as [|_]; [done|].
    eexists. split; [reflexivity|].
    rewrite lookup_insert_eq. simpl. split; [done|].
    destruct (decide (proTxHash dmn ≠ proTxHash dmn)) as [|_]; [done|].
    assert (Hwrap : MNList.to_uint32 (count + 1) ≠ 1 ∧
                    MNList.to_uint32 (MNList.to_uint32 (count + 1) - 1) = count).
    { unfold MNList.to_uint32. destruct (decide (count + 1 < 2 ^ 32)).
      - rewrite (Z.mod_small (count + 1)) by lia. split; [lia|].
        rewrite Z.mod_small; lia.
      - replace (count + 1) with (2 ^ 32) by lia. rewrite Z.mod_same by lia.
        split; [lia|]. replace count with (2 ^ 32 - 1) by lia. reflexivity. }
    destruct Hwrap as [Hne Hback].
    destruct (decide (MNList.to_uint32 (count + 1) = 1)) as [|_]; [done|].
    rewrite Hback, insert_insert_eq. by rewrite insert_id.
  - eexists. split; [reflexivity|]. rewrite lookup_insert_eq. simpl.
    split; [done|].
    destruct (decide (proTxHash dmn ≠ proTxHash dmn)) as [|_]; [done|].
    destruct (decide (1 = 1)) as [_|]; [|done].
    rewrite delete_insert_eq. by rewrite delete_id.
Qed.

(** X17. A property belongs to one masternode at a time: once a masternode
    has added a property, [AddUniqueProperty] and [DeleteUniqueProperty] of
    the same property by a masternode with another hash fail and leave the
    map as it is.  The null value is refused by both, and deleting a
    property that nobody has succeeds without changing the map. *)
Theorem AddUniqueProperty_exclusive (dmn1 dmn2 : CDeterministicMN) (v : T)
    (m m1 : gmap uint256 (uint256 * Z)) :
  Add dmn1 v m = (true, m1) →
  proTxHash dmn2 ≠ proTxHash dmn1 →
  Has v m1 = true ∧
  Add dmn2 v m1 = (false, m1) ∧
  Delete dmn2 v m1 = (false, m1) ∧
  Add dmn2 nullValue m1 = (false, m1) ∧
  Delete dmn2 nullValue m1 = (false, m1) ∧
  (∀ v', v' ≠ nullValue → m1 !! SerializeHash v' = None → Delete dmn2 v' m1 = (true, m1)).
Proof.
  intros Hadd Hne.
  assert (Hv : v ≠ nullValue).
  { intros ->. unfold MNList.AddUniqueProperty in Hadd. by rewrite decide_True in Hadd. }
  assert (Hown : ∃ count, m1 !! SerializeHash v = Some (proTxHash dmn1, count)).
  { unfold MNList.AddUniqueProperty in Hadd. rewrite decide_False in Hadd by done.
    destruct (m !! SerializeHash v) as [[owner count]|]; simpl in Hadd.
    - case_decide; simplify_eq. eexists. apply lookup_insert_eq.
    - simplify_eq. eexists. apply lookup_insert_eq. }
  destruct Hown as [count Hown].
  unfold MNList.AddUniqueProperty, MNList.DeleteUniqueProperty, MNList.HasUniqueProperty.
  rewrite !(decide_False (P := v = nullValue)) by done.
  rewrite !(decide_True (P := nullValue = nullValue)) by done.
  rewrite Hown. simpl. rewrite !(decide_True (P := proTxHash dmn1 ≠ proTxHash dmn2)) by done.
  split; [first [done | by apply bool_decide_eq_true]|]. repeat split.
  intros v' Hv' Hfree. rewrite decide_False by done. rewrite Hfree. by rewrite delete_id.
Qed.

Lemma DeleteUniqueProperty_last (dmn : CDeterministicMN) (v : T)
    (m : gmap uint256 (uint256 * Z)) :
  v ≠ nullValue → m !! SerializeHash v = Some (proTxHash dmn, 1) →
  Delete dmn v m = (true, delete (SerializeHash v) m).
Proof.
  intros Hv Hm. unfold MNList.DeleteUniqueProperty.
  destruct (decide (v = nullValue)) as [|_]; [done|]. rewrite Hm. simpl.
  destruct (decide (proTxHash dmn ≠ proTxHash dmn)) as [|_]; [done|].
  by destruct (decide (1 = 1)).
Qed.

Lemma AddUniqueProperty_free (dmn : CDeterministicMN) (v : T)
    (m : gmap uint256 (uint256 * Z)) :
  v ≠ nullValue → m !! SerializeHash v = None →
  Add dmn v m = (true, <[SerializeHash v := (proTxHash dmn, 1)]> m).
Proof.
  intros Hv Hm. unfold MNList.AddUniqueProperty.
  destruct (decide (v = nullValue)) as [|_]; [done|]. by rewrite Hm.
Qed.

Lemma AddUniqueProperty_taken (dmn : CDeterministicMN) (v : T)
    (m : gmap uint256 (uint256 * Z)) (other count : Z) :
  v ≠ nullValue → m !! SerializeHash v = Some (other, count) → other ≠ proTxHash dmn →
  Add dmn v m = (false, m).
Proof.
  intros Hv Hm Hne. unfold MNList.AddUniqueProperty.
  destruct (decide (v = nullValue)) as [|_]; [done|]. rewrite Hm. simpl.
  by destruct (decide (other ≠ proTxHash dmn)).
Qed.

(** X18. [UpdateUniqueProperty] releases the old value before it takes the
    new one, and does not undo the release when the second step fails: for
    a masternode that holds [oldValue] once, the call with a [newValue] held
    by another masternode returns [false] with [oldValue] already removed
    from the map, while with a free [newValue] it returns [true] with
    [oldValue] removed and [newValue] held once.  Equal values change
    nothing. *)
Theorem UpdateUniqueProperty_steps (dmn : CDeterministicMN) (oldValue newValue : T)
    (m : gmap uint256 (uint256 * Z)) :
  oldValue ≠ nullValue → newValue ≠ nullValue →
  SerializeHash oldValue ≠ SerializeHash newValue →
  m !! SerializeHash oldValue = Some (proTxHash dmn, 1) →
  Update dmn oldValue oldValue m = (true, m) ∧
  (m !! SerializeHash newValue = None →
   Update dmn oldValue newValue m =
     (true, <[SerializeHash newValue := (proTxHash dmn, 1)]> (delete (SerializeHash oldValue) m))) ∧
  (∀ other count,
     m !! SerializeHash newValue = Some (other, count) → other ≠ proTxHash dmn →
     Update dmn oldValue newValue m = (false, delete (SerializeHash oldValue) m) ∧
     delete (SerializeHash oldValue) m ≠ m).
Proof.
  intros Hold Hnew Hhash Hm.
  assert (Hvals : oldValue ≠ newValue) by (intros ->; done).
  split; [|split].
  - unfold MNList.UpdateUniqueProperty. by destruct (decide (oldValue = oldValue)).
  - intros Hfree. unfold MNList.UpdateUniqueProperty.
    destruct (decide (oldValue = newValue)) as [|_]; [done|].
    destruct (decide (oldValue ≠ nullValue)) as [_|]; [|done].
    rewrite DeleteUniqueProperty_last by done. simpl.
    destruct (decide (newValue ≠ nullValue)) as [_|]; [|done].
    rewrite AddUniqueProperty_free; [done|done|].
    by rewrite lookup_delete_ne.
  - intros other count Hother Hne. split.
    + unfold MNList.UpdateUniqueProperty.
      destruct (decide (oldValue = newValue)) as [|_]; [done|].
      destruct (decide (oldValue ≠ nullValue)) as [_|]; [|done].
      rewrite DeleteUniqueProperty_last by done. simpl.
      destruct (decide (newValue ≠ nullValue)) as [_|]; [|done].
      rewrite (AddUniqueProperty_taken _ _ _ other count); [done|done| |done].
      by rewrite lookup_delete_ne.
    + intros Heq. assert (Hl : delete (SerializeHash oldValue) m !! SerializeHash oldValue
                               = Some (proTxHash dmn, 1)) by (by rewrite Heq).
      by rewrite lookup_delete_eq in Hl.
Qed.

End unique_property_facts.


Lemma AddUniqueProperty_delete_witness :
  ∃ m1, MNList.AddUniqueProperty 0 (λ port, port + 1000) (test_mn 1) 80 test_uniques = (true, m1) ∧
        MNList.HasUniqueProperty (λ port, port + 1000) 80 m1 = true ∧
        MNList.DeleteUniqueProperty 0 (λ port, port + 1000) (test_mn 1) 80 m1
          = (true, test_uniques).
Proof.
  apply (AddUniqueProperty_delete 0 (λ port, port + 1000) (test_mn 1) 80 test_uniques).
  - lia.
  - intros e He. vm_compute in He. injection He as <-. simpl. lia.
Defined.

Lemma AddUniqueProperty_exclusive_witness :
  let m1 := <[1025 := (1, 1)]> test_uniques in
  MNList.HasUniqueProperty (λ port, port + 1000) 25 m1 = true ∧
  MNList.AddUniqueProperty 0 (λ port, port + 1000) (test_mn 2) 25 m1 = (false, m1) ∧
  MNList.DeleteUniqueProperty 0 (λ port, port + 1000) (test_mn 2) 25 m1 = (false, m1).
Proof.
  intros m1.
  destruct (AddUniqueProperty_exclusive 0 (λ port, port + 1000) (test_mn 1) (test_mn 2) 25
              test_uniques m1) as (Hhas & Hadd & Hdelete & _).
  - vm_compute. reflexivity.
  - simpl. lia.
  - exact (conj Hhas (conj Hadd Hdelete)).
Defined.

Lemma UpdateUniqueProperty_steps_witness :
  MNList.UpdateUniqueProperty 0 (λ port, port + 1000) (test_mn 1) 22 443 test_uniques
    = (false, delete 1022 test_uniques) ∧
  MNList.UpdateUniqueProperty 0 (λ port, port + 1000) (test_mn 1) 22 25 test_uniques
    = (true, <[1025 := (1, 1)]> (delete 1022 test_uniques)).
Proof.
  destruct (UpdateUniqueProperty_steps 0 (λ port, port + 1000) (test_mn 1) 22 443 test_uniques)
    as (_ & _ & Htaken); [lia | lia | simpl; lia | vm_compute; reflexivity |].
  destruct (UpdateUniqueProperty_steps 0 (λ port, port + 1000) (test_mn 1) 22 25 test_uniques)
    as (_ & Hfree & _); [lia | lia | simpl; lia | vm_compute; reflexivity |].
  split.
  - apply (Htaken 2 1); [vm_compute; reflexivity | simpl; lia].
  - apply Hfree. vm_compute. reflexivity.
Defined.


(** ** [CMasternodeUtils] *)

Section MasternodeUtils_facts.

Import MasternodeUtils.

(** X19. [CompareScoreMN] is a strict total order on the pairs of a score
    and a collateral outpoint whenever [operator<] of [COutPoint] is one on
    the outpoints: it is irreflexive and transitive, and of two different
    pairs exactly one comes before the other.  Equal scores are ordered by
    the outpoints, so the order of a sort by it does not depend on the
    order of its input. *)
Theorem CompareScoreMN_strict_order {COutPoint : Type} (lt : COutPoint → COutPoint → bool) :
  (∀ o, lt o o = false) →
  (∀ o1 o2 o3, lt o1 o2 = true → lt o2 o3 = true → lt o1 o3 = true) →
  (∀ o1 o2, o1 ≠ o2 → lt o1 o2 = true ∨ lt o2 o1 = true) →
  (∀ t, CompareScoreMN lt t t = false) ∧
  (∀ t1 t2 t3, CompareScoreMN lt t1 t2 = true → CompareScoreMN lt t2 t3 = true →
               CompareScoreMN lt t1 t3 = true) ∧
  (∀ t1 t2, t1 ≠ t2 → CompareScoreMN lt t1 t2 = negb (CompareScoreMN lt t2 t1)).
Proof.
  intros Hirr Htrans Htotal. unfold CompareScoreMN. repeat split.
  - intros [score o]. simpl. rewrite Z.eqb_refl. simpl. apply Hirr.
  - intros [s1 o1] [s2 o2] [s3 o3]. simpl.
    destruct (Z.eqb_spec s1 s2), (Z.eqb_spec s2 s3), (Z.eqb_spec s1 s3); simpl;
      rewrite ?Z.ltb_lt; try lia.
    apply Htrans.
  - intros [s1 o1] [s2 o2] Hne. simpl.
    destruct (Z.eqb_spec s1 s2) as [->|Hs]; simpl.
    + rewrite Z.eqb_refl. simpl.
      assert (Ho : o1 ≠ o2) by congruence.
      destruct (lt o1 o2) eqn:H12, (lt o2 o1) eqn:H21; simpl; try done.
      * pose proof (Htrans _ _ _ H12 H21) as Hcycle. by rewrite Hirr in Hcycle.
      * destruct (Htotal _ _ Ho); congruence.
    + destruct (Z.eqb_spec s2 s1) as [|_]; [congruence|]. simpl.
      destruct (Z.ltb_spec s1 s2), (Z.ltb_spec s2 s1); simpl; try done; lia.
Qed.

Variables (GetMaxOutboundNodeCount : Z) (IsMasternodeQuorumNode : CNode → bool) (GetTime : Z).

Local Abbreviation Process :=
  (ProcessMasternodeConnections GetMaxOutboundNodeCount IsMasternodeQuorumNode GetTime).

Lemma nonMasternodeCount_fold (vNodes : list CNode) (count : Z) :
  0 ≤ count → count + Z.of_nat (length vNodes) < 2 ^ 64 →
  fold_left (λ count pnode, if counted pnode then to_size_t (count + 1) else count) vNodes count
  = count + Z.of_nat (length (filter (λ pnode, counted pnode = true) vNodes)).
Proof.
  revert count. induction vNodes as [|pnode vNodes IH]; intros count Hcount Hlen; simpl in *.
  - lia.
  - rewrite filter_cons. destruct (counted pnode) eqn:Hcounted.
    + rewrite decide_True by done. unfold to_size_t. rewrite Z.mod_small by lia.
      rewrite IH by lia. simpl. lia.
    + rewrite decide_False by done. rewrite IH by lia. lia.
Qed.

(** The counter of the first pass is the number of counted nodes. *)
Lemma nonMasternodeCount_filter (vNodes : list CNode) :
  Z.of_nat (length vNodes) < 2 ^ 64 →
  nonMasternodeCount vNodes = Z.of_nat (length (filter (λ pnode, counted pnode = true) vNodes)).
Proof.
  intros Hlen. unfold nonMasternodeCount. rewrite nonMasternodeCount_fold; lia.
Qed.

Lemma disconnect_cases (pnode : CNode) :
  disconnect IsMasternodeQuorumNode GetTime pnode = pnode ∨
  disconnect IsMasternodeQuorumNode GetTime pnode = set_fDisconnect pnode ∧
  IsMasternodeConnection pnode = true.
Proof.
  unfold disconnect. destruct (IsMasternodeConnection pnode); simpl; [|by left].
  repeat match goal with
         | |- context [if ?b then _ else _] => destruct b; simpl
         end; auto.
Qed.

(** X20. What [ProcessMasternodeConnections] never does: it leaves alone
    every node that is no masternode connection, every verified masternode
    that is a quorum node or an inbound connection, every unverified one
    that connected less than 5 seconds ago or is watching, and every probe
    connected less than 5 seconds ago, for a node whose time since the
    connection fits the 64 bits of the seconds, so that the subtraction of
    the code does not overflow; and whatever the nodes and the times are,
    it removes and adds none and changes nothing of a node but
    [fDisconnect], which it only sets, and only on masternode
    connections. *)
Theorem ProcessMasternodeConnections_keeps (vNodes : list CNode) (i : nat) (pnode : CNode) :
  vNodes !! i = Some pnode →
  (- 2 ^ 63 ≤ GetTime - m_connected pnode < 2 ^ 63 →
   IsMasternodeConnection pnode = false ∨
   (GetVerifiedProRegTxHash pnode ≠ 0 ∧
    (IsMasternodeQuorumNode pnode = true ∨ IsInboundConn pnode = true)) ∨
   (GetVerifiedProRegTxHash pnode = 0 ∧
    (GetTime - m_connected pnode < 5 ∨ qwatch pnode = true)) ∨
   (m_masternode_probe_connection pnode = true ∧ GetTime - m_connected pnode < 5) →
   Process vNodes !! i = Some pnode) ∧
  (Process vNodes !! i = Some pnode ∨
   Process vNodes !! i = Some (set_fDisconnect pnode) ∧ IsMasternodeConnection pnode = true) ∧
  length (Process vNodes) = length vNodes.
Proof.
  intros Hi. unfold ProcessMasternodeConnections.
  destruct (bool_decide (nonMasternodeCount vNodes < GetMaxOutboundNodeCount)).
  { by auto. }
  rewrite length_map, list_lookup_fmap, Hi. simpl. split; [|split; [|done]].
  - intros Hrange Hkept. f_equal. unfold disconnect, IsNull.
    rewrite (to_int64_small _ Hrange).
    destruct (IsMasternodeConnection pnode) eqn:Hmn; simpl; [|done].
    destruct (Z.eqb_spec (GetVerifiedProRegTxHash pnode) 0) as [Hnull|Hnull]; simpl.
    + destruct Hkept as [?|[[? _]|[[_ Hunverified]|[Hprobe Hrecent]]]]; try done.
      * destruct Hunverified as [Hrecent|Hwatch].
        -- by rewrite bool_decide_eq_true_2.
        -- rewrite Hwatch. by case_bool_decide.
      * by rewrite bool_decide_eq_true_2.
    + destruct Hkept as [?|[[_ Hverified]|[[? _]|[Hprobe Hrecent]]]]; try done.
      * destruct Hverified as [-> | ->]; [done|]. by destruct (IsMasternodeQuorumNode pnode).
      * rewrite Hprobe. rewrite bool_decide_eq_true_2 by done. simpl.
        by destruct (IsMasternodeQuorumNode pnode), (IsInboundConn pnode).
  - destruct (disconnect_cases pnode) as [-> | [-> ?]]; auto.
Qed.

(** X21. When [ProcessMasternodeConnections] disconnects: with fewer counted
    nodes (outbound full nodes and nodes with no verified masternode hash)
    than [GetMaxOutboundNodeCount] it changes nothing; otherwise it sets
    [fDisconnect] on every masternode connection that is verified, of no
    quorum and outbound, or unverified, not watching and connected for 5
    seconds or more, unless it is a probe connected less than 5 seconds
    ago.  The time since the connection is taken to fit the 64 bits of the
    seconds, so that the subtraction of the code does not overflow. *)
Theorem ProcessMasternodeConnections_disconnects (vNodes : list CNode) :
  Z.of_nat (length vNodes) < 2 ^ 64 →
  (Z.of_nat (length (filter (λ pnode, counted pnode = true) vNodes)) < GetMaxOutboundNodeCount →
   Process vNodes = vNodes) ∧
  (GetMaxOutboundNodeCount ≤ Z.of_nat (length (filter (λ pnode, counted pnode = true) vNodes)) →
   ∀ i pnode,
     vNodes !! i = Some pnode →
     - 2 ^ 63 ≤ GetTime - m_connected pnode < 2 ^ 63 →
     IsMasternodeConnection pnode = true →
     (GetVerifiedProRegTxHash pnode ≠ 0 ∧
      IsMasternodeQuorumNode pnode = false ∧ IsInboundConn pnode = false) ∨
     (GetVerifiedProRegTxHash pnode = 0 ∧
      5 ≤ GetTime - m_connected pnode ∧ qwatch pnode = false) →
     m_masternode_probe_connection pnode = false ∨ 5 ≤ GetTime - m_connected pnode →
     Process vNodes !! i = Some (set_fDisconnect pnode)).
Proof.
  intros Hlen. unfold ProcessMasternodeConnections.
  rewrite nonMasternodeCount_filter by done. split.
  - intros Hfew. by rewrite bool_decide_eq_true_2.
  - intros Hmany i pnode Hi Hrange Hmn Hstate Hprobe.
    rewrite bool_decide_eq_false_2 by lia.
    rewrite list_lookup_fmap, Hi. simpl. f_equal. unfold disconnect, IsNull.
    rewrite (to_int64_small _ Hrange). rewrite Hmn. simpl.
    destruct Hstate as [(Hverified & -> & ->)|(-> & Hold & ->)]; simpl.
    + destruct (Z.eqb_spec (GetVerifiedProRegTxHash pnode) 0) as [|_]; [done|]. simpl.
      destruct Hprobe as [-> | Hold]; [done|].
      rewrite bool_decide_eq_false_2 by lia. by rewrite andb_false_r.
    + rewrite bool_decide_eq_false_2 by lia. simpl. by rewrite andb_false_r.
Qed.

End MasternodeUtils_facts.

Lemma CompareScoreMN_strict_order_witness :
  MasternodeUtils.CompareScoreMN Z.ltb (7, 1) (7, 2) = true ∧
  MasternodeUtils.CompareScoreMN Z.ltb (7, 2) (7, 1) = false.
Proof.
  destruct (CompareScoreMN_strict_order Z.ltb) as (_ & _ & Htotal).
  - intros o. apply Z.ltb_irrefl.
  - intros o1 o2 o3. rewrite !Z.ltb_lt. lia.
  - intros o1 o2 Hne. rewrite !Z.ltb_lt. lia.
  - split; [reflexivity|]. rewrite (Htotal (7, 2) (7, 1)) by done. reflexivity.
Defined.

Lemma ProcessMasternodeConnections_keeps_witness :
  MasternodeUtils.ProcessMasternodeConnections 1 test_IsMasternodeQuorumNode 1000 test_nodes
    !! 3%nat = Some (test_node 4 true 0 998).
Proof.
  apply (ProcessMasternodeConnections_keeps 1 test_IsMasternodeQuorumNode 1000 test_nodes 3
           (test_node 4 true 0 998)).
  - reflexivity.
  - simpl. lia.
  - right. right. left. simpl. split; [reflexivity|]. left. lia.
Defined.

Lemma ProcessMasternodeConnections_disconnects_witness :
  MasternodeUtils.ProcessMasternodeConnections 1 test_IsMasternodeQuorumNode 1000 test_nodes
    !! 2%nat = Some (MasternodeUtils.set_fDisconnect (test_node 3 true 33 0)).
Proof.
  destruct (ProcessMasternodeConnections_disconnects 1 test_IsMasternodeQuorumNode 1000
              test_nodes) as [_ Hmany].
  - simpl. lia.
  - apply Hmany.
    + vm_compute. discriminate.
    + reflexivity.
    + simpl. lia.
    + reflexivity.
    + left. simpl. repeat split. lia.
    + left. reflexivity.
Defined.

(** The run of [ProcessMasternodeConnections] on the test nodes, computed:
    of the four nodes only the verified masternode of no quorum is
    disconnected, and with room for more outbound nodes none is. *)
Example ProcessMasternodeConnections_run :
  map MasternodeUtils.fDisconnect
    (MasternodeUtils.ProcessMasternodeConnections 1 test_IsMasternodeQuorumNode 1000 test_nodes)
    = [false; false; true; false] ∧
  MasternodeUtils.ProcessMasternodeConnections 8 test_IsMasternodeQuorumNode 1000 test_nodes
    = test_nodes.
Proof. split; vm_compute; reflexivity. Qed.

(** Outside the range of the two theorems: for an unverified masternode
    connection with [m_connected] at the least 64-bit number, the
    difference [1000 + 2^63] does not fit; the 64-bit subtraction gives a
    negative number, which is less than 5, and the node is kept. *)
Example ProcessMasternodeConnections_overflow_run :
  MasternodeUtils.ProcessMasternodeConnections 1 test_IsMasternodeQuorumNode 1000
    [test_node 15 true 0 (- 2 ^ 63)]
  = [test_node 15 true 0 (- 2 ^ 63)].
Proof. vm_compute. reflexivity. Qed.
